(** * Vibe Cam (myphotoapp): the photo and album collections

    A shallow embedding of the code that reads and writes the two
    AsyncStorage collections, ['photos'] and ['albums']:

    - [app/(tabs)/gallery.tsx]: [GalleryScreen] ([loadPhotos], [loadAlbums],
      [saveAlbums], [toggleSelect], [createOrUpdateAlbum], [deleteSelected]);
    - [app/photo/[id].tsx]: [PhotoDetails] (the mount effect, [saveCaption],
      [toggleFavorite], [deletePhoto], [saveEdits]), [CameraScreen]
      ([savePhoto]) and [AlbumsScreen] ([loadAlbumsAndPhotos],
      [getPhotosForAlbum], the create-album [onPress]);
    - the crop screen [ResizableCrop] ([handleSave]).

    Conventions of the embedding.

    - Strings are [string]; [===] on strings is equality.  The methods
      [toLowerCase] and [trim] are those of the engine: the handlers take
      them as a [JS.StringMethods] and the statements hold for every such
      pair of methods.
    - An optional field ([favorite?], [coverPhotoId?]) is an [option]; the
      JavaScript operators [a || b] and [!a] are written out with their
      truthiness: [undefined] and the empty string are falsy.
    - A [Set<string>] is the list of its elements in insertion order, which is
      what [Array.from] returns.
    - A component is a record of its [useState] cells.  A handler reads the
      cells through its closure, so it takes the record of the render it was
      created in as an argument, and its [set...] calls update the record
      carried by the monad.  A handler is followed to its end: [run] gives
      the cells, the store and the trace that it leaves when it has
      finished, not the renders shown while it awaits the store.
    - AsyncStorage is a record [Store]; the text stored under a key is
      represented by what [JSON.parse] makes of it.  [getItem] and [setItem]
      may reject; which calls do is part of the store.
    - What the outside observes of a handler ([Alert.alert], [console.error],
      [setItem], router and file-system calls) is collected in a trace.
    - Values produced by the platform ([Date.now()], [Math.random()],
      [uuid.v4()], the result of an image manipulation, whether a file
      operation succeeds) are arguments of the handler that uses them. *)

From Stdlib Require Import String Ascii List Bool Arith Lia.
Import ListNotations.
Open Scope string_scope.
Open Scope list_scope.

(* ================================================================== *)
(** ** JavaScript values and array methods *)
(* ================================================================== *)

Module JS.

(** Truthiness of a [string | undefined]. *)
Definition truthy (v : option string) : bool :=
  match v with
  | Some s => negb (s =? "")
  | None => false
  end.

(** [a || b] on [string | undefined]. *)
Definition or (a b : option string) : option string :=
  if truthy a then a else b.

(** [!b] on [boolean | undefined]. *)
Definition not (b : option bool) : bool :=
  match b with
  | Some true => false
  | _ => true
  end.

(** [arr.includes(x)] on an array of strings. *)
Definition includes (arr : list string) (x : string) : bool :=
  existsb (String.eqb x) arr.

(** [arr.findIndex(f)]; [None] stands for [-1]. *)
Fixpoint findIndex {A : Type} (f : A -> bool) (arr : list A) : option nat :=
  match arr with
  | [] => None
  | x :: rest =>
      if f x then Some 0
      else match findIndex f rest with
           | Some i => Some (S i)
           | None => None
           end
  end.

(** [arr[i] = x] for an index inside the array.  (Outside it JavaScript
    would grow the array; [createOrUpdateAlbum] only assigns at an index
    that [findIndex] returned.) *)
Fixpoint assign {A : Type} (arr : list A) (i : nat) (x : A) : list A :=
  match arr, i with
  | [], _ => []
  | _ :: rest, 0 => x :: rest
  | y :: rest, S j => y :: assign rest j x
  end.

(** [String.prototype.toLowerCase] and [String.prototype.trim].  What they
    return is fixed by the engine and its Unicode tables (the lower case of
    every cased letter, the characters that count as white space), not by
    this program; the handlers that call them are embedded over any
    implementation of the two methods, and nothing is assumed of them. *)
Class StringMethods : Type := {
  toLowerCase : string -> string;
  trim : string -> string
}.

(** [!s] on a string: the empty string is falsy. *)
Definition isEmpty (s : string) : bool := s =? "".

End JS.

(** The two methods on texts of ASCII characters, where every engine gives
    the same answer: the letters [A]..[Z] are lowered, and the white space
    is the space, the tab, the line feed, the vertical tab, the form feed
    and the carriage return.  The scenarios, whose texts are ASCII, are
    evaluated with it. *)
Module AsciiText.

Definition lowerChar (c : ascii) : ascii :=
  let n := nat_of_ascii c in
  if ((65 <=? n) && (n <=? 90))%nat then ascii_of_nat (n + 32) else c.

(** [s.toLowerCase()] on an ASCII text. *)
Fixpoint toLowerCase (s : string) : string :=
  match s with
  | EmptyString => EmptyString
  | String c rest => String (lowerChar c) (toLowerCase rest)
  end.

(** White space: space, tab, line feed, vertical tab, form feed,
    carriage return. *)
Definition isSpace (c : ascii) : bool :=
  let n := nat_of_ascii c in
  ((n =? 32) || ((9 <=? n) && (n <=? 13)))%nat.

Fixpoint trimStart (s : string) : string :=
  match s with
  | EmptyString => EmptyString
  | String c rest => if isSpace c then trimStart rest else s
  end.

Fixpoint trimEnd (s : string) : string :=
  match s with
  | EmptyString => EmptyString
  | String c rest =>
      match trimEnd rest with
      | EmptyString => if isSpace c then EmptyString else String c EmptyString
      | kept => String c kept
      end
  end.

(** [s.trim()] on an ASCII text. *)
Definition trim (s : string) : string := trimEnd (trimStart s).

Definition methods : JS.StringMethods :=
  {| JS.toLowerCase := toLowerCase; JS.trim := trim |}.

End AsciiText.

(* ================================================================== *)
(** ** Records *)
(* ================================================================== *)

(** [type Photo = { id; uri; createdAt; caption; favorite? }]. *)
Module Photo.
Record t : Type := mk {
  id : string;
  uri : string;
  createdAt : string;
  caption : string;
  favorite : option bool
}.

(** [{ ...p, caption }] *)
Definition withCaption (p : t) (c : string) : t :=
  mk (id p) (uri p) (createdAt p) c (favorite p).

(** [{ ...p, favorite: !p.favorite }] *)
Definition toggled (p : t) : t :=
  mk (id p) (uri p) (createdAt p) (caption p) (Some (JS.not (favorite p))).

(** [{ ...p, uri }] *)
Definition withUri (p : t) (u : string) : t :=
  mk (id p) u (createdAt p) (caption p) (favorite p).
End Photo.

(** [type Album = { id; name; createdAt; photoIds; coverPhotoId? }] in the
    gallery; the albums screen writes albums without [createdAt] and
    [coverPhotoId] under the same key, so both are optional here. *)
Module Album.
Record t : Type := mk {
  id : string;
  name : string;
  createdAt : option string;
  photoIds : list string;
  coverPhotoId : option string
}.
End Album.

(* ================================================================== *)
(** ** AsyncStorage *)
(* ================================================================== *)

Inductive Key : Type := photosKey | albumsKey.

(** What is stored under a key, seen through
    [stored ? JSON.parse(stored) : []]. *)
Inductive Stored (A : Type) : Type :=
| Absent                (* nothing stored: getItem resolves to null *)
| EmptyText             (* the empty string, which is falsy *)
| Malformed             (* a text on which JSON.parse throws *)
| Json (v : A).         (* the text JSON.stringify(v) *)

Arguments Absent {A}.
Arguments EmptyText {A}.
Arguments Malformed {A}.
Arguments Json {A} v.

Record Store : Type := mkStore {
  photosItem : Stored (list Photo.t);
  albumsItem : Stored (list Album.t);
  getItemRejects : Key -> bool;
  setItemRejects : Key -> bool
}.

(** The collection a successful load sees; [None] when the load fails. *)
Definition collection {A : Type} (rejects : bool) (s : Stored (list A))
  : option (list A) :=
  if rejects then None
  else match s with
       | Absent | EmptyText => Some []
       | Malformed => None
       | Json v => Some v
       end.

Definition photosOf (st : Store) : option (list Photo.t) :=
  collection (getItemRejects st photosKey) (photosItem st).

Definition albumsOf (st : Store) : option (list Album.t) :=
  collection (getItemRejects st albumsKey) (albumsItem st).

(* ================================================================== *)
(** ** Handlers: state, exceptions and the observable trace *)
(* ================================================================== *)

Inductive Exn : Type :=
| StorageError          (* AsyncStorage rejected *)
| SyntaxError           (* JSON.parse threw *)
| TypeError
| FileSystemError       (* expo-file-system rejected *)
| ManipulatorError.     (* expo-image-manipulator rejected *)

Inductive Effect : Type :=
| SetItem (k : Key)                 (* a completed AsyncStorage.setItem *)
| Alert (title : string)            (* Alert.alert(title, ...) *)
| ConsoleError (msg : string)       (* console.error(msg, ...) *)
| Router (call route : string)      (* router.push / back / replace *)
| FileCopy (src dst : string)       (* FileSystem.copyAsync *)
| FileDelete (path : string).       (* FileSystem.deleteAsync *)

Record World (S : Type) : Type := mkWorld {
  screen : S;
  store : Store;
  trace : list Effect
}.

Arguments mkWorld {S}.
Arguments screen {S}.
Arguments store {S}.
Arguments trace {S}.

Inductive Outcome (A : Type) : Type :=
| Done (a : A)
| Thrown (e : Exn).

Arguments Done {A} a.
Arguments Thrown {A} e.

Definition Handler (S A : Type) : Type := World S -> Outcome A * World S.

Module H.
Section Monad.
Context {S : Type}.

Definition ret {A : Type} (a : A) : Handler S A := fun w => (Done a, w).

Definition bind {A B : Type} (c : Handler S A) (k : A -> Handler S B)
: Handler S B :=
fun w =>
match c w with
| (Done a, w1) => k a w1
| (Thrown e, w1) => (Thrown e, w1)
end.

Definition throw {A : Type} (e : Exn) : Handler S A :=
fun w => (Thrown e, w).

(** [try { c } catch (e) { h e }] *)
Definition tryCatch {A : Type} (c : Handler S A) (h : Exn -> Handler S A)
: Handler S A :=
fun w =>
match c w with
| (Done a, w1) => (Done a, w1)
| (Thrown e, w1) => h e w1
end.

(** [try { c } finally { f }] *)
Definition finally {A : Type} (c : Handler S A) (f : Handler S unit)
: Handler S A :=
fun w =>
match c w with
| (r, w1) =>
    match f w1 with
    | (Done _, w2) => (r, w2)
    | (Thrown e, w2) => (Thrown e, w2)
    end
end.

(** A [set...] call of [useState]. *)
Definition modify (f : S -> S) : Handler S unit :=
fun w => (Done tt, mkWorld (f (screen w)) (store w) (trace w)).

Definition emit (e : Effect) : Handler S unit :=
fun w => (Done tt, mkWorld (screen w) (store w) (trace w ++ [e])).

Definition alert (title : string) : Handler S unit := emit (Alert title).

Definition consoleError (msg : string) : Handler S unit :=
emit (ConsoleError msg).

(** [await AsyncStorage.getItem('photos')] *)
Definition getItemPhotos : Handler S (Stored (list Photo.t)) :=
fun w =>
if getItemRejects (store w) photosKey then (Thrown StorageError, w)
else (Done (photosItem (store w)), w).

(** [await AsyncStorage.getItem('albums')] *)
Definition getItemAlbums : Handler S (Stored (list Album.t)) :=
fun w =>
if getItemRejects (store w) albumsKey then (Thrown StorageError, w)
else (Done (albumsItem (store w)), w).

(** [stored ? JSON.parse(stored) : []] *)
Definition parseOrEmpty {A : Type} (stored : Stored (list A))
: Handler S (list A) :=
match stored with
| Absent | EmptyText => ret []
| Malformed => throw SyntaxError
| Json v => ret v
end.

(** [await AsyncStorage.setItem('photos', JSON.stringify(v))] *)
Definition setItemPhotos (v : list Photo.t) : Handler S unit :=
fun w =>
let st := store w in
if setItemRejects st photosKey then (Thrown StorageError, w)
else (Done tt,
      mkWorld (screen w)
        (mkStore (Json v) (albumsItem st)
           (getItemRejects st) (setItemRejects st))
        (trace w ++ [SetItem photosKey])).

(** [await AsyncStorage.setItem('albums', JSON.stringify(v))] *)
Definition setItemAlbums (v : list Album.t) : Handler S unit :=
fun w =>
let st := store w in
if setItemRejects st albumsKey then (Thrown StorageError, w)
else (Done tt,
      mkWorld (screen w)
        (mkStore (photosItem st) (Json v)
           (getItemRejects st) (setItemRejects st))
        (trace w ++ [SetItem albumsKey])).

End Monad.
End H.

Declare Scope handler_scope.
Delimit Scope handler_scope with handler.

Notation "x <- c ;; k" := (H.bind c (fun x => k))
  (at level 61, c at next level, right associativity) : handler_scope.
Notation "c ;; k" := (H.bind c (fun _ => k))
  (at level 61, right associativity) : handler_scope.

(** Running a handler from the render [s], on the store [st]. *)
Definition run {S A : Type} (h : Handler S A) (s : S) (st : Store)
  : Outcome A * World S :=
  h (mkWorld s st []).


Local Open Scope handler_scope.

(** [FileSystem.copyAsync({ from, to })]; [ok] tells whether it resolves. *)
Definition copyAsync {S : Type} (ok : bool) (src dst : string)
  : Handler S unit :=
  if ok then H.emit (FileCopy src dst) else H.throw FileSystemError.

(** [FileSystem.deleteAsync(path, { idempotent: true })]. *)
Definition deleteAsync {S : Type} (ok : bool) (path : string)
  : Handler S unit :=
  if ok then H.emit (FileDelete path) else H.throw FileSystemError.

(** [ImageManipulator.manipulateAsync(...)]: the uri of the result, or a
    rejection. *)
Definition manipulateAsync {S : Type} (result : option string)
  : Handler S string :=
  match result with
  | Some u => H.ret u
  | None => H.throw ManipulatorError
  end.

(* ================================================================== *)
(** ** app/(tabs)/gallery.tsx: GalleryScreen *)
(* ================================================================== *)

Module Gallery.

(** The [useState] cells the handlers below read or write ([searchText] and
    [filteredSections] only feed the rendering). *)
Record State : Type := mkState {
  allPhotos : list Photo.t;
  selectedIds : list string;
  selectionMode : bool;
  showActionModal : bool;
  showAlbumModal : bool;
  albumName : string;
  albums : list Album.t;
  isLoading : bool
}.

Definition initial : State := mkState [] [] false false false "" [] false.

Definition setAllPhotos (v : list Photo.t) : Handler State unit :=
  H.modify (fun s => mkState v (selectedIds s) (selectionMode s)
    (showActionModal s) (showAlbumModal s) (albumName s) (albums s)
    (isLoading s)).

Definition setSelectedIds (v : list string) : Handler State unit :=
  H.modify (fun s => mkState (allPhotos s) v (selectionMode s)
    (showActionModal s) (showAlbumModal s) (albumName s) (albums s)
    (isLoading s)).

Definition setSelectionMode (v : bool) : Handler State unit :=
  H.modify (fun s => mkState (allPhotos s) (selectedIds s) v
    (showActionModal s) (showAlbumModal s) (albumName s) (albums s)
    (isLoading s)).

Definition setShowActionModal (v : bool) : Handler State unit :=
  H.modify (fun s => mkState (allPhotos s) (selectedIds s) (selectionMode s)
    v (showAlbumModal s) (albumName s) (albums s) (isLoading s)).

Definition setShowAlbumModal (v : bool) : Handler State unit :=
  H.modify (fun s => mkState (allPhotos s) (selectedIds s) (selectionMode s)
    (showActionModal s) v (albumName s) (albums s) (isLoading s)).

Definition setAlbumName (v : string) : Handler State unit :=
  H.modify (fun s => mkState (allPhotos s) (selectedIds s) (selectionMode s)
    (showActionModal s) (showAlbumModal s) v (albums s) (isLoading s)).

Definition setAlbums (v : list Album.t) : Handler State unit :=
  H.modify (fun s => mkState (allPhotos s) (selectedIds s) (selectionMode s)
    (showActionModal s) (showAlbumModal s) (albumName s) v (isLoading s)).

Definition setIsLoading (v : bool) : Handler State unit :=
  H.modify (fun s => mkState (allPhotos s) (selectedIds s) (selectionMode s)
    (showActionModal s) (showAlbumModal s) (albumName s) (albums s) v).

Definition loadPhotos : Handler State unit :=
  H.tryCatch
    (stored <- H.getItemPhotos ;;
     parsed <- H.parseOrEmpty stored ;;
     setAllPhotos parsed)
    (fun _ => H.consoleError "Failed to load photos:").

Definition loadAlbums : Handler State unit :=
  H.tryCatch
    (stored <- H.getItemAlbums ;;
     parsed <- H.parseOrEmpty stored ;;
     setAlbums parsed)
    (fun _ => H.consoleError "Failed to load albums:").

Definition saveAlbums (albumsToSave : list Album.t) : Handler State unit :=
  H.tryCatch
    (H.setItemAlbums albumsToSave ;;
     setAlbums albumsToSave)
    (fun error => H.consoleError "Failed to save albums:" ;; H.throw error).

(** The [useFocusEffect] callback.  The two loads are started without being
    awaited; they touch different keys and different cells, so running them
    one after the other gives the same result. *)
Definition onFocus : Handler State unit :=
  loadPhotos ;;
  loadAlbums ;;
  setSelectedIds [] ;;
  setSelectionMode false.

(** [toggleSelect(id)]: a functional update of the selection. *)
Definition toggleSelect (id : string) : Handler State unit :=
  H.modify (fun s =>
    let prev := selectedIds s in
    let newSet :=
      if JS.includes prev id
      then filter (fun x => negb (x =? id)) prev
      else prev ++ [id] in
    mkState (allPhotos s) newSet (selectionMode s) (showActionModal s)
      (showAlbumModal s) (albumName s) (albums s) (isLoading s)).

(** The render in which the user has typed [name] into the album modal
    ([onChangeText={setAlbumName}]) and holds the selection [ids]. *)
Definition withInput (name : string) (ids : list string) (g : State)
  : State :=
  mkState (allPhotos g) ids (selectionMode g) (showActionModal g)
    (showAlbumModal g) name (albums g) (isLoading g).

Definition handleAddToAlbum : Handler State unit :=
  setShowActionModal false ;;
  setShowAlbumModal true ;;
  setAlbumName "My Gallery".

(** [album => album.name.toLowerCase() === trimmedName.toLowerCase()] *)
Definition sameName {engine : JS.StringMethods} (trimmedName : string)
  (album : Album.t) : bool :=
  JS.toLowerCase (Album.name album) =? JS.toLowerCase trimmedName.

(** [selectedPhotoIds.filter(id => !existingAlbum.photoIds.includes(id))] *)
Definition newPhotoIds (existingAlbum : Album.t)
  (selectedPhotoIds : list string) : list string :=
  filter (fun id => negb (JS.includes (Album.photoIds existingAlbum) id))
    selectedPhotoIds.

(** [{ ...existingAlbum, photoIds: [...existingAlbum.photoIds, ...newPhotoIds],
       coverPhotoId: existingAlbum.coverPhotoId || newPhotoIds[0] }] *)
Definition extended (existingAlbum : Album.t) (added : list string)
  : Album.t :=
  Album.mk (Album.id existingAlbum) (Album.name existingAlbum)
    (Album.createdAt existingAlbum)
    (Album.photoIds existingAlbum ++ added)
    (JS.or (Album.coverPhotoId existingAlbum) (hd_error added)).

(** The statements after the [if]/[else] of [createOrUpdateAlbum], which the
    early [return] of the no-new-photos branch skips. *)
Definition resetState : Handler State unit :=
  setShowAlbumModal false ;;
  setSelectedIds [] ;;
  setSelectionMode false ;;
  setAlbumName "".

(** [createOrUpdateAlbum].  [dateNow] is [Date.now().toString()], [random]
    is [Math.random().toString(36).substr(2, 9)] and [isoNow] is
    [new Date().toISOString()]. *)
Definition createOrUpdateAlbum {engine : JS.StringMethods}
  (dateNow random isoNow : string) (g : State) : Handler State unit :=
  if JS.isEmpty (JS.trim (albumName g)) then
    H.alert "Album Name Required"
  else
    setIsLoading true ;;
    H.finally
      (H.tryCatch
         (let selectedPhotoIds := selectedIds g in
          let trimmedName := JS.trim (albumName g) in
          let existingAlbumIndex :=
            JS.findIndex (sameName trimmedName) (albums g) in
          let updatedAlbums := albums g in
          match existingAlbumIndex with
          | Some i =>
              match nth_error updatedAlbums i with
              | None => H.throw TypeError
              | Some existingAlbum =>
                  let added := newPhotoIds existingAlbum selectedPhotoIds in
                  if (length added =? 0)%nat then
                    H.alert "No New Photos" ;;
                    setIsLoading false
                  else
                    saveAlbums
                      (JS.assign updatedAlbums i (extended existingAlbum added)) ;;
                    H.alert "Success" ;;
                    resetState
              end
          | None =>
              let newAlbum :=
                Album.mk (dateNow ++ random) trimmedName (Some isoNow)
                  selectedPhotoIds (hd_error selectedPhotoIds) in
              saveAlbums (updatedAlbums ++ [newAlbum]) ;;
              H.alert "Success" ;;
              resetState
          end)
         (fun _ =>
            H.consoleError "Create album error:" ;;
            H.alert "Error"))
      (setIsLoading false).

(** [allPhotos.filter(photo => !selectedIds.has(photo.id))] *)
Definition remaining (selected : list string) (photos : list Photo.t)
  : list Photo.t :=
  filter (fun photo => negb (JS.includes selected (Photo.id photo))) photos.

(** The callback of [albums.map] in [deleteSelected]. *)
Definition withoutDeleted (deletedIds : list string) (album : Album.t)
  : Album.t :=
  Album.mk (Album.id album) (Album.name album) (Album.createdAt album)
    (filter (fun id => negb (JS.includes deletedIds id)) (Album.photoIds album))
    (if JS.includes deletedIds
          (match JS.or (Album.coverPhotoId album) (Some "") with
           | Some c => c
           | None => ""
           end)
     then JS.or
            (find (fun id => negb (JS.includes deletedIds id))
               (Album.photoIds album))
            None
     else Album.coverPhotoId album).

(** [albums.map(...).filter(album => album.photoIds.length > 0)] *)
Definition cascade (deletedIds : list string) (albums : list Album.t)
  : list Album.t :=
  filter (fun album => (0 <? length (Album.photoIds album))%nat)
    (map (withoutDeleted deletedIds) albums).

Definition deleteSelected (g : State) : Handler State unit :=
  H.tryCatch
    (let deletedIds := selectedIds g in
     let remaining := remaining (selectedIds g) (allPhotos g) in
     H.setItemPhotos remaining ;;
     let updatedAlbums := cascade deletedIds (albums g) in
     saveAlbums updatedAlbums ;;
     setAllPhotos remaining ;;
     setSelectedIds [] ;;
     setSelectionMode false ;;
     setShowActionModal false ;;
     H.alert "Deleted")
    (fun _ =>
       H.consoleError "Delete error:" ;;
       H.alert "Error" ;;
       setShowActionModal false).

(** [handleSelectionAction] *)
Definition handleSelectionAction (g : State) : Handler State unit :=
  if (length (selectedIds g) =? 0)%nat then H.alert "No photos selected"
  else setShowActionModal true.

(** [confirmDelete]: the alert whose Delete button runs [deleteSelected] and
    whose Cancel button closes the action modal. *)
Definition confirmDelete : Handler State unit := H.alert "Delete Photos".

(** [handlePhotoPress(id)] *)
Definition handlePhotoPress (id : string) (g : State) : Handler State unit :=
  if selectionMode g then toggleSelect id
  else H.emit (Router "push" ("/photo/" ++ id)).

(** [viewAlbums] *)
Definition viewAlbums : Handler State unit :=
  setShowActionModal false ;;
  H.emit (Router "push" "/albums").

(** The [onPress] of the Select / Cancel button. *)
Definition selectOnPress (g : State) : Handler State unit :=
  if selectionMode g then
    setSelectionMode false ;;
    setSelectedIds []
  else setSelectionMode true.

(** The [onPress] of the Cancel button of the album modal, also its
    [onRequestClose]: [!isLoading && setShowAlbumModal(false)]. *)
Definition closeAlbumModal (g : State) : Handler State unit :=
  if isLoading g then H.ret tt else setShowAlbumModal false.

(** [disabled={isLoading || !albumName.trim()}] of the Create button of the
    album modal. *)
Definition createDisabled {engine : JS.StringMethods} (g : State) : bool :=
  isLoading g || JS.isEmpty (JS.trim (albumName g)).

(** What the user can do on the gallery: each event is one [onPress],
    [onChangeText], [onRequestClose] or focus callback of the component. *)
Inductive Event : Type :=
| Focus
| PressSelect
| PressPhoto (id : string)
| PressActions
| PressAddToAlbum
| PressViewAlbums
| PressDelete
| ConfirmDelete
| CancelDelete
| CloseActionModal
| ChangeAlbumName (text : string)
| PressCreate (dateNow random isoNow : string)
| CloseAlbumModal.

(** The handler an event runs, in the render [g].  A press on the disabled
    Create button runs nothing, and the name cannot be edited while
    [isLoading] ([editable={!isLoading}]). *)
Definition handle {engine : JS.StringMethods} (e : Event) (g : State)
  : Handler State unit :=
  match e with
  | Focus => onFocus
  | PressSelect => selectOnPress g
  | PressPhoto id => handlePhotoPress id g
  | PressActions => handleSelectionAction g
  | PressAddToAlbum => handleAddToAlbum
  | PressViewAlbums => viewAlbums
  | PressDelete => confirmDelete
  | ConfirmDelete => deleteSelected g
  | CancelDelete => setShowActionModal false
  | CloseActionModal => setShowActionModal false
  | ChangeAlbumName text =>
      if isLoading g then H.ret tt else setAlbumName text
  | PressCreate dateNow random isoNow =>
      if createDisabled g then H.ret tt
      else createOrUpdateAlbum dateNow random isoNow g
  | CloseAlbumModal => closeAlbumModal g
  end.

End Gallery.

(* ================================================================== *)
(** ** app/photo/[id].tsx: PhotoDetails *)
(* ================================================================== *)

Module PhotoDetails.

Record State : Type := mkState {
  photo : option Photo.t;
  caption : string;
  rotation : nat;
  hasEdits : bool;
  editUri : option string
}.

Definition initial : State := mkState None "" 0 false None.

Definition setPhoto (v : option Photo.t) : Handler State unit :=
  H.modify (fun s => mkState v (caption s) (rotation s) (hasEdits s)
    (editUri s)).

Definition setCaption (v : string) : Handler State unit :=
  H.modify (fun s => mkState (photo s) v (rotation s) (hasEdits s)
    (editUri s)).

Definition setRotation (v : nat) : Handler State unit :=
  H.modify (fun s => mkState (photo s) (caption s) v (hasEdits s)
    (editUri s)).

Definition setHasEdits (v : bool) : Handler State unit :=
  H.modify (fun s => mkState (photo s) (caption s) (rotation s) v
    (editUri s)).

Definition setEditUri (v : option string) : Handler State unit :=
  H.modify (fun s => mkState (photo s) (caption s) (rotation s) (hasEdits s)
    v).

(** The render in which the user has typed [c] into the caption field
    ([onChangeText={setCaption}]). *)
Definition typed (c : string) (d : State) : State :=
  mkState (photo d) c (rotation d) (hasEdits d) (editUri d).

(** The [useEffect] that loads the photo of the route parameter [id].  Its
    body is not inside a [try]: a rejection leaves the handler. *)
Definition onMount (id : string) : Handler State unit :=
  stored <- H.getItemPhotos ;;
  photos <- H.parseOrEmpty stored ;;
  match find (fun p => Photo.id p =? id) photos with
  | Some found =>
      setPhoto (Some found) ;;
      setCaption (Photo.caption found) ;;
      setEditUri (Some (Photo.uri found))
  | None => H.ret tt
  end.

(** [photos.map(p => p.id === photo.id ? { ...p, caption } : p)] *)
Definition captioned (target caption : string) (photos : list Photo.t)
  : list Photo.t :=
  map (fun p => if Photo.id p =? target then Photo.withCaption p caption else p)
    photos.

Definition saveCaption (d : State) : Handler State unit :=
  match photo d with
  | None => H.ret tt
  | Some ph =>
      H.tryCatch
        (stored <- H.getItemPhotos ;;
         photos <- H.parseOrEmpty stored ;;
         let updatedPhotos := captioned (Photo.id ph) (caption d) photos in
         H.setItemPhotos updatedPhotos ;;
         H.alert "Saved")
        (fun _ => H.consoleError "Failed to save caption:")
  end.

(** [photos.map(p => p.id === photo.id ? { ...p, favorite: !p.favorite } : p)] *)
Definition favoriteToggled (target : string) (photos : list Photo.t)
  : list Photo.t :=
  map (fun p => if Photo.id p =? target then Photo.toggled p else p) photos.

Definition toggleFavorite (d : State) : Handler State unit :=
  match photo d with
  | None => H.ret tt
  | Some ph =>
      H.tryCatch
        (stored <- H.getItemPhotos ;;
         photos <- H.parseOrEmpty stored ;;
         let updatedPhotos := favoriteToggled (Photo.id ph) photos in
         H.setItemPhotos updatedPhotos ;;
         setPhoto (Some (Photo.toggled ph)))
        (fun _ => H.consoleError "Failed to toggle favorite:")
  end.

(** [photos.filter(p => p.id !== photo.id)] *)
Definition without (target : string) (photos : list Photo.t)
  : list Photo.t :=
  filter (fun p => negb (Photo.id p =? target)) photos.

(** [deletePhoto]; [deleteOk] tells whether [FileSystem.deleteAsync]
    resolves. *)
Definition deletePhoto (deleteOk : bool) (d : State) : Handler State unit :=
  match photo d with
  | None => H.ret tt
  | Some ph =>
      H.tryCatch
        (deleteAsync deleteOk (Photo.uri ph) ;;
         stored <- H.getItemPhotos ;;
         photos <- H.parseOrEmpty stored ;;
         let updatedPhotos := without (Photo.id ph) photos in
         H.setItemPhotos updatedPhotos ;;
         H.alert "Deleted" ;;
         H.emit (Router "back" ""))
        (fun _ => H.consoleError "Failed to delete photo:")
  end.

(** [photos.map(p => p.id === photo.id ? { ...p, uri: manipulated.uri } : p)] *)
Definition reframed (target uri : string) (photos : list Photo.t)
  : list Photo.t :=
  map (fun p => if Photo.id p =? target then Photo.withUri p uri else p) photos.

(** [saveEdits]; [manipulated] is what [ImageManipulator.manipulateAsync]
    gives for the edited image. *)
Definition saveEdits (manipulated : option string) (d : State)
  : Handler State unit :=
  match photo d with
  | None => H.ret tt
  | Some ph =>
      if negb (JS.truthy (editUri d)) then H.ret tt
      else
        H.tryCatch
          (uri <- manipulateAsync manipulated ;;
           stored <- H.getItemPhotos ;;
           photos <- H.parseOrEmpty stored ;;
           let updatedPhotos := reframed (Photo.id ph) uri photos in
           H.setItemPhotos updatedPhotos ;;
           setPhoto (Some (Photo.withUri ph uri)) ;;
           setRotation 0 ;;
           setEditUri (Some uri) ;;
           setHasEdits false ;;
           H.alert "Saved")
          (fun _ => H.consoleError "Failed to save edits:")
  end.

(** [rotatePhoto]: [setRotation(r => (r + 90) % 360); setHasEdits(true)]. *)
Definition rotatePhoto : Handler State unit :=
  H.modify (fun s => mkState (photo s) (caption s)
    ((rotation s + 90) mod 360) (hasEdits s) (editUri s)) ;;
  setHasEdits true.

(** [cropPhoto]; [cropped] is what [ImageManipulator.manipulateAsync] gives
    for the fixed 300 x 300 crop. *)
Definition cropPhoto (cropped : option string) (d : State)
  : Handler State unit :=
  if negb (JS.truthy (editUri d)) then H.ret tt
  else
    H.tryCatch
      (uri <- manipulateAsync cropped ;;
       setEditUri (Some uri) ;;
       setHasEdits true)
      (fun _ => H.consoleError "Crop failed:").

(** [FileSystem.getInfoAsync(uri)]: whether the file exists, or a
    rejection. *)
Definition getInfoAsync (info : option bool) : Handler State bool :=
  match info with
  | Some found => H.ret found
  | None => H.throw FileSystemError
  end.

(** [applyBlackAndWhite].  [info] is what [FileSystem.getInfoAsync] gives,
    [processed] what [ImageManipulator.manipulateAsync] gives, [timestamp] is
    [Date.now()] printed, and [copyOk] tells whether the [copyAsync] of the
    fallback resolves.  The [catch] blocks do not look at the exception, so
    the [Error('Image file not found')] thrown for a missing file is
    represented by [FileSystemError]. *)
Definition applyBlackAndWhite (info : option bool) (processed : option string)
  (timestamp documentDirectory : string) (copyOk : bool) (d : State)
  : Handler State unit :=
  if negb (JS.truthy (editUri d)) then H.ret tt
  else
    H.tryCatch
      (found <- getInfoAsync info ;;
       (if negb found then H.throw FileSystemError else H.ret tt) ;;
       uri <- manipulateAsync processed ;;
       setEditUri (Some uri) ;;
       setHasEdits true ;;
       H.alert "Effect Applied")
      (fun _ =>
         H.consoleError "Failed to apply effect:" ;;
         H.tryCatch
           (let newUri :=
              (documentDirectory ++ "edited_" ++ timestamp ++ ".jpg")%string in
            copyAsync copyOk
              (match editUri d with Some u => u | None => "" end) newUri ;;
            setEditUri (Some newUri) ;;
            setHasEdits true ;;
            H.alert "Effect Applied")
           (fun _ =>
              H.consoleError "Fallback also failed:" ;;
              H.alert "Error")).

End PhotoDetails.

(* ================================================================== *)
(** ** ResizableCrop (the crop screen) *)
(* ================================================================== *)

Module Crop.

(** The component keeps no [useState] cell; its shared values (the crop
    rectangle) only parametrise the image manipulation. *)
Definition State : Type := unit.

(** [handleSave]; [id] and [uri] are the route parameters and [result] is
    what [ImageManipulator.manipulateAsync(uri, [{ crop }])] gives. *)
Definition handleSave (id : string) (result : option string)
  : Handler State unit :=
  H.tryCatch
    (uri <- manipulateAsync result ;;
     stored <- H.getItemPhotos ;;
     parsed <- H.parseOrEmpty stored ;;
     let updated := PhotoDetails.reframed id uri parsed in
     H.setItemPhotos updated ;;
     H.alert "Saved" ;;
     H.emit (Router "replace" "/gallery"))
    (fun _ =>
       H.consoleError "❌ Cropping failed" ;;
       H.alert "Error").

End Crop.

(* ================================================================== *)
(** ** CameraScreen *)
(* ================================================================== *)

Module Camera.

Record State : Type := mkState {
  photoUri : option string
}.

Definition initial : State := mkState None.

Definition setPhotoUri (v : option string) : Handler State unit :=
  H.modify (fun _ => mkState v).

(** [savePhoto].  [uuid] is [uuid.v4()], [documentDirectory] is
    [FileSystem.documentDirectory], [isoNow] is [new Date().toISOString()]
    and [copyOk] tells whether [FileSystem.copyAsync] resolves. *)
Definition savePhoto (uuid documentDirectory isoNow : string) (copyOk : bool)
  (c : State) : Handler State unit :=
  if negb (JS.truthy (photoUri c)) then H.ret tt
  else
    H.tryCatch
      (let fileName := (uuid ++ ".jpg")%string in
       let newPath := (documentDirectory ++ fileName)%string in
       copyAsync copyOk
         (match photoUri c with Some u => u | None => "" end) newPath ;;
       existing <- H.getItemPhotos ;;
       photos <- H.parseOrEmpty existing ;;
       let photos :=
         photos ++ [Photo.mk fileName newPath isoNow "" (Some false)] in
       H.setItemPhotos photos ;;
       H.alert "✅ Saved" ;;
       setPhotoUri None)
      (fun _ => H.consoleError "Save error:").

(** [retakePhoto] *)
Definition retakePhoto : Handler State unit := setPhotoUri None.

End Camera.

(* ================================================================== *)
(** ** AlbumsScreen *)
(* ================================================================== *)

Module AlbumsScreen.

Record State : Type := mkState {
  albums : list Album.t;
  photos : list Photo.t;
  selectedAlbum : option Album.t;
  loading : bool;
  showCreateModal : bool;
  newAlbumName : string;
  selectedPhotoIds : list string
}.

Definition initial : State := mkState [] [] None true false "" [].

Definition setAlbums (v : list Album.t) : Handler State unit :=
  H.modify (fun s => mkState v (photos s) (selectedAlbum s) (loading s)
    (showCreateModal s) (newAlbumName s) (selectedPhotoIds s)).

Definition setPhotos (v : list Photo.t) : Handler State unit :=
  H.modify (fun s => mkState (albums s) v (selectedAlbum s) (loading s)
    (showCreateModal s) (newAlbumName s) (selectedPhotoIds s)).

Definition setLoading (v : bool) : Handler State unit :=
  H.modify (fun s => mkState (albums s) (photos s) (selectedAlbum s) v
    (showCreateModal s) (newAlbumName s) (selectedPhotoIds s)).

Definition setShowCreateModal (v : bool) : Handler State unit :=
  H.modify (fun s => mkState (albums s) (photos s) (selectedAlbum s)
    (loading s) v (newAlbumName s) (selectedPhotoIds s)).

Definition loadAlbumsAndPhotos : Handler State unit :=
  H.finally
    (H.tryCatch
       (albumsJson <- H.getItemAlbums ;;
        photosJson <- H.getItemPhotos ;;
        albumList <- H.parseOrEmpty albumsJson ;;
        photoList <- H.parseOrEmpty photosJson ;;
        setAlbums albumList ;;
        setPhotos photoList)
       (fun _ =>
          H.consoleError "Failed to load:" ;;
          H.alert "Error"))
    (setLoading false).

(** The render in which the user has typed [name] into the new-album modal
    and ticked the photos [ids]. *)
Definition withInput (name : string) (ids : list string) (s : State)
  : State :=
  mkState (albums s) (photos s) (selectedAlbum s) (loading s)
    (showCreateModal s) name ids.

(** [photos.filter((photo) => album.photoIds.includes(photo.id))] *)
Definition getPhotosForAlbum (s : State) (album : Album.t) : list Photo.t :=
  filter (fun photo => JS.includes (Album.photoIds album) (Photo.id photo))
    (photos s).

(** The [onPress] of the Create button of the new-album modal; [dateNow] is
    [Date.now().toString()].  It is not inside a [try]. *)
Definition createOnPress {engine : JS.StringMethods} (dateNow : string)
  (s : State) : Handler State unit :=
  let trimmed := JS.trim (newAlbumName s) in
  if JS.isEmpty trimmed || (length (selectedPhotoIds s) =? 0)%nat then
    H.alert "Missing Info"
  else
    let newAlbum := Album.mk dateNow trimmed None (selectedPhotoIds s) None in
    let updatedAlbums := albums s ++ [newAlbum] in
    H.setItemAlbums updatedAlbums ;;
    setAlbums updatedAlbums ;;
    setShowCreateModal false ;;
    H.alert "Success".

Definition setNewAlbumName (v : string) : Handler State unit :=
  H.modify (fun s => mkState (albums s) (photos s) (selectedAlbum s)
    (loading s) (showCreateModal s) v (selectedPhotoIds s)).

Definition setSelectedPhotoIds (v : list string) : Handler State unit :=
  H.modify (fun s => mkState (albums s) (photos s) (selectedAlbum s)
    (loading s) (showCreateModal s) (newAlbumName s) v).

(** The [onPress] of the Create Album button, which opens the modal. *)
Definition openCreateModal : Handler State unit :=
  setNewAlbumName "" ;;
  setSelectedPhotoIds [] ;;
  setShowCreateModal true.

(** The [onPress] of a photo in the modal: it ticks or unticks [id] in a
    copy of the selection of the render. *)
Definition tickPhoto (id : string) (s : State) : Handler State unit :=
  let updated :=
    if JS.includes (selectedPhotoIds s) id
    then filter (fun x => negb (x =? id)) (selectedPhotoIds s)
    else selectedPhotoIds s ++ [id] in
  setSelectedPhotoIds updated.

End AlbumsScreen.

(* ================================================================== *)
(** ** Vocabulary of the statements *)
(* ================================================================== *)

(** [sub] is [l] with some elements left out: same elements, same order. *)
Inductive Subsequence {A : Type} : list A -> list A -> Prop :=
| Subsequence_nil : Subsequence [] []
| Subsequence_keep (x : A) (sub l : list A) :
    Subsequence sub l -> Subsequence (x :: sub) (x :: l)
| Subsequence_skip (x : A) (sub l : list A) :
    Subsequence sub l -> Subsequence sub (x :: l).

(** A handler surfaced a failure: it logged an error or showed the Error
    alert. *)
Definition reportsFailure (tr : list Effect) : bool :=
  existsb
    (fun e =>
       match e with
       | ConsoleError _ => true
       | Alert title => title =? "Error"
       | _ => false
       end)
    tr.

(** A handler completed a write to AsyncStorage. *)
Definition wrote (tr : list Effect) : bool :=
  existsb (fun e => match e with SetItem _ => true | _ => false end) tr.

(** [after] is [before] with [patch] applied to the records whose id is [id]
    and every other record as it was: same length, same order, same ids. *)
Definition Patched (id : string) (patch : Photo.t -> Photo.t)
  (before after : list Photo.t) : Prop :=
  Forall2
    (fun p p' =>
       Photo.id p' = Photo.id p /\
       (Photo.id p = id -> p' = patch p) /\
       (Photo.id p <> id -> p' = p))
    before after.

(** The albums screen after the photos [taps] of the new-album modal were
    pressed one after the other, each press running in the render left by
    the previous one. *)
Definition tapped (taps : list string) (s : AlbumsScreen.State) (st : Store)
  : AlbumsScreen.State :=
  fold_left
    (fun s id => screen (snd (run (AlbumsScreen.tickPhoto id s) s st)))
    taps s.

(** The ids of a photo collection, in order. *)
Definition ids (photos : list Photo.t) : list string := map Photo.id photos.

(** Referential integrity: every id listed by an album is the id of a
    photo. *)
Definition Integrity (photos : list Photo.t) (albums : list Album.t) : Prop :=
  forall a i, In a albums -> In i (Album.photoIds a) -> In i (ids photos).

(** A cover that is set is one of the photos of its album. *)
Definition CoverListed (a : Album.t) : Prop :=
  forall c, Album.coverPhotoId a = Some c -> In c (Album.photoIds a).

(** No two albums have the same name up to case. *)
Definition UniqueNames {engine : JS.StringMethods}
  (albums : list Album.t) : Prop :=
  NoDup (map (fun a => JS.toLowerCase (Album.name a)) albums).

(** The photo that the details screen holds is the stored record of its
    id. *)
Definition Agrees (d : PhotoDetails.State) (st : Store) : Prop :=
  forall ph,
    PhotoDetails.photo d = Some ph ->
    exists photos,
      photosOf st = Some photos /\
      find (fun p => Photo.id p =? Photo.id ph) photos = Some ph.

(* ================================================================== *)
(** ** Scenarios used below *)
(* ================================================================== *)

Module Scenario.

Definition accepts : Key -> bool := fun _ => false.

Definition photoA : Photo.t := Photo.mk "a" "file:///a.jpg" "t1" "" (Some false).
Definition photoB : Photo.t := Photo.mk "b" "file:///b.jpg" "t2" "" (Some false).

(** [{id:"1", name:"Trip", photoIds:["a","b"], coverPhotoId:"a"}] *)
Definition trip : Album.t := Album.mk "1" "Trip" (Some "t0") ["a"; "b"] (Some "a").

(** [{id:"1", name:"Trip", photoIds:["a"], coverPhotoId:"a"}] *)
Definition tripOnlyA : Album.t := Album.mk "1" "Trip" (Some "t0") ["a"] (Some "a").

(** A store holding the photos [a], [b] and the album [trip]. *)
Definition store : Store :=
  mkStore (Json [photoA; photoB]) (Json [trip]) accepts accepts.

(** The gallery after it got the focus on [store]. *)
Definition gallery : Gallery.State :=
  screen (snd (run Gallery.onFocus Gallery.initial store)).

End Scenario.

(* ================================================================== *)
(** ** Array methods *)
(* ================================================================== *)

Lemma includes_In (arr : list string) (x : string) :
  JS.includes arr x = true <-> In x arr.
Proof.
  unfold JS.includes. rewrite existsb_exists. split.
  - intros [y [Hy Heq]]. apply String.eqb_eq in Heq. now subst.
  - intros Hin. exists x. split; [assumption | apply String.eqb_refl].
Qed.

Lemma includes_false (arr : list string) (x : string) :
  JS.includes arr x = false <-> ~ In x arr.
Proof.
  rewrite <- includes_In. destruct (JS.includes arr x); split; intros H.
  - discriminate.
  - now contradiction H.
  - intros H'. discriminate.
  - reflexivity.
Qed.

Lemma includes_singleton (d x : string) :
  JS.includes [d] x = (x =? d).
Proof. unfold JS.includes. simpl. now rewrite orb_false_r. Qed.

Lemma findIndex_Some {A : Type} (f : A -> bool) (arr : list A) (i : nat) :
  JS.findIndex f arr = Some i ->
  exists x, nth_error arr i = Some x /\ f x = true /\
            forall j y, j < i -> nth_error arr j = Some y -> f y = false.
Proof.
  revert i. induction arr as [| a rest IH]; intros i H; simpl in H.
  - discriminate.
  - destruct (f a) eqn:Ha.
    + injection H as <-. exists a. repeat split; auto. intros j y Hj. lia.
    + destruct (JS.findIndex f rest) as [k |] eqn:Hk; [| discriminate].
      injection H as <-. destruct (IH k eq_refl) as [x [Hx [Hfx Hbefore]]].
      exists x. repeat split; auto.
      intros [| j] y Hj Hy; simpl in Hy.
      * now injection Hy as <-.
      * apply (Hbefore j); [lia | assumption].
Qed.

Lemma findIndex_None {A : Type} (f : A -> bool) (arr : list A) :
  JS.findIndex f arr = None <-> forall x, In x arr -> f x = false.
Proof.
  induction arr as [| a rest IH]; simpl.
  - split; [intros _ x [] | reflexivity].
  - destruct (f a) eqn:Ha.
    + split; [discriminate |].
      intros H. rewrite (H a) in Ha; [discriminate | now left].
    + destruct (JS.findIndex f rest) as [k |].
      * split; [discriminate |]. intros H.
        assert (Some k = None) by (apply IH; intros x Hx; apply H; now right).
        discriminate.
      * split; [| reflexivity]. intros _ x [<- | Hx]; [assumption |].
        now apply (proj1 IH).
Qed.

(** After [rest.push(x)], [findIndex] finds [x] when nothing before it
    matches. *)
Lemma findIndex_push {A : Type} (f : A -> bool) (arr : list A) (x : A) :
  JS.findIndex f arr = None -> f x = true ->
  JS.findIndex f (arr ++ [x]) = Some (length arr).
Proof.
  induction arr as [| a rest IH]; simpl; intros Hnone Hx.
  - now rewrite Hx.
  - destruct (f a); [discriminate |].
    destruct (JS.findIndex f rest); [discriminate |].
    now rewrite IH.
Qed.

Lemma assign_length {A : Type} (arr : list A) (i : nat) (x : A) :
  length (JS.assign arr i x) = length arr.
Proof.
  revert i. induction arr as [| a rest IH]; intros [| i]; simpl; auto.
Qed.

Lemma assign_nth_same {A : Type} (arr : list A) (i : nat) (x y : A) :
  nth_error arr i = Some y -> nth_error (JS.assign arr i x) i = Some x.
Proof.
  revert i. induction arr as [| a rest IH]; intros [| i]; simpl;
    try discriminate; auto.
Qed.

Lemma assign_nth_other {A : Type} (arr : list A) (i j : nat) (x : A) :
  i <> j -> nth_error (JS.assign arr i x) j = nth_error arr j.
Proof.
  revert i j. induction arr as [| a rest IH]; intros [| i] [| j] Hij; simpl;
    auto; try contradiction.
Qed.

Lemma findIndex_assign {A : Type} (f : A -> bool) (arr : list A) (i : nat)
  (x : A) :
  JS.findIndex f arr = Some i -> f x = true ->
  JS.findIndex f (JS.assign arr i x) = Some i.
Proof.
  revert i. induction arr as [| a rest IH]; intros i H Hx; simpl in H.
  - discriminate.
  - destruct (f a) eqn:Ha.
    + injection H as <-. simpl. now rewrite Hx.
    + destruct (JS.findIndex f rest) as [k |] eqn:Hk; [| discriminate].
      injection H as <-. simpl. rewrite Ha. now rewrite (IH k eq_refl Hx).
Qed.

(* ================================================================== *)
(** ** Running handlers *)
(* ================================================================== *)

(** Unfolds the monad and the [set...] calls of a handler applied to a
    world; what remains are the tests on the store. *)
Ltac hsimpl :=
  cbv beta iota zeta delta
    [run H.bind H.ret H.throw H.tryCatch H.finally H.modify H.emit H.alert
     H.consoleError H.getItemPhotos H.getItemAlbums H.parseOrEmpty
     H.setItemPhotos H.setItemAlbums copyAsync deleteAsync manipulateAsync
     Gallery.setAllPhotos Gallery.setSelectedIds Gallery.setSelectionMode
     Gallery.setShowActionModal Gallery.setShowAlbumModal Gallery.setAlbumName
     Gallery.setAlbums Gallery.setIsLoading Gallery.saveAlbums
     Gallery.resetState
     PhotoDetails.setPhoto PhotoDetails.setCaption PhotoDetails.setRotation
     PhotoDetails.setHasEdits PhotoDetails.setEditUri
     Camera.setPhotoUri
     AlbumsScreen.setAlbums AlbumsScreen.setPhotos AlbumsScreen.setLoading
     AlbumsScreen.setShowCreateModal];
  cbn [screen store trace fst snd app
       photosItem albumsItem getItemRejects setItemRejects
       Gallery.allPhotos Gallery.selectedIds Gallery.selectionMode
       Gallery.showActionModal Gallery.showAlbumModal Gallery.albumName
       Gallery.albums Gallery.isLoading Gallery.withInput
       PhotoDetails.photo PhotoDetails.caption PhotoDetails.rotation
       PhotoDetails.hasEdits PhotoDetails.editUri PhotoDetails.typed
       Camera.photoUri
       AlbumsScreen.albums AlbumsScreen.photos AlbumsScreen.selectedAlbum
       AlbumsScreen.loading AlbumsScreen.showCreateModal
       AlbumsScreen.newAlbumName AlbumsScreen.selectedPhotoIds
       AlbumsScreen.withInput].

(** What a successful load of a key sees, case by case on the store. *)
Lemma photosOf_Some (st : Store) (photos : list Photo.t) :
  photosOf st = Some photos ->
  getItemRejects st photosKey = false /\
  ((photos = [] /\ (photosItem st = Absent \/ photosItem st = EmptyText)) \/
   photosItem st = Json photos).
Proof.
  unfold photosOf, collection.
  destruct (getItemRejects st photosKey); [discriminate |].
  destruct (photosItem st); intros H; try discriminate;
    injection H as <-; split; auto.
Qed.

Lemma photosOf_None (st : Store) :
  photosOf st = None ->
  getItemRejects st photosKey = true \/
  (getItemRejects st photosKey = false /\ photosItem st = Malformed).
Proof.
  unfold photosOf, collection.
  destruct (getItemRejects st photosKey); [now left |].
  destruct (photosItem st); intros H; try discriminate. now right.
Qed.

(* ================================================================== *)
(** ** Deleting photos: the gallery cascades, the details screen does not *)
(* ================================================================== *)

(** What [deleteSelected] does when the store accepts both writes. *)
Lemma deleteSelected_run (g : Gallery.State) (st : Store) :
  setItemRejects st photosKey = false ->
  setItemRejects st albumsKey = false ->
  run (Gallery.deleteSelected g) g st =
    (Done tt,
     mkWorld
       (Gallery.mkState
          (Gallery.remaining (Gallery.selectedIds g) (Gallery.allPhotos g))
          [] false false (Gallery.showAlbumModal g) (Gallery.albumName g)
          (Gallery.cascade (Gallery.selectedIds g) (Gallery.albums g))
          (Gallery.isLoading g))
       (mkStore
          (Json (Gallery.remaining (Gallery.selectedIds g) (Gallery.allPhotos g)))
          (Json (Gallery.cascade (Gallery.selectedIds g) (Gallery.albums g)))
          (getItemRejects st) (setItemRejects st))
       [SetItem photosKey; SetItem albumsKey; Alert "Deleted"]).
Proof.
  intros Hp Ha. unfold Gallery.deleteSelected. hsimpl.
  rewrite Hp. hsimpl. rewrite Ha. reflexivity.
Qed.

(** No album that [deleteSelected] keeps refers to a deleted photo. *)
Lemma cascade_no_reference (deletedIds : list string) (albums : list Album.t)
  (a : Album.t) (id : string) :
  In a (Gallery.cascade deletedIds albums) -> In id deletedIds ->
  ~ In id (Album.photoIds a).
Proof.
  unfold Gallery.cascade. intros Ha Hid Hin.
  apply filter_In in Ha. destruct Ha as [Ha _].
  apply in_map_iff in Ha. destruct Ha as [a0 [<- _]].
  simpl in Hin. apply filter_In in Hin. destruct Hin as [_ Hkeep].
  apply negb_true_iff, includes_false in Hkeep. contradiction.
Qed.

(** The gallery path establishes the referential post-condition. *)
Lemma deleteSelected_no_reference (g : Gallery.State) (st : Store) :
  setItemRejects st photosKey = false ->
  setItemRejects st albumsKey = false ->
  exists kept,
    albumsItem (store (snd (run (Gallery.deleteSelected g) g st))) = Json kept /\
    forall a id, In a kept -> In id (Gallery.selectedIds g) ->
                 ~ In id (Album.photoIds a).
Proof.
  intros Hp Ha. rewrite (deleteSelected_run g st Hp Ha). simpl.
  eexists. split; [reflexivity |].
  intros a id. apply cascade_no_reference.
Qed.

(** [deletePhoto] of the details screen never touches the albums, whatever
    happens to the photo. *)
Lemma deletePhoto_keeps_albums (deleteOk : bool) (d : PhotoDetails.State)
  (st : Store) :
  albumsItem (store (snd (run (PhotoDetails.deletePhoto deleteOk d) d st))) =
  albumsItem st.
Proof.
  unfold PhotoDetails.deletePhoto. destruct d as [[ph |] c r h e]; hsimpl;
    [| reflexivity].
  destruct st as [p a gr sr]. destruct deleteOk; hsimpl; [| reflexivity].
  destruct (gr photosKey); hsimpl; [reflexivity |].
  destruct p; hsimpl; try reflexivity;
    destruct (sr photosKey); reflexivity.
Qed.

(** C1 (code defect, evaluated at the failing input).  The store holds the
    photos [a] and [b] and the album [Trip] with [photoIds = ["a","b"]].
    Opening photo [a] in the details screen and deleting it there removes
    the photo from the photos collection, reports "Deleted", and leaves the
    album [Trip] as it was: its [photoIds] still contains [a]. *)
Theorem C1_deletePhoto_leaves_album_reference :
  let d := screen (snd (run (PhotoDetails.onMount "a") PhotoDetails.initial
                          Scenario.store)) in
  let w := snd (run (PhotoDetails.deletePhoto true d) d Scenario.store) in
  PhotoDetails.photo d = Some Scenario.photoA /\
  photosItem (store w) = Json [Scenario.photoB] /\
  albumsItem (store w) = Json [Scenario.trip] /\
  In "a" (Album.photoIds Scenario.trip) /\
  trace w = [FileDelete "file:///a.jpg"; SetItem photosKey; Alert "Deleted";
             Router "back" ""].
Proof.
  cbv. repeat split; auto.
Qed.

(* ================================================================== *)
(** ** The cascade of [deleteSelected]: cover photo and empty albums *)
(* ================================================================== *)

Lemma find_hd_filter {A : Type} (f : A -> bool) (l : list A) :
  find f l = hd_error (filter f l).
Proof.
  induction l as [| x rest IH]; simpl; [reflexivity |].
  destruct (f x); [reflexivity | assumption].
Qed.

Lemma existsb_filter_length {A : Type} (f : A -> bool) (l : list A) :
  existsb f l = (0 <? length (filter f l))%nat.
Proof.
  induction l as [| x rest IH]; simpl; [reflexivity |].
  destruct (f x); simpl; [reflexivity | assumption].
Qed.

Lemma filter_not_deleted (id : string) (l : list string) :
  filter (fun i => negb (JS.includes [id] i)) l =
  filter (fun i => negb (i =? id)) l.
Proof.
  apply filter_ext. intros i. now rewrite includes_singleton.
Qed.

(** The cover test of [withoutDeleted] when the cover is the deleted id. *)
Lemma cover_is_deleted (id : string) :
  JS.includes [id]
    (match JS.or (Some id) (Some "") with Some c => c | None => "" end) = true.
Proof.
  rewrite includes_singleton. unfold JS.or, JS.truthy.
  destruct (id =? "") eqn:E; simpl.
  - apply String.eqb_eq in E. subst. reflexivity.
  - apply String.eqb_refl.
Qed.

(** One album through the [map] callback, for a single deleted id. *)
Lemma withoutDeleted_single (id : string) (a : Album.t) :
  let a' := Gallery.withoutDeleted [id] a in
  Album.id a' = Album.id a /\
  Album.name a' = Album.name a /\
  Album.createdAt a' = Album.createdAt a /\
  Album.photoIds a' = filter (fun i => negb (i =? id)) (Album.photoIds a) /\
  (Album.coverPhotoId a = Some id ->
   Album.coverPhotoId a' = JS.or (hd_error (Album.photoIds a')) None).
Proof.
  unfold Gallery.withoutDeleted.
  cbn [Album.id Album.name Album.createdAt Album.photoIds Album.coverPhotoId].
  repeat split.
  - apply filter_not_deleted.
  - intros Hcover. rewrite Hcover, cover_is_deleted.
    now rewrite find_hd_filter.
Qed.

(** [cascade] keeps, in order, the albums that still hold a photo. *)
Lemma cascade_single (id : string) (albums : list Album.t) :
  Gallery.cascade [id] albums =
  map (Gallery.withoutDeleted [id])
    (filter (fun a => existsb (fun i => negb (i =? id)) (Album.photoIds a))
       albums).
Proof.
  unfold Gallery.cascade. induction albums as [| a rest IH];
    [reflexivity |].
  cbn [map filter].
  destruct (withoutDeleted_single id a) as [_ [_ [_ [Hids _]]]].
  rewrite Hids, <- existsb_filter_length, IH.
  now destruct (existsb _ (Album.photoIds a)).
Qed.

(** Where no id is [""], the [|| undefined] of the new cover changes
    nothing: the cover is the first remaining id, or none. *)
Lemma or_hd_error (l : list string) :
  ~ In "" l -> JS.or (hd_error l) None = hd_error l.
Proof.
  destruct l as [| first rest]; [reflexivity |].
  intros Hno. unfold JS.or, JS.truthy. cbn [hd_error].
  destruct (String.eqb_spec first "") as [-> | _]; [| reflexivity].
  contradiction Hno. now left.
Qed.

(** The camera names a photo [uuid + ".jpg"]: no photo id is the empty
    string. *)
Lemma fileName_not_empty (uuid : string) : (uuid ++ ".jpg")%string <> "".
Proof. destruct uuid; discriminate. Qed.

(** C2.  Photo ids are not the empty string ([fileName_not_empty]), so let
    no album list [""].  [deleteSelected] with the single selected photo
    [id], on a store that accepts the writes, saves and shows the albums
    [kept], which are, in order, the albums that hold some photo other than
    [id]: every album left without photos is removed.  Each kept album has
    its id and name and its [photoIds] without [id], which are not empty;
    when its cover was [id], its cover is the first remaining id of its
    [photoIds].  An album left without photos has its cover cleared before
    it is dropped. *)
Theorem C2_cascade_cover_and_removal (g : Gallery.State) (st : Store)
  (id : string) :
  (forall a, In a (Gallery.albums g) -> ~ In "" (Album.photoIds a)) ->
  Gallery.selectedIds g = [id] ->
  setItemRejects st photosKey = false ->
  setItemRejects st albumsKey = false ->
  exists kept,
    albumsItem (store (snd (run (Gallery.deleteSelected g) g st))) = Json kept /\
    Gallery.albums (screen (snd (run (Gallery.deleteSelected g) g st))) = kept /\
    Forall2
      (fun a a' =>
         Album.id a' = Album.id a /\
         Album.name a' = Album.name a /\
         Album.photoIds a' =
           filter (fun i => negb (i =? id)) (Album.photoIds a) /\
         Album.photoIds a' <> [] /\
         (Album.coverPhotoId a = Some id ->
          Album.coverPhotoId a' = hd_error (Album.photoIds a')))
      (filter (fun a => existsb (fun i => negb (i =? id)) (Album.photoIds a))
         (Gallery.albums g))
      kept /\
    (forall a,
       In a (Gallery.albums g) -> Album.coverPhotoId a = Some id ->
       Album.photoIds (Gallery.withoutDeleted [id] a) = [] ->
       Album.coverPhotoId (Gallery.withoutDeleted [id] a) = None).
Proof.
  intros Hids Hsel Hp Ha. rewrite (deleteSelected_run g st Hp Ha).
  cbn [snd store screen albumsItem Gallery.albums].
  rewrite Hsel. eexists. split; [reflexivity |]. split; [reflexivity |].
  rewrite cascade_single. split.
  - assert (Hall : forall a,
              In a (filter (fun a => existsb (fun i => negb (i =? id))
                                       (Album.photoIds a))
                      (Gallery.albums g)) ->
              ~ In "" (Album.photoIds a) /\
              existsb (fun i => negb (i =? id)) (Album.photoIds a) = true).
    { intros a Hin. apply filter_In in Hin. destruct Hin as [Hin Hsome].
      split; [now apply Hids | exact Hsome]. }
    induction (filter _ (Gallery.albums g)) as [| a rest IH]; cbn [map];
      constructor; [| apply IH; intros b Hb; apply Hall; now right].
    destruct (Hall a (or_introl eq_refl)) as [Hno Hsome].
    destruct (withoutDeleted_single id a) as [Hid [Hname [_ [Hrem Hcover]]]].
    split; [exact Hid |]. split; [exact Hname |]. split; [exact Hrem |].
    split.
    + rewrite Hrem. rewrite existsb_filter_length in Hsome.
      destruct (filter _ (Album.photoIds a)); [discriminate Hsome |].
      discriminate.
    + intros Hc. rewrite (Hcover Hc). apply or_hd_error.
      rewrite Hrem. intros Hin. apply filter_In in Hin. now apply Hno.
  - intros a _ Hc Hnone.
    destruct (withoutDeleted_single id a) as [_ [_ [_ [_ Hcover]]]].
    rewrite (Hcover Hc), Hnone. reflexivity.
Qed.

(** The two scenarios of C2: the album [Trip] with the photos [a], [b] and
    the cover [a], from which deleting [a] leaves [photoIds = ["b"]] and the
    cover [b]; and the album with the photo [a] alone, which deleting [a]
    removes. *)
Lemma C2_witness :
  let g := Gallery.withInput "" ["a"] Scenario.gallery in
  let g' :=
    Gallery.mkState [Scenario.photoA] ["a"] true true false ""
      [Scenario.tripOnlyA] false in
  (forall a, In a (Gallery.albums g) -> ~ In "" (Album.photoIds a)) /\
  Gallery.selectedIds g = ["a"] /\
  albumsItem (store (snd (run (Gallery.deleteSelected g) g Scenario.store)))
    = Json [Album.mk "1" "Trip" (Some "t0") ["b"] (Some "b")] /\
  albumsItem (store (snd (run (Gallery.deleteSelected g') g' Scenario.store)))
    = Json [].
Proof.
  assert (Hids : forall a,
            In a [Scenario.trip] -> ~ In "" (Album.photoIds a)).
  { intros a [<- | []] [H | [H | []]]; discriminate. }
  cbv zeta. split; [exact Hids |]. split; [reflexivity |].
  destruct (C2_cascade_cover_and_removal
              (Gallery.withInput "" ["a"] Scenario.gallery) Scenario.store "a"
              Hids eq_refl eq_refl eq_refl) as [kept [Hstore [Hscreen _]]].
  split; [| reflexivity].
  rewrite Hstore, <- Hscreen. reflexivity.
Defined.

(** The two scenarios of C2, evaluated. *)
Example cascade_trip :
  Gallery.cascade ["a"] [Scenario.trip] =
  [Album.mk "1" "Trip" (Some "t0") ["b"] (Some "b")].
Proof. reflexivity. Qed.

Example cascade_tripOnlyA :
  Gallery.cascade ["a"] [Scenario.tripOnlyA] = [].
Proof. reflexivity. Qed.

(* ================================================================== *)
(** ** The photos of an album *)
(* ================================================================== *)

Lemma filter_Subsequence {A : Type} (f : A -> bool) (l : list A) :
  Subsequence (filter f l) l.
Proof.
  induction l as [| x rest IH]; simpl.
  - constructor.
  - destruct (f x); now constructor.
Qed.

(** C4, as it holds.  [getPhotosForAlbum] returns exactly the photo records
    of the screen whose id appears in [album.photoIds], in the order of the
    photos collection (it is the photos collection with the other records
    left out); an id of [photoIds] that no photo record carries contributes
    nothing to the result, and no error is raised for it. *)
Theorem C4_getPhotosForAlbum_collection_order (s : AlbumsScreen.State)
  (album : Album.t) :
  (forall p,
     In p (AlbumsScreen.getPhotosForAlbum s album) <->
     In p (AlbumsScreen.photos s) /\ In (Photo.id p) (Album.photoIds album)) /\
  Subsequence (AlbumsScreen.getPhotosForAlbum s album) (AlbumsScreen.photos s) /\
  (forall p,
     In p (AlbumsScreen.photos s) ->
     In (Photo.id p) (Album.photoIds album) ->
     count_occ string_dec (ids (AlbumsScreen.getPhotosForAlbum s album))
       (Photo.id p) =
     count_occ string_dec (ids (AlbumsScreen.photos s)) (Photo.id p)) /\
  (forall i,
     In i (Album.photoIds album) ->
     ~ In i (ids (AlbumsScreen.photos s)) ->
     ~ In i (ids (AlbumsScreen.getPhotosForAlbum s album))).
Proof.
  unfold AlbumsScreen.getPhotosForAlbum.
  split; [| split; [| split]].
  - intros p. rewrite filter_In, includes_In. reflexivity.
  - apply filter_Subsequence.
  - intros p _ Hid. apply includes_In in Hid. unfold ids.
    induction (AlbumsScreen.photos s) as [| q rest IH]; simpl;
      [reflexivity |].
    destruct (JS.includes (Album.photoIds album) (Photo.id q)) eqn:Hq; simpl.
    + destruct (string_dec (Photo.id q) (Photo.id p)); now rewrite IH.
    + destruct (string_dec (Photo.id q) (Photo.id p)) as [Heq | _];
        [| assumption].
      rewrite Heq, Hid in Hq. discriminate.
  - intros i _ Hmissing Hin. apply Hmissing. unfold ids in *.
    apply in_map_iff in Hin. destruct Hin as [p [<- Hp]].
    apply in_map. now apply filter_In in Hp.
Qed.

(** C4 as stated fails: with the photos stored in the order [a], [b] and an
    album listing [["b", "a"]], the photos of the album come back in the
    order [a], [b] of the photos collection, not in the order of
    [photoIds]. *)
Lemma C4_counterexample :
  let s := AlbumsScreen.mkState [] [Scenario.photoA; Scenario.photoB] None
             false false "" [] in
  let album := Album.mk "2" "Back" None ["b"; "a"] None in
  AlbumsScreen.getPhotosForAlbum s album = [Scenario.photoA; Scenario.photoB] /\
  ids (AlbumsScreen.getPhotosForAlbum s album) <> Album.photoIds album.
Proof.
  split; [reflexivity | discriminate].
Qed.

(* ================================================================== *)
(** ** Updating one photo: [saveCaption], [toggleFavorite], [handleSave] *)
(* ================================================================== *)

(** Reading the photos inside a handler, when the load succeeds. *)
Lemma readPhotos_ok {S A : Type} (k : list Photo.t -> Handler S A)
  (w : World S) (photos : list Photo.t) :
  photosOf (store w) = Some photos ->
  H.bind H.getItemPhotos (fun stored => H.bind (H.parseOrEmpty stored) k) w =
  k photos w.
Proof.
  intros Hread. apply photosOf_Some in Hread.
  destruct Hread as [Hget Hitem]. unfold H.bind, H.getItemPhotos.
  rewrite Hget.
  destruct Hitem as [[-> [-> | ->]] | ->]; reflexivity.
Qed.

(** ... and when it fails: the exception leaves the world as it is. *)
Lemma readPhotos_fails {S A : Type} (k : list Photo.t -> Handler S A)
  (w : World S) :
  photosOf (store w) = None ->
  exists e,
    H.bind H.getItemPhotos (fun stored => H.bind (H.parseOrEmpty stored) k) w =
    (Thrown e, w).
Proof.
  intros Hread. apply photosOf_None in Hread.
  unfold H.bind, H.getItemPhotos.
  destruct Hread as [-> | [-> ->]]; eexists; reflexivity.
Qed.

Lemma find_absent (id : string) (photos : list Photo.t) :
  ~ In id (ids photos) -> find (fun p => Photo.id p =? id) photos = None.
Proof.
  induction photos as [| p rest IH]; simpl; intros Hno; [reflexivity |].
  destruct (String.eqb_spec (Photo.id p) id) as [Heq | _].
  - contradiction Hno. now left.
  - apply IH. intros Hin. apply Hno. now right.
Qed.

Lemma find_present (id : string) (photos : list Photo.t) :
  In id (ids photos) ->
  exists found,
    find (fun p => Photo.id p =? id) photos = Some found /\ Photo.id found = id.
Proof.
  induction photos as [| p rest IH]; simpl; intros Hin; [contradiction |].
  destruct (String.eqb_spec (Photo.id p) id) as [Heq | Hne].
  - now exists p.
  - apply IH. destruct Hin as [Heq | Hin]; [contradiction | assumption].
Qed.

(** The mount effect on a readable store. *)
Lemma onMount_run (id : string) (d : PhotoDetails.State) (st : Store)
  (photos : list Photo.t) :
  photosOf st = Some photos ->
  run (PhotoDetails.onMount id) d st =
    (Done tt,
     mkWorld
       (match find (fun p => Photo.id p =? id) photos with
        | Some found =>
            PhotoDetails.mkState (Some found) (Photo.caption found)
              (PhotoDetails.rotation d) (PhotoDetails.hasEdits d)
              (Some (Photo.uri found))
        | None => d
        end)
       st []).
Proof.
  intros Hread. unfold run, PhotoDetails.onMount.
  rewrite readPhotos_ok with (photos := photos) by exact Hread.
  destruct (find _ photos); reflexivity.
Qed.

(** A [map] that patches the records of one id. *)
Lemma map_Patched (id : string) (patch : Photo.t -> Photo.t)
  (photos : list Photo.t) :
  (forall p, Photo.id (patch p) = Photo.id p) ->
  Patched id patch photos
    (map (fun p => if Photo.id p =? id then patch p else p) photos).
Proof.
  intros Hid. unfold Patched. induction photos as [| p rest IH]; simpl;
    constructor; [| assumption].
  destruct (String.eqb_spec (Photo.id p) id) as [Heq | Hne].
  - repeat split; auto. intros Hne. contradiction.
  - repeat split; auto. intros Heq. contradiction.
Qed.

(** ... and leaves a collection without that id as it is. *)
Lemma map_absent (id : string) (patch : Photo.t -> Photo.t)
  (photos : list Photo.t) :
  ~ In id (ids photos) ->
  map (fun p => if Photo.id p =? id then patch p else p) photos = photos.
Proof.
  induction photos as [| p rest IH]; simpl; intros Hno; [reflexivity |].
  destruct (String.eqb_spec (Photo.id p) id) as [Heq | _].
  - contradiction Hno. now left.
  - f_equal. apply IH. intros Hin. apply Hno. now right.
Qed.

(** [saveCaption] holding a photo, on a readable store. *)
Lemma saveCaption_run (d : PhotoDetails.State) (st : Store) (ph : Photo.t)
  (photos : list Photo.t) :
  PhotoDetails.photo d = Some ph ->
  photosOf st = Some photos ->
  run (PhotoDetails.saveCaption d) d st =
    if setItemRejects st photosKey
    then (Done tt, mkWorld d st [ConsoleError "Failed to save caption:"])
    else (Done tt,
          mkWorld d
            (mkStore
               (Json (PhotoDetails.captioned (Photo.id ph)
                        (PhotoDetails.caption d) photos))
               (albumsItem st) (getItemRejects st) (setItemRejects st))
            [SetItem photosKey; Alert "Saved"]).
Proof.
  intros Hph Hread. unfold run, PhotoDetails.saveCaption. rewrite Hph.
  unfold H.tryCatch.
  rewrite readPhotos_ok with (photos := photos) by exact Hread.
  hsimpl. now destruct (setItemRejects st photosKey).
Qed.

(** [toggleFavorite] holding a photo, on a readable store. *)
Lemma toggleFavorite_run (d : PhotoDetails.State) (st : Store) (ph : Photo.t)
  (photos : list Photo.t) :
  PhotoDetails.photo d = Some ph ->
  photosOf st = Some photos ->
  run (PhotoDetails.toggleFavorite d) d st =
    if setItemRejects st photosKey
    then (Done tt, mkWorld d st [ConsoleError "Failed to toggle favorite:"])
    else (Done tt,
          mkWorld
            (PhotoDetails.mkState (Some (Photo.toggled ph))
               (PhotoDetails.caption d) (PhotoDetails.rotation d)
               (PhotoDetails.hasEdits d) (PhotoDetails.editUri d))
            (mkStore
               (Json (PhotoDetails.favoriteToggled (Photo.id ph) photos))
               (albumsItem st) (getItemRejects st) (setItemRejects st))
            [SetItem photosKey]).
Proof.
  intros Hph Hread. unfold run, PhotoDetails.toggleFavorite. rewrite Hph.
  unfold H.tryCatch.
  rewrite readPhotos_ok with (photos := photos) by exact Hread.
  hsimpl. now destruct (setItemRejects st photosKey).
Qed.

(** [handleSave] of the crop screen, on a readable store, when the
    manipulation gives [u]. *)
Lemma handleSave_run (id u : string) (st : Store) (photos : list Photo.t) :
  photosOf st = Some photos ->
  run (Crop.handleSave id (Some u)) tt st =
    if setItemRejects st photosKey
    then (Done tt,
          mkWorld tt st [ConsoleError "❌ Cropping failed"; Alert "Error"])
    else (Done tt,
          mkWorld tt
            (mkStore (Json (PhotoDetails.reframed id u photos))
               (albumsItem st) (getItemRejects st) (setItemRejects st))
            [SetItem photosKey; Alert "Saved"; Router "replace" "/gallery"]).
Proof.
  intros Hread. unfold run, Crop.handleSave, H.tryCatch, manipulateAsync.
  unfold H.bind at 1. unfold H.ret at 1.
  rewrite readPhotos_ok with (photos := photos) by exact Hread.
  hsimpl. now destruct (setItemRejects st photosKey).
Qed.

(** [saveEdits] holding a photo and a non-empty edit uri, on a readable
    store, when the manipulation gives [u]: the same patch of the uri as
    [handleSave]. *)
Lemma saveEdits_run (d : PhotoDetails.State) (st : Store) (ph : Photo.t)
  (u : string) (photos : list Photo.t) :
  PhotoDetails.photo d = Some ph ->
  JS.truthy (PhotoDetails.editUri d) = true ->
  photosOf st = Some photos ->
  setItemRejects st photosKey = false ->
  run (PhotoDetails.saveEdits (Some u) d) d st =
    (Done tt,
     mkWorld
       (PhotoDetails.mkState (Some (Photo.withUri ph u))
          (PhotoDetails.caption d) 0 false (Some u))
       (mkStore (Json (PhotoDetails.reframed (Photo.id ph) u photos))
          (albumsItem st) (getItemRejects st) (setItemRejects st))
       [SetItem photosKey; Alert "Saved"]).
Proof.
  intros Hph Hedit Hread Hset. unfold run, PhotoDetails.saveEdits.
  rewrite Hph, Hedit. cbn [negb].
  unfold H.tryCatch, manipulateAsync. unfold H.bind at 1. unfold H.ret at 1.
  rewrite readPhotos_ok with (photos := photos) by exact Hread.
  hsimpl. rewrite Hset. reflexivity.
Qed.

(** The details screen opened on an id that the store does not hold keeps
    no photo. *)
Lemma onMount_absent (id c : string) (st : Store) (photos : list Photo.t) :
  photosOf st = Some photos -> ~ In id (ids photos) ->
  PhotoDetails.typed c
    (screen (snd (run (PhotoDetails.onMount id) PhotoDetails.initial st))) =
  PhotoDetails.mkState None c 0 false None.
Proof.
  intros Hread Hno. rewrite (onMount_run id _ st photos Hread).
  now rewrite (find_absent id photos Hno).
Qed.

(** C5, as it holds.  Let the photos collection be readable and hold no
    photo with the id [id].  The details screen opened on [id] holds no
    photo, and its [saveCaption] and [toggleFavorite] return at once: no
    write, no alert, no logged error -- no NotFound is reported.  A screen
    that still holds a photo with that id rewrites the collection with every
    record unchanged and, when the store accepts the write, reports success.
    In all these cases the photos collection read back from the store is
    what it was. *)
Theorem C5_update_of_absent_photo (st : Store) (photos : list Photo.t)
  (id c : string) :
  photosOf st = Some photos ->
  ~ In id (ids photos) ->
  (let d :=
     PhotoDetails.typed c
       (screen (snd (run (PhotoDetails.onMount id) PhotoDetails.initial st))) in
   PhotoDetails.photo d = None /\
   run (PhotoDetails.saveCaption d) d st = (Done tt, mkWorld d st []) /\
   run (PhotoDetails.toggleFavorite d) d st = (Done tt, mkWorld d st [])) /\
  (forall d ph,
     PhotoDetails.photo d = Some ph -> Photo.id ph = id ->
     let w1 := snd (run (PhotoDetails.saveCaption d) d st) in
     let w2 := snd (run (PhotoDetails.toggleFavorite d) d st) in
     photosOf (store w1) = Some photos /\
     photosOf (store w2) = Some photos /\
     (setItemRejects st photosKey = false ->
      trace w1 = [SetItem photosKey; Alert "Saved"] /\
      trace w2 = [SetItem photosKey])).
Proof.
  intros Hread Hno. split.
  - rewrite (onMount_absent id c st photos Hread Hno). repeat split.
  - intros d ph Hph Hid w1 w2. subst w1 w2.
    rewrite (saveCaption_run d st ph photos Hph Hread).
    rewrite (toggleFavorite_run d st ph photos Hph Hread).
    unfold PhotoDetails.captioned, PhotoDetails.favoriteToggled.
    rewrite Hid, !(map_absent id _ photos Hno).
    destruct (photosOf_Some st photos Hread) as [Hget _].
    destruct (setItemRejects st photosKey) eqn:Hset; cbn [snd store trace].
    + repeat split; try assumption; discriminate.
    + unfold photosOf, collection. cbn [getItemRejects photosItem].
      rewrite Hget. repeat split.
Qed.

(** C5 at the store of the scenarios, for the id [zzz] that it does not
    hold. *)
Lemma C5_witness :
  photosOf Scenario.store = Some [Scenario.photoA; Scenario.photoB] /\
  ~ In "zzz" (ids [Scenario.photoA; Scenario.photoB]) /\
  let d :=
    PhotoDetails.typed "hello"
      (screen (snd (run (PhotoDetails.onMount "zzz") PhotoDetails.initial
                      Scenario.store))) in
  run (PhotoDetails.saveCaption d) d Scenario.store =
    (Done tt, mkWorld d Scenario.store []).
Proof.
  assert (Hno : ~ In "zzz" (ids [Scenario.photoA; Scenario.photoB])).
  { simpl. intros [H | [H | []]]; discriminate. }
  split; [reflexivity |]. split; [exact Hno |].
  exact (proj1 (proj2 (proj1
    (C5_update_of_absent_photo Scenario.store
       [Scenario.photoA; Scenario.photoB] "zzz" "hello" eq_refl Hno)))).
Defined.

(** C5 as stated fails.  The store holds the photos [a] and [b].  On the id
    [zzz], [saveCaption] of the screen opened on [zzz] completes without
    reporting anything: no failure is surfaced to the caller.  And a screen
    that still holds a photo with the id [zzz] does write to the store and
    shows the alert "Saved". *)
Lemma C5_counterexample :
  let photos := [Scenario.photoA; Scenario.photoB] in
  let d :=
    PhotoDetails.typed "hello"
      (screen (snd (run (PhotoDetails.onMount "zzz") PhotoDetails.initial
                      Scenario.store))) in
  let stale :=
    PhotoDetails.mkState (Some (Photo.mk "zzz" "file:///zzz.jpg" "t3" "" None))
      "hello" 0 false (Some "file:///zzz.jpg") in
  photosOf Scenario.store = Some photos /\
  ~ In "zzz" (ids photos) /\
  run (PhotoDetails.saveCaption d) d Scenario.store =
    (Done tt, mkWorld d Scenario.store []) /\
  reportsFailure
    (trace (snd (run (PhotoDetails.saveCaption d) d Scenario.store))) = false /\
  trace (snd (run (PhotoDetails.saveCaption stale) stale Scenario.store)) =
    [SetItem photosKey; Alert "Saved"] /\
  wrote
    (trace (snd (run (PhotoDetails.saveCaption stale) stale Scenario.store))) =
    true.
Proof.
  cbv zeta. split; [reflexivity |]. split.
  - simpl. intros [H | [H | []]]; discriminate.
  - repeat split.
Qed.

(** C6.  Let the photos collection be readable and hold a photo with the id
    [id], and let the store accept the write.  The details screen opened on
    [id] holds a photo with that id, and the collection stored by its
    [saveCaption] (caption [c]), by its [toggleFavorite], and by the crop
    screen's [handleSave] (new uri [u]) is the previous collection, same
    length, same order, same ids, in which every record of another id is
    what it was, and a record [p] of the id [id] is replaced by the record
    with the fields of [p] except for: the caption, which is [c]; the
    favorite flag, which is true unless that of [p] was true, and then
    false; the uri, which is [u]. *)
Theorem C6_update_of_present_photo (st : Store) (photos : list Photo.t)
  (id c u : string) :
  photosOf st = Some photos ->
  In id (ids photos) ->
  setItemRejects st photosKey = false ->
  let d :=
    PhotoDetails.typed c
      (screen (snd (run (PhotoDetails.onMount id) PhotoDetails.initial st))) in
  (exists ph, PhotoDetails.photo d = Some ph /\ Photo.id ph = id) /\
  (exists after,
     photosItem (store (snd (run (PhotoDetails.saveCaption d) d st))) =
       Json after /\
     Patched id
       (fun p =>
          Photo.mk (Photo.id p) (Photo.uri p) (Photo.createdAt p) c
            (Photo.favorite p))
       photos after) /\
  (exists after,
     photosItem (store (snd (run (PhotoDetails.toggleFavorite d) d st))) =
       Json after /\
     Patched id
       (fun p =>
          Photo.mk (Photo.id p) (Photo.uri p) (Photo.createdAt p)
            (Photo.caption p)
            (Some (match Photo.favorite p with
                   | Some true => false
                   | _ => true
                   end)))
       photos after) /\
  (exists after,
     photosItem (store (snd (run (Crop.handleSave id (Some u)) tt st))) =
       Json after /\
     Patched id
       (fun p =>
          Photo.mk (Photo.id p) u (Photo.createdAt p) (Photo.caption p)
            (Photo.favorite p))
       photos after).
Proof.
  intros Hread Hin Hset d.
  destruct (find_present id photos Hin) as [found [Hfound Hid]].
  assert (Hd : PhotoDetails.photo d = Some found /\ PhotoDetails.caption d = c).
  { subst d. rewrite (onMount_run id _ st photos Hread), Hfound.
    split; reflexivity. }
  destruct Hd as [Hph Hc]. split; [now exists found |].
  rewrite (saveCaption_run d st found photos Hph Hread).
  rewrite (toggleFavorite_run d st found photos Hph Hread).
  rewrite (handleSave_run id u st photos Hread).
  rewrite Hset, Hc, Hid. cbn [snd store photosItem].
  repeat split; eexists; (split; [reflexivity |]);
    apply map_Patched; reflexivity.
Qed.

(** C6 at the store of the scenarios, for the photo [a]: the three updates
    store the photo [a] with the new caption, as a favorite, and with the
    new uri, before the photo [b] as it was. *)
Lemma C6_witness :
  let d :=
    PhotoDetails.typed "sunset"
      (screen (snd (run (PhotoDetails.onMount "a") PhotoDetails.initial
                      Scenario.store))) in
  photosOf Scenario.store = Some [Scenario.photoA; Scenario.photoB] /\
  In "a" (ids [Scenario.photoA; Scenario.photoB]) /\
  setItemRejects Scenario.store photosKey = false /\
  photosItem (store (snd (run (PhotoDetails.saveCaption d) d Scenario.store))) =
    Json [Photo.mk "a" "file:///a.jpg" "t1" "sunset" (Some false);
          Scenario.photoB] /\
  photosItem
    (store (snd (run (PhotoDetails.toggleFavorite d) d Scenario.store))) =
    Json [Photo.mk "a" "file:///a.jpg" "t1" "" (Some true); Scenario.photoB] /\
  exists after,
    photosItem
      (store (snd (run (Crop.handleSave "a" (Some "file:///crop.png")) tt
                     Scenario.store))) = Json after /\
    Patched "a"
      (fun p =>
         Photo.mk (Photo.id p) "file:///crop.png" (Photo.createdAt p)
           (Photo.caption p) (Photo.favorite p))
      [Scenario.photoA; Scenario.photoB] after.
Proof.
  cbv zeta.
  split; [reflexivity |]. split; [now left |]. split; [reflexivity |].
  split; [reflexivity |]. split; [reflexivity |].
  exact (proj2 (proj2 (proj2
    (C6_update_of_present_photo Scenario.store
       [Scenario.photoA; Scenario.photoB] "a" "sunset" "file:///crop.png"
       eq_refl (or_introl eq_refl) eq_refl)))).
Defined.

(* ================================================================== *)
(** ** Loading a collection *)
(* ================================================================== *)

Lemma albumsOf_Some (st : Store) (albums : list Album.t) :
  albumsOf st = Some albums ->
  getItemRejects st albumsKey = false /\
  ((albums = [] /\ (albumsItem st = Absent \/ albumsItem st = EmptyText)) \/
   albumsItem st = Json albums).
Proof.
  unfold albumsOf, collection.
  destruct (getItemRejects st albumsKey); [discriminate |].
  destruct (albumsItem st); intros H; try discriminate;
    injection H as <-; split; auto.
Qed.

(** [loadPhotos], case by case on what the load sees. *)
Lemma loadPhotos_run (g : Gallery.State) (st : Store) :
  run Gallery.loadPhotos g st =
    match photosOf st with
    | Some photos =>
        (Done tt,
         mkWorld
           (Gallery.mkState photos (Gallery.selectedIds g)
              (Gallery.selectionMode g) (Gallery.showActionModal g)
              (Gallery.showAlbumModal g) (Gallery.albumName g)
              (Gallery.albums g) (Gallery.isLoading g))
           st [])
    | None => (Done tt, mkWorld g st [ConsoleError "Failed to load photos:"])
    end.
Proof.
  unfold Gallery.loadPhotos, photosOf, collection. hsimpl.
  destruct (getItemRejects st photosKey); [reflexivity |].
  destruct (photosItem st); reflexivity.
Qed.

(** [loadAlbums], case by case on what the load sees. *)
Lemma loadAlbums_run (g : Gallery.State) (st : Store) :
  run Gallery.loadAlbums g st =
    match albumsOf st with
    | Some albums =>
        (Done tt,
         mkWorld
           (Gallery.mkState (Gallery.allPhotos g) (Gallery.selectedIds g)
              (Gallery.selectionMode g) (Gallery.showActionModal g)
              (Gallery.showAlbumModal g) (Gallery.albumName g)
              albums (Gallery.isLoading g))
           st [])
    | None => (Done tt, mkWorld g st [ConsoleError "Failed to load albums:"])
    end.
Proof.
  unfold Gallery.loadAlbums, albumsOf, collection. hsimpl.
  destruct (getItemRejects st albumsKey); [reflexivity |].
  destruct (albumsItem st); reflexivity.
Qed.

(** The load of the details screen is not guarded: on a store that cannot
    be read or parsed the exception leaves the handler, and the screen keeps
    what it held. *)
Lemma onMount_propagates (id : string) (d : PhotoDetails.State) (st : Store) :
  photosOf st = None ->
  exists e, run (PhotoDetails.onMount id) d st = (Thrown e, mkWorld d st []).
Proof.
  intros Hread. unfold run, PhotoDetails.onMount.
  now apply readPhotos_fails.
Qed.

(** C7, as it holds for the loads of the gallery.  [loadPhotos] and
    [loadAlbums] never throw and never write.  When the store cannot be read
    or the stored text cannot be parsed, the error is logged and the screen
    keeps the collection it showed before the load -- which is the empty
    collection on a screen that had not loaded anything yet.  When the load
    succeeds the screen shows the stored collection, and a store holding no
    value for the key yields the empty collection. *)
Theorem C7_failed_load_keeps_shown_collection (g : Gallery.State)
  (st : Store) :
  let rp := run Gallery.loadPhotos g st in
  let ra := run Gallery.loadAlbums g st in
  (fst rp = Done tt /\ store (snd rp) = st /\ wrote (trace (snd rp)) = false) /\
  (fst ra = Done tt /\ store (snd ra) = st /\ wrote (trace (snd ra)) = false) /\
  (photosOf st = None ->
   Gallery.allPhotos (screen (snd rp)) = Gallery.allPhotos g /\
   trace (snd rp) = [ConsoleError "Failed to load photos:"]) /\
  (albumsOf st = None ->
   Gallery.albums (screen (snd ra)) = Gallery.albums g /\
   trace (snd ra) = [ConsoleError "Failed to load albums:"]) /\
  (photosOf st = None ->
   Gallery.allPhotos
     (screen (snd (run Gallery.loadPhotos Gallery.initial st))) = []) /\
  (forall photos,
     photosOf st = Some photos ->
     Gallery.allPhotos (screen (snd rp)) = photos) /\
  (forall albums,
     albumsOf st = Some albums ->
     Gallery.albums (screen (snd ra)) = albums) /\
  (getItemRejects st photosKey = false -> photosItem st = Absent ->
   Gallery.allPhotos (screen (snd rp)) = []) /\
  (getItemRejects st albumsKey = false -> albumsItem st = Absent ->
   Gallery.albums (screen (snd ra)) = []).
Proof.
  intros rp ra. subst rp ra.
  rewrite (loadPhotos_run Gallery.initial st).
  rewrite (loadPhotos_run g st), (loadAlbums_run g st).
  split; [destruct (photosOf st); repeat split |].
  split; [destruct (albumsOf st); repeat split |].
  split; [intros ->; split; reflexivity |].
  split; [intros ->; split; reflexivity |].
  split; [intros ->; reflexivity |].
  split; [intros photos ->; reflexivity |].
  split; [intros albums ->; reflexivity |].
  unfold photosOf, albumsOf, collection.
  split; intros -> ->; reflexivity.
Qed.

(** C7 as stated fails.  The gallery on the store of the scenarios shows the
    photos [a] and [b].  When the store then cannot be read, or holds a text
    that does not parse, a new load leaves the gallery showing [a] and [b]:
    the result that the caller sees is not the empty collection. *)
Lemma C7_counterexample :
  let unreadable :=
    mkStore (photosItem Scenario.store) (albumsItem Scenario.store)
      (fun _ => true) Scenario.accepts in
  let garbled :=
    mkStore Malformed (albumsItem Scenario.store)
      Scenario.accepts Scenario.accepts in
  Gallery.allPhotos Scenario.gallery = [Scenario.photoA; Scenario.photoB] /\
  photosOf unreadable = None /\
  photosOf garbled = None /\
  Gallery.allPhotos
    (screen (snd (run Gallery.loadPhotos Scenario.gallery unreadable))) =
    [Scenario.photoA; Scenario.photoB] /\
  Gallery.allPhotos
    (screen (snd (run Gallery.loadPhotos Scenario.gallery garbled))) =
    [Scenario.photoA; Scenario.photoB] /\
  Gallery.allPhotos
    (screen (snd (run Gallery.loadPhotos Scenario.gallery garbled))) <> [].
Proof.
  cbv zeta. repeat split. discriminate.
Qed.

(* ================================================================== *)
(** ** Adding a photo and deleting it again *)
(* ================================================================== *)

(** [savePhoto] after a picture was taken, when the copy succeeds and the
    store can be read and written. *)
Lemma savePhoto_run (uuid dir now u : string) (st : Store)
  (photos : list Photo.t) :
  u <> "" ->
  photosOf st = Some photos ->
  setItemRejects st photosKey = false ->
  run (Camera.savePhoto uuid dir now true (Camera.mkState (Some u)))
      (Camera.mkState (Some u)) st =
    (Done tt,
     mkWorld (Camera.mkState None)
       (mkStore
          (Json (photos ++
                 [Photo.mk (uuid ++ ".jpg") (dir ++ uuid ++ ".jpg") now ""
                    (Some false)]))
          (albumsItem st) (getItemRejects st) (setItemRejects st))
       [FileCopy u (dir ++ uuid ++ ".jpg"); SetItem photosKey;
        Alert "✅ Saved"]).
Proof.
  intros Hu Hread Hset. unfold run, Camera.savePhoto.
  cbn [Camera.photoUri JS.truthy].
  apply String.eqb_neq in Hu. rewrite Hu. cbn [negb].
  unfold H.tryCatch, copyAsync. unfold H.bind at 1. unfold H.emit at 1.
  rewrite readPhotos_ok with (photos := photos) by exact Hread.
  hsimpl. rewrite Hset. reflexivity.
Qed.

Lemma find_pushed (new : Photo.t) (photos : list Photo.t) :
  ~ In (Photo.id new) (ids photos) ->
  find (fun p => Photo.id p =? Photo.id new) (photos ++ [new]) = Some new.
Proof.
  induction photos as [| p rest IH]; simpl; intros Hfresh.
  - now rewrite String.eqb_refl.
  - destruct (String.eqb_spec (Photo.id p) (Photo.id new)) as [Heq | _].
    + contradiction Hfresh. now left.
    + apply IH. intros Hin. apply Hfresh. now right.
Qed.

Lemma without_pushed (new : Photo.t) (photos : list Photo.t) :
  ~ In (Photo.id new) (ids photos) ->
  PhotoDetails.without (Photo.id new) (photos ++ [new]) = photos.
Proof.
  unfold PhotoDetails.without.
  induction photos as [| p rest IH]; simpl; intros Hfresh.
  - now rewrite String.eqb_refl.
  - destruct (String.eqb_spec (Photo.id p) (Photo.id new)) as [Heq | _].
    + contradiction Hfresh. now left.
    + simpl. f_equal. apply IH. intros Hin. apply Hfresh. now right.
Qed.

(** [deletePhoto] holding a photo, when the file deletion succeeds and the
    store can be read and written. *)
Lemma deletePhoto_run (d : PhotoDetails.State) (st : Store) (ph : Photo.t)
  (photos : list Photo.t) :
  PhotoDetails.photo d = Some ph ->
  photosOf st = Some photos ->
  setItemRejects st photosKey = false ->
  run (PhotoDetails.deletePhoto true d) d st =
    (Done tt,
     mkWorld d
       (mkStore (Json (PhotoDetails.without (Photo.id ph) photos))
          (albumsItem st) (getItemRejects st) (setItemRejects st))
       [FileDelete (Photo.uri ph); SetItem photosKey; Alert "Deleted";
        Router "back" ""]).
Proof.
  intros Hph Hread Hset. unfold run, PhotoDetails.deletePhoto. rewrite Hph.
  unfold H.tryCatch, deleteAsync. unfold H.bind at 1. unfold H.emit at 1.
  rewrite readPhotos_ok with (photos := photos) by exact Hread.
  hsimpl. rewrite Hset. reflexivity.
Qed.

(** C8.  Let the photos collection be readable and writable, and let the
    id of the new photo, [uuid ++ ".jpg"], be fresh.  After a picture was
    taken, [savePhoto] appends the new record: the collection grows by
    exactly one.  Opening the new photo in the details screen and deleting
    it there gives back the collection as it was before the photo was
    added. *)
Theorem C8_add_then_delete_round_trip (st : Store) (photos : list Photo.t)
  (uuid dir now u : string) :
  photosOf st = Some photos ->
  ~ In (uuid ++ ".jpg")%string (ids photos) ->
  u <> "" ->
  setItemRejects st photosKey = false ->
  let new :=
    Photo.mk (uuid ++ ".jpg") (dir ++ uuid ++ ".jpg") now "" (Some false) in
  let c := Camera.mkState (Some u) in
  let added := store (snd (run (Camera.savePhoto uuid dir now true c) c st)) in
  let d :=
    screen (snd (run (PhotoDetails.onMount (Photo.id new))
                   PhotoDetails.initial added)) in
  let deleted := store (snd (run (PhotoDetails.deletePhoto true d) d added)) in
  photosOf added = Some (photos ++ [new]) /\
  length (photos ++ [new]) = S (length photos) /\
  PhotoDetails.photo d = Some new /\
  photosOf deleted = Some photos.
Proof.
  intros Hread Hfresh Hu Hset new c added d deleted.
  destruct (photosOf_Some st photos Hread) as [Hget _].
  assert (Hadded : photosOf added = Some (photos ++ [new])).
  { subst added c. rewrite (savePhoto_run uuid dir now u st photos Hu Hread Hset).
    unfold photosOf, collection. cbn [snd store getItemRejects photosItem].
    now rewrite Hget. }
  assert (Hd : PhotoDetails.photo d = Some new).
  { subst d. rewrite (onMount_run _ _ added _ Hadded).
    now rewrite (find_pushed new photos Hfresh). }
  assert (Hset' : setItemRejects added photosKey = false).
  { subst added c. now rewrite (savePhoto_run uuid dir now u st photos Hu Hread Hset). }
  assert (Hget' : getItemRejects added photosKey = false).
  { subst added c. now rewrite (savePhoto_run uuid dir now u st photos Hu Hread Hset). }
  repeat split; try assumption.
  - rewrite length_app. simpl. lia.
  - subst deleted.
    rewrite (deletePhoto_run d added new (photos ++ [new]) Hd Hadded Hset').
    unfold photosOf, collection. cbn [snd store getItemRejects photosItem].
    rewrite Hget'. now rewrite (without_pushed new photos Hfresh).
Qed.

(** C8 on the store of the scenarios: a third photo is added and deleted. *)
Lemma C8_witness :
  let st := Scenario.store in
  let photos := [Scenario.photoA; Scenario.photoB] in
  let c := Camera.mkState (Some "file:///cache/shot.jpg") in
  let added :=
    store (snd (run (Camera.savePhoto "u-1" "file:///docs/" "t3" true c) c st)) in
  photosOf st = Some photos /\
  ~ In "u-1.jpg" (ids photos) /\
  "file:///cache/shot.jpg" <> "" /\
  setItemRejects st photosKey = false /\
  photosOf added =
    Some (photos ++
          [Photo.mk "u-1.jpg" "file:///docs/u-1.jpg" "t3" "" (Some false)]).
Proof.
  assert (Hfresh : ~ In "u-1.jpg"
                     (ids [Scenario.photoA; Scenario.photoB])).
  { simpl. intros [H | [H | []]]; discriminate. }
  assert (Hu : "file:///cache/shot.jpg" <> "") by discriminate.
  cbv zeta. split; [reflexivity |]. split; [exact Hfresh |].
  split; [exact Hu |]. split; [reflexivity |].
  exact (proj1
    (C8_add_then_delete_round_trip Scenario.store
       [Scenario.photoA; Scenario.photoB] "u-1" "file:///docs/" "t3"
       "file:///cache/shot.jpg" eq_refl Hfresh Hu eq_refl)).
Defined.

(* ================================================================== *)
(** ** [createOrUpdateAlbum] *)
(* ================================================================== *)

Lemma isEmpty_false (s : string) : s <> "" -> JS.isEmpty s = false.
Proof. intros H. unfold JS.isEmpty. now apply String.eqb_neq. Qed.

(** A blank name stops at the guard. *)
Lemma createOrUpdateAlbum_blank {engine : JS.StringMethods}
  (dateNow random isoNow : string)
  (g : Gallery.State) (st : Store) :
  JS.trim (Gallery.albumName g) = "" ->
  run (Gallery.createOrUpdateAlbum dateNow random isoNow g) g st =
    (Done tt, mkWorld g st [Alert "Album Name Required"]).
Proof.
  intros Hblank. unfold Gallery.createOrUpdateAlbum. rewrite Hblank.
  reflexivity.
Qed.

(** No album of that name: a new album is pushed. *)
Lemma createOrUpdateAlbum_creates {engine : JS.StringMethods}
  (dateNow random isoNow : string)
  (g : Gallery.State) (st : Store) :
  JS.trim (Gallery.albumName g) <> "" ->
  JS.findIndex (Gallery.sameName (JS.trim (Gallery.albumName g)))
    (Gallery.albums g) = None ->
  setItemRejects st albumsKey = false ->
  let updatedAlbums :=
    Gallery.albums g ++
    [Album.mk (dateNow ++ random) (JS.trim (Gallery.albumName g))
       (Some isoNow) (Gallery.selectedIds g)
       (hd_error (Gallery.selectedIds g))] in
  run (Gallery.createOrUpdateAlbum dateNow random isoNow g) g st =
    (Done tt,
     mkWorld
       (Gallery.mkState (Gallery.allPhotos g) [] false
          (Gallery.showActionModal g) false "" updatedAlbums false)
       (mkStore (photosItem st) (Json updatedAlbums)
          (getItemRejects st) (setItemRejects st))
       [SetItem albumsKey; Alert "Success"]).
Proof.
  intros Hname Hnone Hset. unfold Gallery.createOrUpdateAlbum.
  rewrite (isEmpty_false _ Hname), Hnone. hsimpl. rewrite Hset. reflexivity.
Qed.

(** An album of that name which already holds every selected photo: the
    alert, and nothing else. *)
Lemma createOrUpdateAlbum_no_change {engine : JS.StringMethods}
  (dateNow random isoNow : string)
  (g : Gallery.State) (st : Store) (i : nat) (existing : Album.t) :
  JS.trim (Gallery.albumName g) <> "" ->
  JS.findIndex (Gallery.sameName (JS.trim (Gallery.albumName g)))
    (Gallery.albums g) = Some i ->
  nth_error (Gallery.albums g) i = Some existing ->
  Gallery.newPhotoIds existing (Gallery.selectedIds g) = [] ->
  run (Gallery.createOrUpdateAlbum dateNow random isoNow g) g st =
    (Done tt,
     mkWorld
       (Gallery.mkState (Gallery.allPhotos g) (Gallery.selectedIds g)
          (Gallery.selectionMode g) (Gallery.showActionModal g)
          (Gallery.showAlbumModal g) (Gallery.albumName g) (Gallery.albums g)
          false)
       st [Alert "No New Photos"]).
Proof.
  intros Hname Hsome Hnth Hadded. unfold Gallery.createOrUpdateAlbum.
  rewrite (isEmpty_false _ Hname), Hsome, Hnth, Hadded. reflexivity.
Qed.

(** An album of that name and some new photos: the album is extended in
    place. *)
Lemma createOrUpdateAlbum_appends {engine : JS.StringMethods}
  (dateNow random isoNow : string)
  (g : Gallery.State) (st : Store) (i : nat) (existing : Album.t) :
  JS.trim (Gallery.albumName g) <> "" ->
  JS.findIndex (Gallery.sameName (JS.trim (Gallery.albumName g)))
    (Gallery.albums g) = Some i ->
  nth_error (Gallery.albums g) i = Some existing ->
  Gallery.newPhotoIds existing (Gallery.selectedIds g) <> [] ->
  setItemRejects st albumsKey = false ->
  let updatedAlbums :=
    JS.assign (Gallery.albums g) i
      (Gallery.extended existing
         (Gallery.newPhotoIds existing (Gallery.selectedIds g))) in
  run (Gallery.createOrUpdateAlbum dateNow random isoNow g) g st =
    (Done tt,
     mkWorld
       (Gallery.mkState (Gallery.allPhotos g) [] false
          (Gallery.showActionModal g) false "" updatedAlbums false)
       (mkStore (photosItem st) (Json updatedAlbums)
          (getItemRejects st) (setItemRejects st))
       [SetItem albumsKey; Alert "Success"]).
Proof.
  intros Hname Hsome Hnth Hadded Hset. unfold Gallery.createOrUpdateAlbum.
  rewrite (isEmpty_false _ Hname), Hsome, Hnth.
  destruct (Gallery.newPhotoIds existing (Gallery.selectedIds g)) as [| a l]
    eqn:E; [contradiction |].
  cbn [length Nat.eqb]. hsimpl. rewrite Hset. reflexivity.
Qed.

(** Photos that an album holds are not new to it. *)
Lemma newPhotoIds_held (album : Album.t) (selected : list string) :
  (forall id, In id selected -> In id (Album.photoIds album)) ->
  Gallery.newPhotoIds album selected = [].
Proof.
  unfold Gallery.newPhotoIds. intros Hheld.
  induction selected as [| id rest IH]; simpl; [reflexivity |].
  assert (Hid : JS.includes (Album.photoIds album) id = true).
  { apply includes_In, Hheld. now left. }
  rewrite Hid. simpl. apply IH. intros x Hx. apply Hheld. now right.
Qed.

(** After [extended], the album holds every selected photo. *)
Lemma extended_holds (existing : Album.t) (selected : list string)
  (id : string) :
  In id selected ->
  In id (Album.photoIds
           (Gallery.extended existing (Gallery.newPhotoIds existing selected))).
Proof.
  intros Hin. unfold Gallery.extended, Gallery.newPhotoIds. simpl.
  apply in_or_app.
  destruct (JS.includes (Album.photoIds existing) id) eqn:E.
  - left. now apply includes_In.
  - right. apply filter_In. split; [assumption |]. now rewrite E.
Qed.

Lemma sameName_refl {engine : JS.StringMethods} (n : string) (a : Album.t) :
  Album.name a = n -> Gallery.sameName n a = true.
Proof. intros <-. unfold Gallery.sameName. apply String.eqb_refl. Qed.

(** After a call with a name that passes the guard, on a store that accepts
    the write, the first album of that name holds every selected photo. *)
Lemma createOrUpdateAlbum_then_holds {engine : JS.StringMethods}
  (dateNow random isoNow : string)
  (g : Gallery.State) (st : Store) :
  JS.trim (Gallery.albumName g) <> "" ->
  setItemRejects st albumsKey = false ->
  let w := snd (run (Gallery.createOrUpdateAlbum dateNow random isoNow g) g st) in
  Gallery.allPhotos (screen w) = Gallery.allPhotos g /\
  exists i matched,
    JS.findIndex (Gallery.sameName (JS.trim (Gallery.albumName g)))
      (Gallery.albums (screen w)) = Some i /\
    nth_error (Gallery.albums (screen w)) i = Some matched /\
    forall id, In id (Gallery.selectedIds g) -> In id (Album.photoIds matched).
Proof.
  intros Hname Hset.
  destruct (JS.findIndex (Gallery.sameName (JS.trim (Gallery.albumName g)))
              (Gallery.albums g)) as [i |] eqn:Hfind.
  - destruct (findIndex_Some _ _ _ Hfind) as [existing [Hnth [Hsame _]]].
    destruct (Gallery.newPhotoIds existing (Gallery.selectedIds g))
      as [| a l] eqn:Hadded.
    + rewrite (createOrUpdateAlbum_no_change _ _ _ g st i existing
                 Hname Hfind Hnth Hadded).
      cbn [snd screen Gallery.allPhotos Gallery.albums].
      split; [reflexivity |]. exists i, existing. repeat split; auto.
      intros id Hin. unfold Gallery.newPhotoIds in Hadded.
      destruct (JS.includes (Album.photoIds existing) id) eqn:E.
      * now apply includes_In.
      * assert (Hkept : In id (filter
                  (fun x => negb (JS.includes (Album.photoIds existing) x))
                  (Gallery.selectedIds g))).
        { apply filter_In. split; [assumption |]. now rewrite E. }
        rewrite Hadded in Hkept. contradiction.
    + assert (Hnew : Gallery.newPhotoIds existing (Gallery.selectedIds g) <> [])
        by (rewrite Hadded; discriminate).
      rewrite (createOrUpdateAlbum_appends _ _ _ g st i existing
                 Hname Hfind Hnth Hnew Hset).
      cbn [snd screen Gallery.allPhotos Gallery.albums].
      split; [reflexivity |].
      exists i, (Gallery.extended existing
                   (Gallery.newPhotoIds existing (Gallery.selectedIds g))).
      split; [| split].
      * apply findIndex_assign; [assumption |].
        unfold Gallery.sameName in *. exact Hsame.
      * now apply assign_nth_same with (y := existing).
      * intros id. apply extended_holds.
  - rewrite (createOrUpdateAlbum_creates _ _ _ g st Hname Hfind Hset).
    cbn [snd screen Gallery.allPhotos Gallery.albums].
    split; [reflexivity |].
    eexists. eexists. split; [| split].
    + apply findIndex_push; [assumption |]. now apply sameName_refl.
    + rewrite nth_error_app2 by lia. rewrite Nat.sub_diag. reflexivity.
    + intros id Hin. exact Hin.
Qed.

(** The Create button of the album modal is disabled while the name is
    blank ([disabled={isLoading || !albumName.trim()}]): a name that reaches
    [createOrUpdateAlbum] passes its guard. *)
Lemma createEnabled_name {engine : JS.StringMethods} (g : Gallery.State) :
  Gallery.createDisabled g = false ->
  Gallery.isLoading g = false /\ JS.trim (Gallery.albumName g) <> "".
Proof.
  unfold Gallery.createDisabled, JS.isEmpty. intros Hen.
  apply orb_false_iff in Hen. destruct Hen as [Hload Hname].
  split; [exact Hload | now apply String.eqb_neq].
Qed.

(** C9.  Let the name not be blank, as is every name that the Create button
    lets through ([createEnabled_name]), and let the store accept the write
    of the first call.  After a first call with the name and the selection,
    a second call with the same name and the same selection only shows the
    alert "No New Photos": it writes nothing, the store and the albums of
    the screen are what the first call left (so the matched album's
    [photoIds] are unchanged), and that matched album holds every selected
    photo. *)
Theorem C9_second_call_changes_nothing {engine : JS.StringMethods}
  (g : Gallery.State) (st : Store)
  (name : string) (photoIds : list string)
  (dateNow1 random1 isoNow1 dateNow2 random2 isoNow2 : string) :
  JS.trim name <> "" ->
  setItemRejects st albumsKey = false ->
  let g0 := Gallery.withInput name photoIds g in
  let w1 :=
    snd (run (Gallery.createOrUpdateAlbum dateNow1 random1 isoNow1 g0) g0 st) in
  let g1 := Gallery.withInput name photoIds (screen w1) in
  let w2 :=
    snd (run (Gallery.createOrUpdateAlbum dateNow2 random2 isoNow2 g1) g1
           (store w1)) in
  (exists i matched,
     JS.findIndex (Gallery.sameName (JS.trim name))
       (Gallery.albums (screen w1)) = Some i /\
     nth_error (Gallery.albums (screen w1)) i = Some matched /\
     nth_error (Gallery.albums (screen w2)) i = Some matched /\
     forall id, In id photoIds -> In id (Album.photoIds matched)) /\
  trace w2 = [Alert "No New Photos"] /\
  wrote (trace w2) = false /\
  store w2 = store w1 /\
  Gallery.albums (screen w2) = Gallery.albums (screen w1) /\
  Gallery.allPhotos (screen w2) = Gallery.allPhotos (screen w1).
Proof.
  intros Hname Hset g0 w1 g1 w2.
  assert (Hname0 : JS.trim (Gallery.albumName g0) <> "") by exact Hname.
  destruct (createOrUpdateAlbum_then_holds dateNow1 random1 isoNow1 g0 st
              Hname0 Hset) as [_ [i [matched [Hfind [Hnth Hheld]]]]].
  fold w1 in Hfind, Hnth.
  assert (Hrun : run (Gallery.createOrUpdateAlbum dateNow2 random2 isoNow2 g1)
                   g1 (store w1) =
                 (Done tt,
                  mkWorld
                    (Gallery.mkState (Gallery.allPhotos (screen w1)) photoIds
                       (Gallery.selectionMode (screen w1))
                       (Gallery.showActionModal (screen w1))
                       (Gallery.showAlbumModal (screen w1)) name
                       (Gallery.albums (screen w1)) false)
                    (store w1) [Alert "No New Photos"])).
  { apply (createOrUpdateAlbum_no_change dateNow2 random2 isoNow2 g1
             (store w1) i matched); try assumption.
    apply newPhotoIds_held. exact Hheld. }
  subst w2. rewrite Hrun. cbn [snd screen store trace Gallery.albums
                                 Gallery.allPhotos].
  split; [| repeat split].
  exists i, matched. repeat split; assumption.
Qed.

(** C9 at the gallery of the scenarios: the photo [b] is added to a new
    album "Summer" twice. *)
Lemma C9_witness :
  let engine := AsciiText.methods in
  let g0 := Gallery.withInput "Summer" ["b"] Scenario.gallery in
  let w1 :=
    snd (run (Gallery.createOrUpdateAlbum "1700" "abc" "t5" g0) g0
           Scenario.store) in
  let g1 := Gallery.withInput "Summer" ["b"] (screen w1) in
  let w2 :=
    snd (run (Gallery.createOrUpdateAlbum "1701" "def" "t6" g1) g1
           (store w1)) in
  JS.trim "Summer" <> "" /\
  setItemRejects Scenario.store albumsKey = false /\
  trace w2 = [Alert "No New Photos"] /\
  store w2 = store w1.
Proof.
  intros engine.
  assert (Hname : JS.trim "Summer" <> "") by discriminate.
  cbv zeta. split; [exact Hname |]. split; [reflexivity |].
  pose proof (C9_second_call_changes_nothing Scenario.gallery Scenario.store
                "Summer" ["b"] "1700" "abc" "t5" "1701" "def" "t6"
                Hname eq_refl) as H.
  cbv zeta in H. destruct H as [_ [Htrace [_ [Hstore _]]]].
  split; [exact Htrace | exact Hstore].
Defined.

(** No handler writes the empty string as a cover: the gallery writes a
    selected photo id or nothing, and the albums screen writes no cover. *)
Lemma extended_cover_not_empty (existing : Album.t) (added : list string) :
  Album.coverPhotoId existing <> Some "" ->
  ~ In "" added ->
  Album.coverPhotoId (Gallery.extended existing added) <> Some "".
Proof.
  intros Hcover Hadded. unfold Gallery.extended, JS.or, JS.truthy.
  cbn [Album.coverPhotoId].
  destruct (Album.coverPhotoId existing) as [c |].
  - destruct (c =? "") eqn:Hc; cbn [negb]; [| exact Hcover].
    destruct added as [| first rest]; [discriminate |].
    cbn [hd_error]. intros Hfirst. injection Hfirst as ->.
    apply Hadded. now left.
  - destruct added as [| first rest]; [discriminate |].
    cbn [hd_error]. intros Hfirst. injection Hfirst as ->.
    apply Hadded. now left.
Qed.

Lemma withoutDeleted_cover_not_empty (deletedIds : list string)
  (a : Album.t) :
  Album.coverPhotoId a <> Some "" ->
  Album.coverPhotoId (Gallery.withoutDeleted deletedIds a) <> Some "".
Proof.
  intros Hcover. unfold Gallery.withoutDeleted. cbn [Album.coverPhotoId].
  destruct (JS.includes deletedIds _); [| exact Hcover].
  unfold JS.or, JS.truthy.
  destruct (find _ (Album.photoIds a)) as [c |]; [| discriminate].
  destruct (c =? "") eqn:Hc; cbn [negb]; [discriminate |].
  intros Hsome. injection Hsome as ->. discriminate.
Qed.

(** C10.  A cover is a photo id or is unset, never the empty string
    ([extended_cover_not_empty], [withoutDeleted_cover_not_empty]).  When
    [createOrUpdateAlbum] appends new photos to the existing album
    [existing] (the name passes the guard, [existing] is the first album of
    that name, some selected photo is new to it, and the store accepts the
    write), the album saved in its place holds the old photos followed by
    the new ones; its cover is the first newly appended photo when the old
    cover was unset, and the old cover when there was one. *)
Theorem C10_append_sets_cover_only_when_unset {engine : JS.StringMethods}
  (dateNow random isoNow : string) (g : Gallery.State) (st : Store)
  (i : nat) (existing : Album.t) :
  Album.coverPhotoId existing <> Some "" ->
  JS.trim (Gallery.albumName g) <> "" ->
  JS.findIndex (Gallery.sameName (JS.trim (Gallery.albumName g)))
    (Gallery.albums g) = Some i ->
  nth_error (Gallery.albums g) i = Some existing ->
  Gallery.newPhotoIds existing (Gallery.selectedIds g) <> [] ->
  setItemRejects st albumsKey = false ->
  let w := snd (run (Gallery.createOrUpdateAlbum dateNow random isoNow g) g st) in
  exists first rest updated,
    Gallery.newPhotoIds existing (Gallery.selectedIds g) = first :: rest /\
    albumsItem (store w) = Json (Gallery.albums (screen w)) /\
    nth_error (Gallery.albums (screen w)) i = Some updated /\
    Album.photoIds updated = Album.photoIds existing ++ first :: rest /\
    (Album.coverPhotoId existing = None ->
     Album.coverPhotoId updated = Some first) /\
    (forall c,
       Album.coverPhotoId existing = Some c ->
       Album.coverPhotoId updated = Some c).
Proof.
  intros Hcover Hname Hfind Hnth Hnew Hset.
  rewrite (createOrUpdateAlbum_appends _ _ _ g st i existing
             Hname Hfind Hnth Hnew Hset).
  cbn [snd screen store albumsItem Gallery.albums].
  destruct (Gallery.newPhotoIds existing (Gallery.selectedIds g))
    as [| first rest] eqn:Hadded; [contradiction |].
  exists first, rest, (Gallery.extended existing (first :: rest)).
  split; [reflexivity |]. split; [reflexivity |].
  split; [now apply assign_nth_same with (y := existing) |].
  split; [reflexivity |].
  unfold Gallery.extended, JS.or, JS.truthy.
  cbn [Album.coverPhotoId hd_error]. split.
  - intros ->. reflexivity.
  - intros c Hc. rewrite Hc in *.
    destruct (String.eqb_spec c "") as [-> | _]; [| reflexivity].
    now contradiction Hcover.
Qed.

(** C10 at the gallery of the scenarios: a third photo [c] is added to the
    album [Trip], whose cover is [a]. *)
Lemma C10_witness :
  let engine := AsciiText.methods in
  let g := Gallery.withInput "trip" ["a"; "c"] Scenario.gallery in
  let w :=
    snd (run (Gallery.createOrUpdateAlbum "1700" "abc" "t5" g) g
           Scenario.store) in
  Album.coverPhotoId Scenario.trip <> Some "" /\
  JS.trim (Gallery.albumName g) <> "" /\
  JS.findIndex (Gallery.sameName (JS.trim (Gallery.albumName g)))
    (Gallery.albums g) = Some 0 /\
  nth_error (Gallery.albums g) 0 = Some Scenario.trip /\
  Gallery.newPhotoIds Scenario.trip (Gallery.selectedIds g) <> [] /\
  setItemRejects Scenario.store albumsKey = false /\
  albumsItem (store w) =
    Json [Album.mk "1" "Trip" (Some "t0") ["a"; "b"; "c"] (Some "a")].
Proof.
  intros engine.
  assert (Hcover : Album.coverPhotoId Scenario.trip <> Some "")
    by discriminate.
  assert (Hname : JS.trim "trip" <> "") by discriminate.
  assert (Hnew : Gallery.newPhotoIds Scenario.trip ["a"; "c"] <> [])
    by discriminate.
  cbv zeta. split; [exact Hcover |]. split; [exact Hname |].
  split; [reflexivity |]. split; [reflexivity |]. split; [exact Hnew |].
  split; [reflexivity |].
  destruct (C10_append_sets_cover_only_when_unset "1700" "abc" "t5"
              (Gallery.withInput "trip" ["a"; "c"] Scenario.gallery)
              Scenario.store 0 Scenario.trip Hcover Hname eq_refl eq_refl Hnew
              eq_refl) as [first [rest [updated [_ [Hstore _]]]]].
  rewrite Hstore. reflexivity.
Defined.

(* ================================================================== *)
(** ** Album names: the gallery merges, the albums screen does not *)
(* ================================================================== *)

(** C3 (code defect, evaluated at the failing input).  On a store with the
    photos [a], [b] and no album, the albums screen creates the album "Trip"
    with the photo [a], then the album "trip" with the photo [b].  The store
    then holds two albums whose names are equal up to case, and neither
    holds both photos. *)
Theorem C3_albums_screen_creates_duplicate :
  let engine := AsciiText.methods in
  let st := mkStore (Json [Scenario.photoA; Scenario.photoB]) Absent
              Scenario.accepts Scenario.accepts in
  let s0 :=
    screen (snd (run AlbumsScreen.loadAlbumsAndPhotos AlbumsScreen.initial st)) in
  let s1 := AlbumsScreen.withInput "Trip" ["a"] s0 in
  let w1 := snd (run (AlbumsScreen.createOnPress "1700" s1) s1 st) in
  let s2 := AlbumsScreen.withInput "trip" ["b"] (screen w1) in
  let w2 := snd (run (AlbumsScreen.createOnPress "1701" s2) s2 (store w1)) in
  albumsItem (store w2) =
    Json [Album.mk "1700" "Trip" None ["a"] None;
          Album.mk "1701" "trip" None ["b"] None] /\
  AlbumsScreen.albums (screen w2) =
    [Album.mk "1700" "Trip" None ["a"] None;
     Album.mk "1701" "trip" None ["b"] None] /\
  JS.toLowerCase "Trip" = JS.toLowerCase "trip" /\
  length (filter (Gallery.sameName "trip") (AlbumsScreen.albums (screen w2))) = 2 /\
  trace w2 = [SetItem albumsKey; Alert "Success"].
Proof.
  cbv zeta. repeat split.
Qed.

Lemma assign_push {A : Type} (arr : list A) (x y : A) :
  JS.assign (arr ++ [x]) (length arr) y = arr ++ [y].
Proof.
  induction arr as [| a rest IH]; simpl; [reflexivity | now rewrite IH].
Qed.

Lemma filter_none {A : Type} (f : A -> bool) (l : list A) :
  (forall x, In x l -> f x = false) -> filter f l = [].
Proof.
  induction l as [| x rest IH]; simpl; intros H; [reflexivity |].
  rewrite (H x) by now left. apply IH. intros y Hy. apply H. now right.
Qed.

(** X8.  The gallery merges by name.  Let the albums hold none that
    [createOrUpdateAlbum] takes for the name [n1], and let [n2] be a name
    that it takes for the same: trimmed and lowered as the code does, the
    two are equal.  Both names pass the guard and the store accepts the
    writes.  A call with [n1] and the photos [ps1], then a call with [n2]
    and the photos [ps2], leave exactly one album of that name, appended to
    the albums, named as [n1] was typed, and it holds every photo of [ps1]
    and of [ps2]. *)
Lemma createOrUpdateAlbum_merges_by_name {engine : JS.StringMethods}
  (g : Gallery.State) (st : Store)
  (n1 n2 : string) (ps1 ps2 : list string)
  (dateNow1 random1 isoNow1 dateNow2 random2 isoNow2 : string) :
  JS.trim n1 <> "" ->
  JS.trim n2 <> "" ->
  JS.toLowerCase (JS.trim n2) = JS.toLowerCase (JS.trim n1) ->
  JS.findIndex (Gallery.sameName (JS.trim n1)) (Gallery.albums g) = None ->
  setItemRejects st albumsKey = false ->
  let g0 := Gallery.withInput n1 ps1 g in
  let w1 :=
    snd (run (Gallery.createOrUpdateAlbum dateNow1 random1 isoNow1 g0) g0 st) in
  let g1 := Gallery.withInput n2 ps2 (screen w1) in
  let w2 :=
    snd (run (Gallery.createOrUpdateAlbum dateNow2 random2 isoNow2 g1) g1
           (store w1)) in
  exists merged,
    Gallery.albums (screen w2) = Gallery.albums g ++ [merged] /\
    albumsItem (store w2) = Json (Gallery.albums g ++ [merged]) /\
    Album.name merged = JS.trim n1 /\
    (forall id, In id ps1 \/ In id ps2 -> In id (Album.photoIds merged)) /\
    filter (Gallery.sameName (JS.trim n1)) (Gallery.albums (screen w2)) =
      [merged] /\
    filter (Gallery.sameName (JS.trim n2)) (Gallery.albums (screen w2)) =
      [merged].
Proof.
  intros Hname Hname2 Hlow Hnone Hset g0 w1 g1 w2.
  assert (Hsame : forall n, Gallery.sameName (JS.trim n2) n =
                            Gallery.sameName (JS.trim n1) n).
  { intros n. unfold Gallery.sameName. now rewrite Hlow. }
  set (new := Album.mk (dateNow1 ++ random1) (JS.trim n1) (Some isoNow1) ps1
                (hd_error ps1)).
  assert (Hw1 : w1 =
    mkWorld
      (Gallery.mkState (Gallery.allPhotos g) [] false
         (Gallery.showActionModal g) false "" (Gallery.albums g ++ [new]) false)
      (mkStore (photosItem st) (Json (Gallery.albums g ++ [new]))
         (getItemRejects st) (setItemRejects st))
      [SetItem albumsKey; Alert "Success"]).
  { subst w1. now rewrite (createOrUpdateAlbum_creates _ _ _ g0 st Hname Hnone Hset). }
  assert (Hfind : JS.findIndex (Gallery.sameName (JS.trim (Gallery.albumName g1)))
                    (Gallery.albums g1) = Some (length (Gallery.albums g))).
  { subst g1. rewrite Hw1. cbn [screen Gallery.withInput Gallery.albumName
                                  Gallery.albums].
    rewrite (findIndex_push _ (Gallery.albums g) new).
    - reflexivity.
    - rewrite <- Hnone. clear -Hsame. induction (Gallery.albums g) as [| a l IH];
        simpl; [reflexivity |]. now rewrite Hsame, IH.
    - rewrite Hsame. now apply sameName_refl. }
  assert (Hnth : nth_error (Gallery.albums g1) (length (Gallery.albums g)) =
                 Some new).
  { subst g1. rewrite Hw1. cbn [screen Gallery.withInput Gallery.albums].
    rewrite nth_error_app2 by lia. now rewrite Nat.sub_diag. }
  assert (Hset1 : setItemRejects (store w1) albumsKey = false)
    by (now rewrite Hw1).
  assert (Hothers : filter (Gallery.sameName (JS.trim n1)) (Gallery.albums g) = []).
  { apply filter_none. now apply findIndex_None. }
  destruct (Gallery.newPhotoIds new ps2) as [| a l] eqn:Hadded.
  - exists new. subst w2.
    rewrite (createOrUpdateAlbum_no_change _ _ _ g1 (store w1) _ new
               Hname2 Hfind Hnth Hadded).
    cbn [snd screen store Gallery.albums].
    subst g1. rewrite Hw1. cbn [screen store Gallery.withInput Gallery.albums
                                  albumsItem].
    repeat split.
    + intros id [Hin | Hin]; [exact Hin |].
      destruct (JS.includes ps1 id) eqn:E; [now apply includes_In |].
      assert (Hkept : In id (Gallery.newPhotoIds new ps2)).
      { apply filter_In. split; [assumption |]. simpl. now rewrite E. }
      rewrite Hadded in Hkept. contradiction.
    + rewrite filter_app, Hothers. simpl.
      now rewrite (sameName_refl (JS.trim n1) new eq_refl).
    + rewrite (filter_ext _ _ Hsame), filter_app, Hothers. simpl.
      now rewrite (sameName_refl (JS.trim n1) new eq_refl).
  - assert (Hnew : Gallery.newPhotoIds new (Gallery.selectedIds g1) <> []).
    { change (Gallery.newPhotoIds new ps2 <> []). rewrite Hadded. discriminate. }
    exists (Gallery.extended new (Gallery.newPhotoIds new ps2)). subst w2.
    rewrite (createOrUpdateAlbum_appends _ _ _ g1 (store w1) _ new
               Hname2 Hfind Hnth Hnew Hset1).
    cbn [snd screen store Gallery.albums albumsItem].
    subst g1. rewrite Hw1. cbn [screen store Gallery.withInput Gallery.albums
                                  Gallery.selectedIds].
    rewrite assign_push. repeat split.
    + intros id [Hin | Hin].
      * simpl. apply in_or_app. now left.
      * now apply extended_holds.
    + rewrite filter_app, Hothers. simpl.
      now rewrite (sameName_refl (JS.trim n1)
                     (Gallery.extended new (Gallery.newPhotoIds new ps2))
                     eq_refl).
    + rewrite (filter_ext _ _ Hsame), filter_app, Hothers. simpl.
      now rewrite (sameName_refl (JS.trim n1)
                     (Gallery.extended new (Gallery.newPhotoIds new ps2))
                     eq_refl).
Qed.

(* ================================================================== *)
(** ** Further properties of [deleteSelected] *)
(* ================================================================== *)

(** As [hsimpl], with the [set...] calls and cells of every handler. *)
Ltac hstep :=
  hsimpl;
  cbv beta iota zeta delta
    [AlbumsScreen.setNewAlbumName AlbumsScreen.setSelectedPhotoIds
     PhotoDetails.getInfoAsync];
  hsimpl.

(** X1.  When the store accepts both writes, [deleteSelected] leaves the
    store and the screen with the same two collections; the photos kept are
    exactly the photos whose id was not selected, in their order; no album
    kept lists a selected id, and every album kept holds a photo; the
    selection is cleared and selection mode is left. *)
Theorem X1_deleteSelected_removes_selected (g : Gallery.State) (st : Store) :
  setItemRejects st photosKey = false ->
  setItemRejects st albumsKey = false ->
  let w := snd (run (Gallery.deleteSelected g) g st) in
  photosItem (store w) = Json (Gallery.allPhotos (screen w)) /\
  albumsItem (store w) = Json (Gallery.albums (screen w)) /\
  (forall p,
     In p (Gallery.allPhotos (screen w)) <->
     In p (Gallery.allPhotos g) /\ ~ In (Photo.id p) (Gallery.selectedIds g)) /\
  Subsequence (Gallery.allPhotos (screen w)) (Gallery.allPhotos g) /\
  (forall a i,
     In a (Gallery.albums (screen w)) -> In i (Gallery.selectedIds g) ->
     ~ In i (Album.photoIds a)) /\
  (forall a, In a (Gallery.albums (screen w)) -> Album.photoIds a <> []) /\
  Gallery.selectedIds (screen w) = [] /\
  Gallery.selectionMode (screen w) = false.
Proof.
  intros Hp Ha w. subst w. rewrite (deleteSelected_run g st Hp Ha).
  cbn [snd screen store photosItem albumsItem Gallery.allPhotos Gallery.albums
       Gallery.selectedIds Gallery.selectionMode].
  split; [reflexivity |]. split; [reflexivity |]. split; [| split; [| split; [| split]]].
  - intros p. unfold Gallery.remaining. rewrite filter_In, negb_true_iff.
    now rewrite includes_false.
  - apply filter_Subsequence.
  - intros a i. apply cascade_no_reference.
  - intros a Hin. unfold Gallery.cascade in Hin. apply filter_In in Hin.
    destruct Hin as [_ Hlen]. destruct (Album.photoIds a); [discriminate |].
    discriminate.
  - split; reflexivity.
Qed.

(** X1 on the gallery of the scenarios, with the photo [a] selected. *)
Lemma X1_witness :
  let g := Gallery.withInput "" ["a"] Scenario.gallery in
  let w := snd (run (Gallery.deleteSelected g) g Scenario.store) in
  setItemRejects Scenario.store photosKey = false /\
  setItemRejects Scenario.store albumsKey = false /\
  photosItem (store w) = Json (Gallery.allPhotos (screen w)) /\
  Gallery.allPhotos (screen w) = [Scenario.photoB].
Proof.
  cbv zeta. split; [reflexivity |]. split; [reflexivity |].
  split; [| reflexivity].
  exact (proj1 (X1_deleteSelected_removes_selected
                  (Gallery.withInput "" ["a"] Scenario.gallery) Scenario.store
                  eq_refl eq_refl)).
Defined.

(** X2.  [deleteSelected] writes the photos before the albums.  When the
    store accepts the first write and rejects the second, the stored photos
    have lost the selected ones while the stored albums are untouched (they
    may still list the deleted ids), the screen keeps showing all its photos,
    its albums and its selection, and the handler ends with the Error
    alert. *)
Theorem X2_deleteSelected_torn_write (g : Gallery.State) (st : Store) :
  setItemRejects st photosKey = false ->
  setItemRejects st albumsKey = true ->
  let w := snd (run (Gallery.deleteSelected g) g st) in
  fst (run (Gallery.deleteSelected g) g st) = Done tt /\
  photosItem (store w) =
    Json (Gallery.remaining (Gallery.selectedIds g) (Gallery.allPhotos g)) /\
  albumsItem (store w) = albumsItem st /\
  Gallery.allPhotos (screen w) = Gallery.allPhotos g /\
  Gallery.albums (screen w) = Gallery.albums g /\
  Gallery.selectedIds (screen w) = Gallery.selectedIds g /\
  Gallery.showActionModal (screen w) = false /\
  trace w = [SetItem photosKey; ConsoleError "Failed to save albums:";
             ConsoleError "Delete error:"; Alert "Error"].
Proof.
  intros Hp Ha w. subst w. unfold Gallery.deleteSelected. hsimpl.
  rewrite Hp. hsimpl. rewrite Ha. hsimpl. repeat split.
Qed.

(** X2 on the scenarios, with a store that rejects writes of the albums. *)
Lemma X2_witness :
  let st :=
    mkStore (photosItem Scenario.store) (albumsItem Scenario.store)
      Scenario.accepts
      (fun k => match k with albumsKey => true | photosKey => false end) in
  let g := Gallery.withInput "" ["a"] Scenario.gallery in
  let w := snd (run (Gallery.deleteSelected g) g st) in
  setItemRejects st photosKey = false /\
  setItemRejects st albumsKey = true /\
  photosItem (store w) = Json [Scenario.photoB] /\
  albumsItem (store w) = Json [Scenario.trip] /\
  Gallery.allPhotos (screen w) = [Scenario.photoA; Scenario.photoB].
Proof.
  cbv zeta. split; [reflexivity |]. split; [reflexivity |].
  pose proof (X2_deleteSelected_torn_write
                (Gallery.withInput "" ["a"] Scenario.gallery)
                (mkStore (photosItem Scenario.store) (albumsItem Scenario.store)
                   Scenario.accepts
                   (fun k => match k with albumsKey => true | photosKey => false end))
                eq_refl eq_refl) as H.
  cbv zeta in H. destruct H as [_ [Hphotos [Halbums [Hshown _]]]].
  split; [exact Hphotos |]. split; [exact Halbums | exact Hshown].
Defined.

Lemma filter_twice {A : Type} (f : A -> bool) (l : list A) :
  filter f (filter f l) = filter f l.
Proof.
  induction l as [| x rest IH]; simpl; [reflexivity |].
  destruct (f x) eqn:E; simpl; [rewrite E; now f_equal | assumption].
Qed.

(** The [map] callback of [deleteSelected] changes nothing the second
    time. *)
Lemma withoutDeleted_twice (deletedIds : list string) (a : Album.t) :
  Gallery.withoutDeleted deletedIds (Gallery.withoutDeleted deletedIds a) =
  Gallery.withoutDeleted deletedIds a.
Proof.
  unfold Gallery.withoutDeleted.
  cbn [Album.id Album.name Album.createdAt Album.photoIds Album.coverPhotoId].
  rewrite filter_twice, !find_hd_filter, filter_twice. f_equal.
  set (kept := filter (fun id => negb (JS.includes deletedIds id))
                 (Album.photoIds a)).
  destruct (JS.includes deletedIds
              match JS.or (Album.coverPhotoId a) (Some "") with
              | Some c => c
              | None => ""
              end) eqn:Hcover.
  - match goal with
    | |- (if ?b then _ else _) = _ => destruct b
    end; reflexivity.
  - now rewrite Hcover.
Qed.

Lemma cascade_twice (deletedIds : list string) (albums : list Album.t) :
  Gallery.cascade deletedIds (Gallery.cascade deletedIds albums) =
  Gallery.cascade deletedIds albums.
Proof.
  unfold Gallery.cascade. induction albums as [| a rest IH]; [reflexivity |].
  cbn [map filter].
  destruct (0 <? length (Album.photoIds (Gallery.withoutDeleted deletedIds a)))%nat
    eqn:Hkeep; [| assumption].
  cbn [map filter]. rewrite withoutDeleted_twice, Hkeep. now f_equal.
Qed.

(** X3.  Deleting is idempotent in the gallery.  When the store accepts the
    writes, running [deleteSelected] again on the resulting screen with the
    same selection writes the same two collections once more: the stored
    and the shown photos and albums are those of the first run. *)
Theorem X3_deleteSelected_idempotent (g : Gallery.State) (st : Store) :
  setItemRejects st photosKey = false ->
  setItemRejects st albumsKey = false ->
  let w1 := snd (run (Gallery.deleteSelected g) g st) in
  let g1 :=
    Gallery.withInput (Gallery.albumName (screen w1)) (Gallery.selectedIds g)
      (screen w1) in
  let w2 := snd (run (Gallery.deleteSelected g1) g1 (store w1)) in
  store w2 = store w1 /\
  Gallery.allPhotos (screen w2) = Gallery.allPhotos (screen w1) /\
  Gallery.albums (screen w2) = Gallery.albums (screen w1).
Proof.
  intros Hp Ha w1 g1 w2. subst w2 g1 w1.
  rewrite (deleteSelected_run g st Hp Ha).
  cbn [snd screen store Gallery.withInput Gallery.albumName Gallery.allPhotos
       Gallery.albums Gallery.selectedIds Gallery.selectionMode
       Gallery.showActionModal Gallery.showAlbumModal Gallery.isLoading].
  rewrite deleteSelected_run by assumption.
  cbn [snd screen store Gallery.withInput Gallery.allPhotos Gallery.albums
       Gallery.selectedIds getItemRejects setItemRejects].
  unfold Gallery.remaining. rewrite filter_twice, cascade_twice.
  repeat split.
Qed.

(** X3 on the gallery of the scenarios: the photo [a] is deleted twice. *)
Lemma X3_witness :
  let g := Gallery.withInput "" ["a"] Scenario.gallery in
  let w1 := snd (run (Gallery.deleteSelected g) g Scenario.store) in
  let g1 := Gallery.withInput "" ["a"] (screen w1) in
  let w2 := snd (run (Gallery.deleteSelected g1) g1 (store w1)) in
  setItemRejects Scenario.store photosKey = false /\
  setItemRejects Scenario.store albumsKey = false /\
  store w2 = store w1.
Proof.
  cbv zeta. split; [reflexivity |]. split; [reflexivity |].
  exact (proj1 (X3_deleteSelected_idempotent
                  (Gallery.withInput "" ["a"] Scenario.gallery) Scenario.store
                  eq_refl eq_refl)).
Defined.

(** What the screen shows after [deleteSelected], whatever the store does:
    either the delete went through, or the photos, the albums and the
    selection are those of the render. *)
Lemma deleteSelected_screen_cases (g : Gallery.State) (st : Store) :
  let s := screen (snd (run (Gallery.deleteSelected g) g st)) in
  (Gallery.allPhotos s =
     Gallery.remaining (Gallery.selectedIds g) (Gallery.allPhotos g) /\
   Gallery.albums s = Gallery.cascade (Gallery.selectedIds g) (Gallery.albums g) /\
   Gallery.selectedIds s = [] /\
   Gallery.selectionMode s = false) \/
  (Gallery.allPhotos s = Gallery.allPhotos g /\
   Gallery.albums s = Gallery.albums g /\
   Gallery.selectedIds s = Gallery.selectedIds g /\
   Gallery.selectionMode s = Gallery.selectionMode g).
Proof.
  unfold Gallery.deleteSelected. hsimpl.
  destruct (setItemRejects st photosKey); hsimpl; [right; repeat split |].
  destruct (setItemRejects st albumsKey); hsimpl;
    [right | left]; repeat split.
Qed.

(* ================================================================== *)
(** ** Further properties of [createOrUpdateAlbum] *)
(* ================================================================== *)

(** The write is rejected: nothing is stored, the input stays. *)
Lemma createOrUpdateAlbum_rejected {engine : JS.StringMethods}
  (dateNow random isoNow : string)
  (g : Gallery.State) (st : Store) :
  JS.trim (Gallery.albumName g) <> "" ->
  setItemRejects st albumsKey = true ->
  (JS.findIndex (Gallery.sameName (JS.trim (Gallery.albumName g)))
     (Gallery.albums g) = None \/
   exists i existing,
     JS.findIndex (Gallery.sameName (JS.trim (Gallery.albumName g)))
       (Gallery.albums g) = Some i /\
     nth_error (Gallery.albums g) i = Some existing /\
     Gallery.newPhotoIds existing (Gallery.selectedIds g) <> []) ->
  run (Gallery.createOrUpdateAlbum dateNow random isoNow g) g st =
    (Done tt,
     mkWorld
       (Gallery.mkState (Gallery.allPhotos g) (Gallery.selectedIds g)
          (Gallery.selectionMode g) (Gallery.showActionModal g)
          (Gallery.showAlbumModal g) (Gallery.albumName g) (Gallery.albums g)
          false)
       st
       [ConsoleError "Failed to save albums:";
        ConsoleError "Create album error:"; Alert "Error"]).
Proof.
  intros Hname Hset Hcase. unfold Gallery.createOrUpdateAlbum.
  rewrite (isEmpty_false _ Hname).
  destruct Hcase as [Hnone | [i [existing [Hsome [Hnth Hnew]]]]].
  - rewrite Hnone. hsimpl. rewrite Hset. reflexivity.
  - rewrite Hsome, Hnth.
    destruct (Gallery.newPhotoIds existing (Gallery.selectedIds g))
      as [| a l]; [contradiction |].
    cbn [length Nat.eqb]. hsimpl. rewrite Hset. reflexivity.
Qed.

(** What [createOrUpdateAlbum] leaves, whatever the input and the store:
    the photos are never touched; the albums are those of the render, or
    those with a new album pushed, or those with the first album of that
    name extended in place. *)
Lemma createOrUpdateAlbum_cases {engine : JS.StringMethods}
  (dateNow random isoNow : string)
  (g : Gallery.State) (st : Store) :
  let w := snd (run (Gallery.createOrUpdateAlbum dateNow random isoNow g) g st) in
  let n := JS.trim (Gallery.albumName g) in
  Gallery.allPhotos (screen w) = Gallery.allPhotos g /\
  photosItem (store w) = photosItem st /\
  ((Gallery.albums (screen w) = Gallery.albums g /\
    albumsItem (store w) = albumsItem st /\
    Gallery.selectedIds (screen w) = Gallery.selectedIds g /\
    Gallery.selectionMode (screen w) = Gallery.selectionMode g) \/
   (n <> "" /\
    JS.findIndex (Gallery.sameName n) (Gallery.albums g) = None /\
    Gallery.albums (screen w) =
      Gallery.albums g ++
      [Album.mk (dateNow ++ random) n (Some isoNow) (Gallery.selectedIds g)
         (hd_error (Gallery.selectedIds g))] /\
    albumsItem (store w) = Json (Gallery.albums (screen w)) /\
    Gallery.selectedIds (screen w) = [] /\
    Gallery.selectionMode (screen w) = false) \/
   (exists i existing,
      n <> "" /\
      JS.findIndex (Gallery.sameName n) (Gallery.albums g) = Some i /\
      nth_error (Gallery.albums g) i = Some existing /\
      Gallery.newPhotoIds existing (Gallery.selectedIds g) <> [] /\
      Gallery.albums (screen w) =
        JS.assign (Gallery.albums g) i
          (Gallery.extended existing
             (Gallery.newPhotoIds existing (Gallery.selectedIds g))) /\
      albumsItem (store w) = Json (Gallery.albums (screen w)) /\
      Gallery.selectedIds (screen w) = [] /\
      Gallery.selectionMode (screen w) = false)).
Proof.
  intros w n. subst w n.
  destruct (string_dec (JS.trim (Gallery.albumName g)) "") as [Hblank | Hname].
  { rewrite (createOrUpdateAlbum_blank _ _ _ g st Hblank).
    repeat split. left. repeat split. }
  destruct (JS.findIndex (Gallery.sameName (JS.trim (Gallery.albumName g)))
              (Gallery.albums g)) as [i |] eqn:Hfind.
  - destruct (findIndex_Some _ _ _ Hfind) as [existing [Hnth _]].
    destruct (Gallery.newPhotoIds existing (Gallery.selectedIds g))
      as [| a l] eqn:Hadded.
    + rewrite (createOrUpdateAlbum_no_change _ _ _ g st i existing
                 Hname Hfind Hnth Hadded).
      repeat split. left. repeat split.
    + assert (Hnew : Gallery.newPhotoIds existing (Gallery.selectedIds g) <> [])
        by (rewrite Hadded; discriminate).
      destruct (setItemRejects st albumsKey) eqn:Hset.
      * rewrite (createOrUpdateAlbum_rejected _ _ _ g st Hname Hset).
        -- repeat split. left. repeat split.
        -- right. exists i, existing. repeat split; assumption.
      * rewrite (createOrUpdateAlbum_appends _ _ _ g st i existing
                   Hname Hfind Hnth Hnew Hset).
        repeat split. right. right. exists i, existing.
        rewrite Hadded. repeat split; try assumption. discriminate.
  - destruct (setItemRejects st albumsKey) eqn:Hset.
    + rewrite (createOrUpdateAlbum_rejected _ _ _ g st Hname Hset);
        [| now left].
      repeat split. left. repeat split.
    + rewrite (createOrUpdateAlbum_creates _ _ _ g st Hname Hfind Hset).
      repeat split. right. left. repeat split. assumption.
Qed.

(* ================================================================== *)
(** ** What the gallery keeps true of the albums *)
(* ================================================================== *)

Lemma hd_error_In {A : Type} (l : list A) (x : A) :
  hd_error l = Some x -> In x l.
Proof. destruct l; simpl; [discriminate |]. intros H. injection H as <-. now left. Qed.

Lemma In_assign {A : Type} (arr : list A) (i : nat) (x a : A) :
  In a (JS.assign arr i x) -> In a arr \/ a = x.
Proof.
  revert i. induction arr as [| y rest IH]; intros [| i]; simpl; auto.
  - intros [<- | Hin]; auto.
  - intros [<- | Hin]; auto. destruct (IH i Hin); auto.
Qed.

Lemma Forall_assign {A : Type} (P : A -> Prop) (arr : list A) (i : nat)
  (x : A) :
  Forall P arr -> P x -> Forall P (JS.assign arr i x).
Proof.
  intros Hall Hx. apply Forall_forall. intros a Hin.
  destruct (In_assign arr i x a Hin) as [Hold | ->]; [| assumption].
  now apply (proj1 (Forall_forall P arr) Hall).
Qed.

Lemma map_assign_same {A B : Type} (f : A -> B) (arr : list A) (i : nat)
  (x y : A) :
  nth_error arr i = Some y -> f x = f y ->
  map f (JS.assign arr i x) = map f arr.
Proof.
  revert i. induction arr as [| a rest IH]; intros [| i]; simpl;
    try discriminate.
  - intros H Hf. injection H as ->. now rewrite Hf.
  - intros H Hf. f_equal. now apply IH.
Qed.

Lemma NoDup_push {A : Type} (l : list A) (x : A) :
  NoDup l -> ~ In x l -> NoDup (l ++ [x]).
Proof.
  intros Hl Hx. apply NoDup_app; [assumption | |].
  - constructor; [intros [] | constructor].
  - intros a Ha [<- | []]. contradiction.
Qed.

Lemma kept_keys_NoDup {Item Key : Type} (key : Item -> Key)
  (keep : Item -> bool) :
  forall items : list Item,
    NoDup (map key items) -> NoDup (map key (filter keep items)).
Proof.
  intros items. induction items as [| a rest IH]; cbn [map filter].
  - intros _. constructor.
  - intros Hkeys. apply NoDup_cons_iff in Hkeys.
    destruct Hkeys as [Hfresh Hrest]. specialize (IH Hrest).
    destruct (keep a); cbn [map]; [| exact IH].
    apply NoDup_cons; [| exact IH].
    intros Hin. apply Hfresh. apply in_map_iff in Hin.
    destruct Hin as [b [Hb Hin]]. apply filter_In in Hin.
    rewrite <- Hb. apply in_map. tauto.
Qed.

(** The [map] callback of [deleteSelected] keeps a listed cover listed. *)
Lemma withoutDeleted_CoverListed (deletedIds : list string) (a : Album.t) :
  CoverListed a -> CoverListed (Gallery.withoutDeleted deletedIds a).
Proof.
  unfold CoverListed, Gallery.withoutDeleted.
  cbn [Album.photoIds Album.coverPhotoId]. intros Hlisted c.
  destruct (JS.includes deletedIds
              match JS.or (Album.coverPhotoId a) (Some "") with
              | Some c0 => c0
              | None => ""
              end) eqn:Hcover.
  - rewrite find_hd_filter. unfold JS.or.
    destruct (JS.truthy (hd_error _)) eqn:Htruthy; [| discriminate].
    apply hd_error_In.
  - intros Hc. apply filter_In. split; [now apply Hlisted |].
    rewrite Hc in Hcover. unfold JS.or, JS.truthy in Hcover.
    destruct (c =? "") eqn:Hempty; cbn [negb] in Hcover.
    + apply String.eqb_eq in Hempty. subst c. now rewrite Hcover.
    + now rewrite Hcover.
Qed.

(** X4.  [deleteSelected] keeps the albums of the screen well formed,
    whatever the store does with the writes: if every id listed by an album
    was the id of a shown photo, it still is; covers that were listed in
    their album still are; albums without repeated photos stay so; and
    album names that were unique up to case stay unique. *)
Theorem X4_deleteSelected_keeps_albums_well_formed
  {engine : JS.StringMethods} (g : Gallery.State) (st : Store) :
  let s := screen (snd (run (Gallery.deleteSelected g) g st)) in
  (Integrity (Gallery.allPhotos g) (Gallery.albums g) ->
   Integrity (Gallery.allPhotos s) (Gallery.albums s)) /\
  (Forall CoverListed (Gallery.albums g) ->
   Forall CoverListed (Gallery.albums s)) /\
  (Forall (fun a => NoDup (Album.photoIds a)) (Gallery.albums g) ->
   Forall (fun a => NoDup (Album.photoIds a)) (Gallery.albums s)) /\
  (UniqueNames (Gallery.albums g) -> UniqueNames (Gallery.albums s)).
Proof.
  intros s. subst s.
  destruct (deleteSelected_screen_cases g st)
    as [[Hp [Ha _]] | [Hp [Ha _]]]; rewrite Hp, Ha;
    [| repeat split; trivial].
  split; [| split; [| split]].
  - unfold Integrity, Gallery.cascade. intros Hint a i Ha' Hi.
    apply filter_In in Ha'. destruct Ha' as [Ha' _].
    apply in_map_iff in Ha'. destruct Ha' as [a0 [<- Ha0]].
    cbn [Gallery.withoutDeleted Album.photoIds] in Hi.
    apply filter_In in Hi. destruct Hi as [Hi Hkept].
    specialize (Hint a0 i Ha0 Hi). unfold ids in *.
    apply in_map_iff in Hint. destruct Hint as [p [Hid Hin]].
    apply in_map_iff. exists p. split; [assumption |].
    apply filter_In. split; [assumption |]. now rewrite Hid.
  - unfold Gallery.cascade. intros Hall. apply Forall_forall. intros a Hin.
    apply filter_In in Hin. destruct Hin as [Hin _].
    apply in_map_iff in Hin. destruct Hin as [a0 [<- Ha0]].
    apply withoutDeleted_CoverListed.
    now apply (proj1 (Forall_forall _ _) Hall).
  - unfold Gallery.cascade. intros Hall. apply Forall_forall. intros a Hin.
    apply filter_In in Hin. destruct Hin as [Hin _].
    apply in_map_iff in Hin. destruct Hin as [a0 [<- Ha0]].
    cbn [Gallery.withoutDeleted Album.photoIds]. apply NoDup_filter.
    now apply (proj1 (Forall_forall _ _) Hall).
  - unfold UniqueNames, Gallery.cascade. intros Huniq.
    apply kept_keys_NoDup. now rewrite map_map.
Qed.

(** X4 on the gallery of the scenarios, with the photo [a] selected. *)
Lemma X4_witness :
  let g := Gallery.withInput "" ["a"] Scenario.gallery in
  let s := screen (snd (run (Gallery.deleteSelected g) g Scenario.store)) in
  Forall CoverListed (Gallery.albums g) /\
  Forall CoverListed (Gallery.albums s).
Proof.
  assert (H : Forall CoverListed
                (Gallery.albums (Gallery.withInput "" ["a"] Scenario.gallery))).
  { constructor; [| constructor]. intros c Hc. injection Hc as <-. now left. }
  cbv zeta. split; [exact H |].
  exact (proj1 (proj2 (X4_deleteSelected_keeps_albums_well_formed
                         (engine := AsciiText.methods)
                         (Gallery.withInput "" ["a"] Scenario.gallery)
                         Scenario.store)) H).
Defined.

Lemma extended_CoverListed (existing : Album.t) (added : list string) :
  CoverListed existing -> CoverListed (Gallery.extended existing added).
Proof.
  unfold CoverListed, Gallery.extended.
  cbn [Album.photoIds Album.coverPhotoId]. intros Hlisted c. unfold JS.or.
  destruct (JS.truthy (Album.coverPhotoId existing)).
  - intros Hc. apply in_or_app. left. now apply Hlisted.
  - intros Hc. apply in_or_app. right. now apply hd_error_In.
Qed.

Lemma extended_NoDup (existing : Album.t) (selected : list string) :
  NoDup (Album.photoIds existing) -> NoDup selected ->
  NoDup (Album.photoIds
           (Gallery.extended existing (Gallery.newPhotoIds existing selected))).
Proof.
  intros Hold Hsel. unfold Gallery.extended, Gallery.newPhotoIds.
  cbn [Album.photoIds]. apply NoDup_app.
  - assumption.
  - now apply NoDup_filter.
  - intros i Hi Hnew. apply filter_In in Hnew. destruct Hnew as [_ Hnew].
    apply negb_true_iff, includes_false in Hnew. contradiction.
Qed.

(** X5.  [createOrUpdateAlbum] keeps the albums of the screen well formed,
    whatever the name, the selection and the store: album names that were
    unique up to case stay unique; covers that were listed in their album
    still are, and a new album's cover is listed; albums without repeated
    photos stay so when the selection has no repeated id; and if every
    listed id was the id of a shown photo, it still is when the selected ids
    are ids of shown photos. *)
Theorem X5_createOrUpdateAlbum_keeps_albums_well_formed
  {engine : JS.StringMethods} (dateNow random isoNow : string)
  (g : Gallery.State) (st : Store) :
  let s :=
    screen (snd (run (Gallery.createOrUpdateAlbum dateNow random isoNow g)
                   g st)) in
  (UniqueNames (Gallery.albums g) -> UniqueNames (Gallery.albums s)) /\
  (Forall CoverListed (Gallery.albums g) ->
   Forall CoverListed (Gallery.albums s)) /\
  (Forall (fun a => NoDup (Album.photoIds a)) (Gallery.albums g) ->
   NoDup (Gallery.selectedIds g) ->
   Forall (fun a => NoDup (Album.photoIds a)) (Gallery.albums s)) /\
  (Integrity (Gallery.allPhotos g) (Gallery.albums g) ->
   (forall i, In i (Gallery.selectedIds g) ->
              In i (ids (Gallery.allPhotos g))) ->
   Integrity (Gallery.allPhotos s) (Gallery.albums s)).
Proof.
  intros s. subst s.
  destruct (createOrUpdateAlbum_cases dateNow random isoNow g st)
    as [Hphotos [_ Hcases]].
  rewrite Hphotos.
  destruct Hcases
    as [[Ha _]
       | [[Hname [Hnone [Ha _]]]
         | [i [existing [Hname [Hsome [Hnth [Hnew [Ha _]]]]]]]]];
    rewrite Ha.
  - repeat split; trivial.
  - split; [| split; [| split]].
    + unfold UniqueNames. intros Huniq. rewrite map_app. cbn [map Album.name].
      apply NoDup_push; [assumption |].
      intros Hin. apply in_map_iff in Hin. destruct Hin as [a [Hlow Hin]].
      pose proof (proj1 (findIndex_None _ _) Hnone a Hin) as Hdiff.
      unfold Gallery.sameName in Hdiff. rewrite Hlow in Hdiff.
      now rewrite String.eqb_refl in Hdiff.
    + intros Hall. apply Forall_app. split; [assumption |].
      constructor; [| constructor]. intros c. cbn. apply hd_error_In.
    + intros Hall Hsel. apply Forall_app. split; [assumption |].
      constructor; [assumption | constructor].
    + unfold Integrity. intros Hint Hshown a i Hin Hi.
      apply in_app_or in Hin. destruct Hin as [Hin | [<- | []]].
      * now apply (Hint a).
      * now apply Hshown.
  - pose proof (nth_error_In _ _ Hnth) as Hex.
    split; [| split; [| split]].
    + unfold UniqueNames. intros Huniq.
      now rewrite (map_assign_same
                     (fun a => JS.toLowerCase (Album.name a)) _ i
                     (Gallery.extended existing
                        (Gallery.newPhotoIds existing (Gallery.selectedIds g)))
                     existing Hnth eq_refl).
    + intros Hall. apply Forall_assign; [assumption |].
      apply extended_CoverListed.
      now apply (proj1 (Forall_forall _ _) Hall).
    + intros Hall Hsel. apply Forall_assign; [assumption |].
      apply extended_NoDup; [| assumption].
      now apply (proj1 (Forall_forall _ _) Hall).
    + unfold Integrity. intros Hint Hshown a j Hin Hj.
      destruct (In_assign _ _ _ _ Hin) as [Hold | ->].
      * now apply (Hint a).
      * cbn [Gallery.extended Album.photoIds] in Hj.
        apply in_app_or in Hj. destruct Hj as [Hj | Hj].
        -- now apply (Hint existing).
        -- apply Hshown. unfold Gallery.newPhotoIds in Hj.
           now apply filter_In in Hj.
Qed.

(** X5 on the gallery of the scenarios: the album "TRIP" is asked for while
    "Trip" exists. *)
Lemma X5_witness :
  let engine := AsciiText.methods in
  let g := Gallery.withInput " TRIP " ["b"; "a"] Scenario.gallery in
  let s :=
    screen (snd (run (Gallery.createOrUpdateAlbum "1700" "abc" "t5" g) g
                   Scenario.store)) in
  UniqueNames (Gallery.albums g) /\ UniqueNames (Gallery.albums s).
Proof.
  intros engine.
  assert (H : UniqueNames
                (Gallery.albums
                   (Gallery.withInput " TRIP " ["b"; "a"] Scenario.gallery))).
  { constructor; [intros [] | constructor]. }
  cbv zeta. split; [exact H |].
  exact (proj1 (X5_createOrUpdateAlbum_keeps_albums_well_formed
                  "1700" "abc" "t5"
                  (Gallery.withInput " TRIP " ["b"; "a"] Scenario.gallery)
                  Scenario.store) H).
Defined.

(** [createOrUpdateAlbum] never lets an exception out. *)
Lemma createOrUpdateAlbum_done {engine : JS.StringMethods}
  (dateNow random isoNow : string)
  (g : Gallery.State) (st : Store) :
  fst (run (Gallery.createOrUpdateAlbum dateNow random isoNow g) g st) =
  Done tt.
Proof.
  destruct (string_dec (JS.trim (Gallery.albumName g)) "") as [Hblank | Hname].
  { now rewrite (createOrUpdateAlbum_blank _ _ _ g st Hblank). }
  destruct (JS.findIndex (Gallery.sameName (JS.trim (Gallery.albumName g)))
              (Gallery.albums g)) as [i |] eqn:Hfind.
  - destruct (findIndex_Some _ _ _ Hfind) as [existing [Hnth _]].
    destruct (Gallery.newPhotoIds existing (Gallery.selectedIds g))
      as [| a l] eqn:Hadded.
    + now rewrite (createOrUpdateAlbum_no_change _ _ _ g st i existing
                     Hname Hfind Hnth Hadded).
    + assert (Hnew : Gallery.newPhotoIds existing (Gallery.selectedIds g) <> [])
        by (rewrite Hadded; discriminate).
      destruct (setItemRejects st albumsKey) eqn:Hset.
      * rewrite (createOrUpdateAlbum_rejected _ _ _ g st Hname Hset);
          [reflexivity |].
        right. exists i, existing. repeat split; assumption.
      * now rewrite (createOrUpdateAlbum_appends _ _ _ g st i existing
                       Hname Hfind Hnth Hnew Hset).
  - destruct (setItemRejects st albumsKey) eqn:Hset.
    + now rewrite (createOrUpdateAlbum_rejected _ _ _ g st Hname Hset);
        [| left].
    + now rewrite (createOrUpdateAlbum_creates _ _ _ g st Hname Hfind Hset).
Qed.

(** X6.  Whatever the name, the selection and the store,
    [createOrUpdateAlbum] lets no exception out and never touches the
    photos, stored or shown; every album other than the first album of that
    name keeps its place and its content; and the albums grow by at most
    one. *)
Theorem X6_createOrUpdateAlbum_frame {engine : JS.StringMethods}
  (dateNow random isoNow : string)
  (g : Gallery.State) (st : Store) :
  let r := run (Gallery.createOrUpdateAlbum dateNow random isoNow g) g st in
  let after := Gallery.albums (screen (snd r)) in
  fst r = Done tt /\
  Gallery.allPhotos (screen (snd r)) = Gallery.allPhotos g /\
  photosItem (store (snd r)) = photosItem st /\
  (forall j a,
     nth_error (Gallery.albums g) j = Some a ->
     JS.findIndex (Gallery.sameName (JS.trim (Gallery.albumName g)))
       (Gallery.albums g) <> Some j ->
     nth_error after j = Some a) /\
  length (Gallery.albums g) <= length after <= S (length (Gallery.albums g)).
Proof.
  intros r after. subst r after.
  split; [apply createOrUpdateAlbum_done |].
  destruct (createOrUpdateAlbum_cases dateNow random isoNow g st)
    as [Hphotos [Hstored Hcases]].
  split; [assumption |]. split; [assumption |].
  destruct Hcases
    as [[Ha _]
       | [[_ [_ [Ha _]]]
         | [i [existing [_ [Hsome [_ [_ [Ha _]]]]]]]]];
    rewrite Ha.
  - split; [auto | lia].
  - split.
    + intros j a Hnth _. rewrite nth_error_app1; [assumption |].
      apply nth_error_Some. now rewrite Hnth.
    + rewrite length_app. simpl. lia.
  - split.
    + intros j a Hnth Hother. rewrite assign_nth_other; [assumption |].
      intros <-. now apply Hother.
    + rewrite assign_length. lia.
Qed.

(** X7.  When the name passes the guard, there is something to save (no
    album of that name yet, or a selected photo that is new to it) and the
    store rejects the write, [createOrUpdateAlbum] stores nothing and leaves
    the screen ready for another try: the albums, the selection, the typed
    name and the open modal are kept, the loading flag is off, and the Error
    alert is shown. *)
Theorem X7_createOrUpdateAlbum_rejected_write {engine : JS.StringMethods}
  (dateNow random isoNow : string) (g : Gallery.State) (st : Store) :
  JS.trim (Gallery.albumName g) <> "" ->
  setItemRejects st albumsKey = true ->
  (forall i existing,
     JS.findIndex (Gallery.sameName (JS.trim (Gallery.albumName g)))
       (Gallery.albums g) = Some i ->
     nth_error (Gallery.albums g) i = Some existing ->
     Gallery.newPhotoIds existing (Gallery.selectedIds g) <> []) ->
  let w := snd (run (Gallery.createOrUpdateAlbum dateNow random isoNow g) g st) in
  store w = st /\
  Gallery.albums (screen w) = Gallery.albums g /\
  Gallery.selectedIds (screen w) = Gallery.selectedIds g /\
  Gallery.selectionMode (screen w) = Gallery.selectionMode g /\
  Gallery.albumName (screen w) = Gallery.albumName g /\
  Gallery.showAlbumModal (screen w) = Gallery.showAlbumModal g /\
  Gallery.isLoading (screen w) = false /\
  trace w = [ConsoleError "Failed to save albums:";
             ConsoleError "Create album error:"; Alert "Error"].
Proof.
  intros Hname Hset Hnew w. subst w.
  rewrite (createOrUpdateAlbum_rejected _ _ _ g st Hname Hset).
  - repeat split.
  - destruct (JS.findIndex (Gallery.sameName (JS.trim (Gallery.albumName g)))
                (Gallery.albums g)) as [i |] eqn:Hfind; [| now left].
    destruct (findIndex_Some _ _ _ Hfind) as [existing [Hnth _]].
    right. exists i, existing. repeat split; try assumption.
    now apply (Hnew i existing).
Qed.

(** X7 on the scenarios: a new album "Summer" on a store that rejects the
    write. *)
Lemma X7_witness :
  let engine := AsciiText.methods in
  let st :=
    mkStore (photosItem Scenario.store) (albumsItem Scenario.store)
      Scenario.accepts (fun _ => true) in
  let g := Gallery.withInput "Summer" ["b"] Scenario.gallery in
  let w := snd (run (Gallery.createOrUpdateAlbum "1700" "abc" "t5" g) g st) in
  JS.trim (Gallery.albumName g) <> "" /\
  setItemRejects st albumsKey = true /\
  store w = st /\
  Gallery.selectedIds (screen w) = ["b"].
Proof.
  intros engine.
  assert (Hname : JS.trim "Summer" <> "") by discriminate.
  cbv zeta. split; [exact Hname |]. split; [reflexivity |].
  pose proof (X7_createOrUpdateAlbum_rejected_write "1700" "abc" "t5"
                (Gallery.withInput "Summer" ["b"] Scenario.gallery)
                (mkStore (photosItem Scenario.store)
                   (albumsItem Scenario.store) Scenario.accepts
                   (fun _ => true))
                Hname eq_refl) as H.
  cbv zeta in H.
  assert (Hnew : forall i existing,
             JS.findIndex (Gallery.sameName (JS.trim "Summer"))
               [Scenario.trip] = Some i ->
             nth_error [Scenario.trip] i = Some existing ->
             Gallery.newPhotoIds existing ["b"] <> []).
  { intros i existing Hfind. discriminate Hfind. }
  destruct (H Hnew) as [Hstore [_ [Hsel _]]].
  split; [exact Hstore | exact Hsel].
Defined.

(** X8 on a gallery without albums: "Beach" with the photo [a], then
    " BEACH" with the photo [b]. *)
Lemma X8_witness :
  let engine := AsciiText.methods in
  let g :=
    Gallery.mkState [Scenario.photoA; Scenario.photoB] [] false false false ""
      [] false in
  let st := mkStore (Json [Scenario.photoA; Scenario.photoB]) Absent
              Scenario.accepts Scenario.accepts in
  let g0 := Gallery.withInput "Beach" ["a"] g in
  let w1 := snd (run (Gallery.createOrUpdateAlbum "1700" "abc" "t5" g0) g0 st) in
  let g1 := Gallery.withInput " BEACH" ["b"] (screen w1) in
  let w2 :=
    snd (run (Gallery.createOrUpdateAlbum "1701" "def" "t6" g1) g1 (store w1)) in
  JS.trim "Beach" <> "" /\
  JS.trim " BEACH" <> "" /\
  JS.toLowerCase (JS.trim " BEACH") = JS.toLowerCase (JS.trim "Beach") /\
  JS.findIndex (Gallery.sameName (JS.trim "Beach")) (Gallery.albums g) = None /\
  setItemRejects st albumsKey = false /\
  exists merged,
    albumsItem (store w2) = Json (Gallery.albums g ++ [merged]) /\
    Album.name merged = "Beach" /\
    (forall id, In id ["a"] \/ In id ["b"] -> In id (Album.photoIds merged)).
Proof.
  intros engine.
  assert (Hname : JS.trim "Beach" <> "") by discriminate.
  assert (Hname2 : JS.trim " BEACH" <> "") by discriminate.
  cbv zeta. split; [exact Hname |]. split; [exact Hname2 |].
  split; [reflexivity |]. split; [reflexivity |]. split; [reflexivity |].
  destruct (createOrUpdateAlbum_merges_by_name
              (Gallery.mkState [Scenario.photoA; Scenario.photoB] [] false
                 false false "" [] false)
              (mkStore (Json [Scenario.photoA; Scenario.photoB]) Absent
                 Scenario.accepts Scenario.accepts)
              "Beach" " BEACH" ["a"] ["b"] "1700" "abc" "t5" "1701" "def" "t6"
              Hname Hname2 eq_refl eq_refl eq_refl)
    as [merged [_ [Hstore [Hmerged [Hholds _]]]]].
  exists merged. split; [exact Hstore |]. split; [exact Hmerged | exact Hholds].
Defined.

(* ================================================================== *)
(** ** The selection of the gallery *)
(* ================================================================== *)

(** [toggleSelect] keeps a selection without repeated ids so. *)
Lemma toggleSelect_NoDup (id : string) (g : Gallery.State) (st : Store) :
  NoDup (Gallery.selectedIds g) ->
  NoDup (Gallery.selectedIds (screen (snd (run (Gallery.toggleSelect id) g st)))).
Proof.
  intros Hnodup. unfold Gallery.toggleSelect. hsimpl.
  destruct (JS.includes (Gallery.selectedIds g) id) eqn:Hsel.
  - now apply NoDup_filter.
  - apply NoDup_push; [assumption |]. now apply includes_false.
Qed.

(** X10.  [toggleSelect(id)] flips whether [id] is selected and leaves every
    other id as it was; a selection without repeated ids stays so; and
    toggling an id that was not selected twice gives back the selection as
    it was. *)
Theorem X10_toggleSelect_flips (id : string) (g : Gallery.State) (st : Store) :
  let s := screen (snd (run (Gallery.toggleSelect id) g st)) in
  let s2 := screen (snd (run (Gallery.toggleSelect id) s st)) in
  JS.includes (Gallery.selectedIds s) id =
    negb (JS.includes (Gallery.selectedIds g) id) /\
  (forall other,
     other <> id ->
     (In other (Gallery.selectedIds s) <-> In other (Gallery.selectedIds g))) /\
  (NoDup (Gallery.selectedIds g) -> NoDup (Gallery.selectedIds s)) /\
  (~ In id (Gallery.selectedIds g) ->
   Gallery.selectedIds s2 = Gallery.selectedIds g) /\
  store (snd (run (Gallery.toggleSelect id) g st)) = st.
Proof.
  intros s s2. subst s2 s. unfold Gallery.toggleSelect. hsimpl.
  destruct (JS.includes (Gallery.selectedIds g) id) eqn:Hsel.
  - split; [| split; [| split; [| split]]].
    + cbn [negb]. apply includes_false. intros Hin. apply filter_In in Hin.
      destruct Hin as [_ Hin]. now rewrite String.eqb_refl in Hin.
    + intros other Hother. rewrite filter_In, negb_true_iff, String.eqb_neq.
      tauto.
    + apply NoDup_filter.
    + intros Hno. apply includes_In in Hsel. contradiction.
    + reflexivity.
  - apply includes_false in Hsel.
    assert (Hnow : JS.includes (Gallery.selectedIds g ++ [id]) id = true).
    { apply includes_In, in_or_app. right. now left. }
    split; [| split; [| split; [| split]]].
    + exact Hnow.
    + intros other Hother. rewrite in_app_iff. simpl.
      split; [intros [H | [H | []]]; [assumption | now subst] | tauto].
    + intros Hnodup. now apply NoDup_push.
    + intros _. rewrite Hnow, filter_app. simpl. rewrite String.eqb_refl.
      simpl. rewrite app_nil_r.
      clear Hnow. induction (Gallery.selectedIds g) as [| x rest IH];
        [reflexivity |].
      simpl. destruct (String.eqb_spec x id) as [-> | _].
      * contradiction Hsel. now left.
      * simpl. f_equal. apply IH. intros Hin. apply Hsel. now right.
    + reflexivity.
Qed.

(** After the focus callback nothing is selected. *)
Lemma onFocus_selection (g : Gallery.State) (st : Store) :
  let s := screen (snd (run Gallery.onFocus g st)) in
  Gallery.selectedIds s = [] /\ Gallery.selectionMode s = false /\
  Gallery.isLoading s = Gallery.isLoading g.
Proof.
  unfold Gallery.onFocus, Gallery.loadPhotos, Gallery.loadAlbums. hsimpl.
  destruct (getItemRejects st photosKey); hsimpl;
    [| destruct (photosItem st); hsimpl];
    (destruct (getItemRejects st albumsKey); hsimpl;
     [| destruct (albumsItem st); hsimpl]);
    repeat split.
Qed.

(** After [createOrUpdateAlbum] the loading flag is off, if it was off. *)
Lemma createOrUpdateAlbum_isLoading {engine : JS.StringMethods}
  (dateNow random isoNow : string)
  (g : Gallery.State) (st : Store) :
  Gallery.isLoading g = false ->
  Gallery.isLoading
    (screen (snd (run (Gallery.createOrUpdateAlbum dateNow random isoNow g)
                    g st))) = false.
Proof.
  intros Hoff.
  destruct (string_dec (JS.trim (Gallery.albumName g)) "") as [Hblank | Hname].
  { now rewrite (createOrUpdateAlbum_blank _ _ _ g st Hblank). }
  destruct (JS.findIndex (Gallery.sameName (JS.trim (Gallery.albumName g)))
              (Gallery.albums g)) as [i |] eqn:Hfind.
  - destruct (findIndex_Some _ _ _ Hfind) as [existing [Hnth _]].
    destruct (Gallery.newPhotoIds existing (Gallery.selectedIds g))
      as [| a l] eqn:Hadded.
    + now rewrite (createOrUpdateAlbum_no_change _ _ _ g st i existing
                     Hname Hfind Hnth Hadded).
    + assert (Hnew : Gallery.newPhotoIds existing (Gallery.selectedIds g) <> [])
        by (rewrite Hadded; discriminate).
      destruct (setItemRejects st albumsKey) eqn:Hset.
      * rewrite (createOrUpdateAlbum_rejected _ _ _ g st Hname Hset);
          [reflexivity |].
        right. exists i, existing. repeat split; assumption.
      * now rewrite (createOrUpdateAlbum_appends _ _ _ g st i existing
                       Hname Hfind Hnth Hnew Hset).
  - destruct (setItemRejects st albumsKey) eqn:Hset.
    + now rewrite (createOrUpdateAlbum_rejected _ _ _ g st Hname Hset);
        [| left].
    + now rewrite (createOrUpdateAlbum_creates _ _ _ g st Hname Hfind Hset).
Qed.

(** X9.  Every handler of the gallery, once it has run to its end, leaves
    the selection and the loading flag in order.  Let an event be handled
    in a render [g] whose selection has no repeated id, where nothing is
    selected outside selection mode, and whose loading flag is off.
    Whatever the event, and whatever the store holds and does with the
    reads and writes, the render that the handler leaves when it has
    finished is such a render again: in particular [createOrUpdateAlbum],
    which turns the flag on while it saves, has turned it off at its end on
    every path.  The renders shown while a handler is still waiting for the
    store are not what this is about. *)
Theorem X9_handlers_leave_selection_in_order {engine : JS.StringMethods}
  (e : Gallery.Event) (g : Gallery.State) (st : Store) :
  NoDup (Gallery.selectedIds g) ->
  (Gallery.selectionMode g = false -> Gallery.selectedIds g = []) ->
  Gallery.isLoading g = false ->
  let s := screen (snd (run (Gallery.handle e g) g st)) in
  NoDup (Gallery.selectedIds s) /\
  (Gallery.selectionMode s = false -> Gallery.selectedIds s = []) /\
  Gallery.isLoading s = false.
Proof.
  intros Hnodup Hmode Hload s. subst s.
  destruct e; cbn [Gallery.handle].
  - destruct (onFocus_selection g st) as [-> [-> ->]].
    repeat split; [constructor | assumption].
  - unfold Gallery.selectOnPress. destruct (Gallery.selectionMode g) eqn:E;
      hsimpl; repeat split; try assumption; try constructor; discriminate.
  - unfold Gallery.handlePhotoPress.
    destruct (Gallery.selectionMode g) eqn:E.
    + split; [now apply toggleSelect_NoDup |].
      unfold Gallery.toggleSelect. hsimpl.
      split; [rewrite E; discriminate | assumption].
    + hsimpl. repeat split; try assumption. intros _. now apply Hmode.
  - unfold Gallery.handleSelectionAction.
    destruct (length (Gallery.selectedIds g) =? 0)%nat; hsimpl;
      repeat split; assumption.
  - unfold Gallery.handleAddToAlbum. hsimpl. repeat split; assumption.
  - unfold Gallery.viewAlbums. hsimpl. repeat split; assumption.
  - unfold Gallery.confirmDelete. hsimpl. repeat split; assumption.
  - assert (Hsame : Gallery.isLoading
              (screen (snd (run (Gallery.deleteSelected g) g st))) =
            Gallery.isLoading g).
    { unfold Gallery.deleteSelected. hsimpl.
      destruct (setItemRejects st photosKey); hsimpl; [reflexivity |].
      destruct (setItemRejects st albumsKey); reflexivity. }
    rewrite Hsame.
    destruct (deleteSelected_screen_cases g st)
      as [[_ [_ [-> ->]]] | [_ [_ [-> ->]]]];
      repeat split; try assumption; constructor.
  - hsimpl. repeat split; assumption.
  - hsimpl. repeat split; assumption.
  - rewrite Hload. hsimpl. repeat split; assumption.
  - destruct (Gallery.createDisabled g);
      [hsimpl; repeat split; assumption |].
    rewrite (createOrUpdateAlbum_isLoading _ _ _ g st Hload).
    destruct (createOrUpdateAlbum_cases dateNow random isoNow g st)
      as [_ [_ [[_ [_ [-> ->]]]
               | [[_ [_ [_ [_ [-> ->]]]]]
                 | [i [existing [_ [_ [_ [_ [_ [_ [-> ->]]]]]]]]]]]]];
      repeat split; try assumption; constructor.
  - unfold Gallery.closeAlbumModal. rewrite Hload. hsimpl.
    repeat split; assumption.
Qed.

(** X9 on the gallery of the scenarios in selection mode with the photo [a]
    selected: the album "Summer" is created. *)
Lemma X9_witness :
  let engine := AsciiText.methods in
  let g :=
    Gallery.mkState [Scenario.photoA; Scenario.photoB] ["a"] true false true
      "Summer" [Scenario.trip] false in
  let s :=
    screen (snd (run (Gallery.handle (Gallery.PressCreate "1700" "abc" "t5") g)
                   g Scenario.store)) in
  NoDup (Gallery.selectedIds g) /\
  Gallery.isLoading g = false /\
  Gallery.albums s =
    [Scenario.trip; Album.mk "1700abc" "Summer" (Some "t5") ["a"] (Some "a")] /\
  Gallery.selectedIds s = [] /\
  Gallery.isLoading s = false.
Proof.
  intros engine.
  assert (Hnodup : NoDup ["a"]) by (constructor; [intros [] | constructor]).
  assert (Hmode : true = false -> ["a"] = []) by discriminate.
  cbv zeta. split; [exact Hnodup |]. split; [reflexivity |].
  split; [reflexivity |]. split; [reflexivity |].
  exact (proj2 (proj2 (X9_handlers_leave_selection_in_order
                         (Gallery.PressCreate "1700" "abc" "t5")
                         (Gallery.mkState [Scenario.photoA; Scenario.photoB]
                            ["a"] true false true "Summer" [Scenario.trip]
                            false)
                         Scenario.store Hnodup Hmode eq_refl))).
Defined.

(* ================================================================== *)
(** ** Further properties of the details screen *)
(* ================================================================== *)

Lemma find_map_patch (id : string) (patch : Photo.t -> Photo.t)
  (photos : list Photo.t) :
  (forall p, Photo.id (patch p) = Photo.id p) ->
  find (fun p => Photo.id p =? id)
    (map (fun p => if Photo.id p =? id then patch p else p) photos) =
  option_map patch (find (fun p => Photo.id p =? id) photos).
Proof.
  intros Hid. induction photos as [| p rest IH]; simpl; [reflexivity |].
  destruct (Photo.id p =? id) eqn:E.
  - now rewrite Hid, E.
  - now rewrite E.
Qed.

(** What the store holds after a write of the photos that it accepted. *)
Lemma photosOf_written (st : Store) (before after : list Photo.t) :
  photosOf st = Some before ->
  photosOf (mkStore (Json after) (albumsItem st) (getItemRejects st)
              (setItemRejects st)) = Some after.
Proof.
  intros Hread. destruct (photosOf_Some st before Hread) as [Hget _].
  unfold photosOf, collection. cbn [getItemRejects photosItem].
  now rewrite Hget.
Qed.

(** X11.  A saved caption is what the details screen shows next time.
    When the screen holds a photo whose id is in the readable collection and
    the store accepts the write, then after [saveCaption] the screen opened
    again on that id holds the stored record of the id, and its caption is
    the caption that was typed. *)
Theorem X11_saved_caption_is_shown_again (d : PhotoDetails.State) (st : Store)
  (ph : Photo.t) (photos : list Photo.t) :
  PhotoDetails.photo d = Some ph ->
  photosOf st = Some photos ->
  In (Photo.id ph) (ids photos) ->
  setItemRejects st photosKey = false ->
  let saved := store (snd (run (PhotoDetails.saveCaption d) d st)) in
  let again :=
    screen (snd (run (PhotoDetails.onMount (Photo.id ph)) PhotoDetails.initial
                   saved)) in
  PhotoDetails.caption again = PhotoDetails.caption d /\
  exists found,
    PhotoDetails.photo again = Some found /\
    Photo.id found = Photo.id ph /\
    Photo.caption found = PhotoDetails.caption d.
Proof.
  intros Hph Hread Hin Hset saved again. subst again saved.
  rewrite (saveCaption_run d st ph photos Hph Hread), Hset.
  cbn [snd store].
  rewrite (onMount_run _ _ _ _ (photosOf_written st photos _ Hread)).
  unfold PhotoDetails.captioned.
  rewrite find_map_patch by reflexivity.
  destruct (find_present _ _ Hin) as [found [-> Hid]].
  cbn [option_map screen PhotoDetails.caption PhotoDetails.photo].
  split; [reflexivity |]. eexists. split; [reflexivity |].
  split; [exact Hid | reflexivity].
Qed.

(** X11 on the scenarios: the caption "sunset" is saved for the photo [a]. *)
Lemma X11_witness :
  let d :=
    PhotoDetails.typed "sunset"
      (screen (snd (run (PhotoDetails.onMount "a") PhotoDetails.initial
                      Scenario.store))) in
  let saved := store (snd (run (PhotoDetails.saveCaption d) d Scenario.store)) in
  let again :=
    screen (snd (run (PhotoDetails.onMount "a") PhotoDetails.initial saved)) in
  PhotoDetails.photo d = Some Scenario.photoA /\
  photosOf Scenario.store = Some [Scenario.photoA; Scenario.photoB] /\
  In "a" (ids [Scenario.photoA; Scenario.photoB]) /\
  setItemRejects Scenario.store photosKey = false /\
  PhotoDetails.caption again = "sunset".
Proof.
  cbv zeta. split; [reflexivity |]. split; [reflexivity |].
  split; [now left |]. split; [reflexivity |].
  exact (proj1 (X11_saved_caption_is_shown_again
                  (PhotoDetails.typed "sunset"
                     (screen (snd (run (PhotoDetails.onMount "a")
                                     PhotoDetails.initial Scenario.store))))
                  Scenario.store Scenario.photoA
                  [Scenario.photoA; Scenario.photoB]
                  eq_refl eq_refl (or_introl eq_refl) eq_refl)).
Defined.

Lemma toggled_twice (p : Photo.t) (b : bool) :
  Photo.favorite p = Some b -> Photo.toggled (Photo.toggled p) = p.
Proof.
  destruct p as [i u c cap fav]. simpl. intros ->. unfold Photo.toggled.
  simpl. now destruct b.
Qed.

(** X12.  Toggling the favorite twice gives back the collection.  When the
    screen holds a photo, the collection is readable, the store accepts the
    writes, and every record with the id of the photo has its [favorite]
    set, two runs of [toggleFavorite] (the second on the screen that the
    first leaves) store the collection as it was; the photo held by the
    screen has its flag flipped by the first run and flipped back by the
    second. *)
Theorem X12_toggleFavorite_twice (d : PhotoDetails.State) (st : Store)
  (ph : Photo.t) (photos : list Photo.t) :
  PhotoDetails.photo d = Some ph ->
  photosOf st = Some photos ->
  setItemRejects st photosKey = false ->
  (forall p, In p photos -> Photo.id p = Photo.id ph ->
             Photo.favorite p <> None) ->
  let w1 := snd (run (PhotoDetails.toggleFavorite d) d st) in
  let w2 :=
    snd (run (PhotoDetails.toggleFavorite (screen w1)) (screen w1) (store w1)) in
  photosOf (store w2) = Some photos /\
  PhotoDetails.photo (screen w1) = Some (Photo.toggled ph) /\
  PhotoDetails.photo (screen w2) = Some (Photo.toggled (Photo.toggled ph)) /\
  Photo.favorite (Photo.toggled (Photo.toggled ph)) =
    Some (negb (JS.not (Photo.favorite ph))).
Proof.
  intros Hph Hread Hset Hfav w1 w2. subst w2 w1.
  rewrite (toggleFavorite_run d st ph photos Hph Hread), Hset.
  cbn [snd screen store].
  set (once := PhotoDetails.favoriteToggled (Photo.id ph) photos).
  set (st1 := mkStore (Json once) (albumsItem st) (getItemRejects st)
                (setItemRejects st)).
  set (d1 := PhotoDetails.mkState (Some (Photo.toggled ph))
               (PhotoDetails.caption d) (PhotoDetails.rotation d)
               (PhotoDetails.hasEdits d) (PhotoDetails.editUri d)).
  assert (Hread1 : photosOf st1 = Some once)
    by (apply (photosOf_written st photos once Hread)).
  rewrite (toggleFavorite_run d1 st1 (Photo.toggled ph) once eq_refl Hread1).
  subst st1. cbn [setItemRejects]. rewrite Hset.
  cbn [snd screen store PhotoDetails.photo].
  rewrite (photosOf_written _ once _ Hread1).
  subst once.
  split; [| split; [reflexivity | split; [reflexivity |]]].
  - f_equal. unfold PhotoDetails.favoriteToggled. cbn [Photo.toggled Photo.id].
    rewrite map_map. rewrite <- (map_id photos) at 2.
    apply map_ext_in. intros p Hin.
    destruct (Photo.id p =? Photo.id ph) eqn:E; cbn [Photo.toggled Photo.id];
      rewrite E; [| reflexivity].
    apply String.eqb_eq in E.
    destruct (Photo.favorite p) as [b |] eqn:Hb.
    + now apply toggled_twice with (b := b).
    + contradiction (Hfav p Hin E).
  - cbn. now destruct (Photo.favorite ph) as [[|] |].
Qed.

(** X12 on the scenarios: the photo [a] is made a favorite and not again. *)
Lemma X12_witness :
  let d :=
    screen (snd (run (PhotoDetails.onMount "a") PhotoDetails.initial
                   Scenario.store)) in
  let w1 := snd (run (PhotoDetails.toggleFavorite d) d Scenario.store) in
  let w2 :=
    snd (run (PhotoDetails.toggleFavorite (screen w1)) (screen w1) (store w1)) in
  PhotoDetails.photo d = Some Scenario.photoA /\
  photosOf Scenario.store = Some [Scenario.photoA; Scenario.photoB] /\
  setItemRejects Scenario.store photosKey = false /\
  photosOf (store w2) = Some [Scenario.photoA; Scenario.photoB].
Proof.
  assert (Hfav : forall p, In p [Scenario.photoA; Scenario.photoB] ->
                   Photo.id p = Photo.id Scenario.photoA ->
                   Photo.favorite p <> None).
  { intros p [<- | [<- | []]] _; discriminate. }
  cbv zeta. split; [reflexivity |]. split; [reflexivity |].
  split; [reflexivity |].
  exact (proj1 (X12_toggleFavorite_twice
                  (screen (snd (run (PhotoDetails.onMount "a")
                                  PhotoDetails.initial Scenario.store)))
                  Scenario.store Scenario.photoA
                  [Scenario.photoA; Scenario.photoB]
                  eq_refl eq_refl eq_refl Hfav)).
Defined.

Lemma find_id (id : string) (photos : list Photo.t) (found : Photo.t) :
  find (fun p => Photo.id p =? id) photos = Some found -> Photo.id found = id.
Proof.
  intros H. apply find_some in H. destruct H as [_ H].
  now apply String.eqb_eq in H.
Qed.

(** [saveEdits] on a readable store, case by case: nothing changes, or the
    edit is saved. *)
Lemma saveEdits_cases (manipulated : option string) (d : PhotoDetails.State)
  (st : Store) (ph : Photo.t) (photos : list Photo.t) :
  PhotoDetails.photo d = Some ph ->
  photosOf st = Some photos ->
  (exists tr,
     run (PhotoDetails.saveEdits manipulated d) d st =
       (Done tt, mkWorld d st tr)) \/
  (exists u,
     manipulated = Some u /\
     run (PhotoDetails.saveEdits manipulated d) d st =
       (Done tt,
        mkWorld
          (PhotoDetails.mkState (Some (Photo.withUri ph u))
             (PhotoDetails.caption d) 0 false (Some u))
          (mkStore (Json (PhotoDetails.reframed (Photo.id ph) u photos))
             (albumsItem st) (getItemRejects st) (setItemRejects st))
          [SetItem photosKey; Alert "Saved"])).
Proof.
  intros Hph Hread.
  destruct (JS.truthy (PhotoDetails.editUri d)) eqn:Hedit.
  - destruct manipulated as [u |].
    + destruct (setItemRejects st photosKey) eqn:Hset.
      * left. eexists. unfold run, PhotoDetails.saveEdits.
        rewrite Hph, Hedit. cbn [negb].
        unfold H.tryCatch, manipulateAsync. unfold H.bind at 1.
        unfold H.ret at 1.
        rewrite readPhotos_ok with (photos := photos) by exact Hread.
        hsimpl. rewrite Hset. reflexivity.
      * right. exists u. split; [reflexivity |].
        now apply saveEdits_run.
    + left. eexists. unfold run, PhotoDetails.saveEdits.
      rewrite Hph, Hedit. reflexivity.
  - left. eexists. unfold run, PhotoDetails.saveEdits.
    rewrite Hph, Hedit. reflexivity.
Qed.

(** X13.  The photo that the details screen holds is the stored record of
    its id: this holds after the mount effect, on any store, and
    [toggleFavorite] and [saveEdits] keep it, whatever the store does with
    their write and whatever the image manipulation gives. *)
Theorem X13_details_screen_agrees_with_store :
  (forall id st,
     Agrees (screen (snd (run (PhotoDetails.onMount id) PhotoDetails.initial
                            st))) st) /\
  (forall d st,
     Agrees d st ->
     Agrees (screen (snd (run (PhotoDetails.toggleFavorite d) d st)))
       (store (snd (run (PhotoDetails.toggleFavorite d) d st)))) /\
  (forall manipulated d st,
     Agrees d st ->
     Agrees (screen (snd (run (PhotoDetails.saveEdits manipulated d) d st)))
       (store (snd (run (PhotoDetails.saveEdits manipulated d) d st)))).
Proof.
  split; [| split].
  - intros id st. destruct (photosOf st) as [photos |] eqn:Hread.
    + rewrite (onMount_run id _ st photos Hread). cbn [snd screen].
      destruct (find _ photos) as [found |] eqn:Hfound.
      * intros ph Hph. cbn in Hph. injection Hph as <-.
        exists photos. split; [assumption |].
        now rewrite (find_id _ _ _ Hfound).
      * intros ph Hph. discriminate Hph.
    + destruct (onMount_propagates id PhotoDetails.initial st Hread)
        as [e ->].
      intros ph Hph. discriminate Hph.
  - intros d st Hagrees.
    destruct (PhotoDetails.photo d) as [ph |] eqn:Hph.
    + destruct (Hagrees ph Hph) as [photos [Hread Hfind]].
      rewrite (toggleFavorite_run d st ph photos Hph Hread).
      destruct (setItemRejects st photosKey); cbn [snd screen store];
        [assumption |].
      intros held Hheld. cbn in Hheld. injection Hheld as <-.
      exists (PhotoDetails.favoriteToggled (Photo.id ph) photos).
      split; [now apply (photosOf_written st photos) |].
      unfold PhotoDetails.favoriteToggled. cbn [Photo.toggled Photo.id].
      rewrite find_map_patch by reflexivity. now rewrite Hfind.
    + unfold run, PhotoDetails.toggleFavorite. rewrite Hph.
      cbn [H.ret snd screen store].
      intros ph Hheld. rewrite Hph in Hheld. discriminate.
  - intros manipulated d st Hagrees.
    destruct (PhotoDetails.photo d) as [ph |] eqn:Hph.
    + destruct (Hagrees ph Hph) as [photos [Hread Hfind]].
      destruct (saveEdits_cases manipulated d st ph photos Hph Hread)
        as [[tr ->] | [u [_ ->]]]; cbn [snd screen store]; [assumption |].
      intros held Hheld. cbn in Hheld. injection Hheld as <-.
      exists (PhotoDetails.reframed (Photo.id ph) u photos).
      split; [now apply (photosOf_written st photos) |].
      unfold PhotoDetails.reframed. cbn [Photo.withUri Photo.id].
      rewrite find_map_patch by reflexivity. now rewrite Hfind.
    + unfold run, PhotoDetails.saveEdits. rewrite Hph.
      cbn [H.ret snd screen store].
      intros ph Hheld. rewrite Hph in Hheld. discriminate.
Qed.

(** X13 on the scenarios: the screen opened on the photo [a]. *)
Lemma X13_witness :
  Agrees
    (screen (snd (run (PhotoDetails.onMount "a") PhotoDetails.initial
                    Scenario.store)))
    Scenario.store.
Proof.
  exact (proj1 X13_details_screen_agrees_with_store "a" Scenario.store).
Defined.

(** One press of Rotate. *)
Lemma rotatePhoto_run (d : PhotoDetails.State) (st : Store) :
  run PhotoDetails.rotatePhoto d st =
    (Done tt,
     mkWorld
       (PhotoDetails.mkState (PhotoDetails.photo d) (PhotoDetails.caption d)
          ((PhotoDetails.rotation d + 90) mod 360) true
          (PhotoDetails.editUri d))
       st []).
Proof. reflexivity. Qed.

(** X14.  The angle of the details screen after [n + 1] presses of Rotate is
    the angle before plus [90 (n + 1)] degrees, modulo 360; it is below 360;
    the screen has edits to save; and four presses bring an angle below 360
    back to itself.  The store, the photo, the caption and the edit uri are
    not touched. *)
Theorem X14_rotatePhoto_angle (n : nat) (d : PhotoDetails.State) (st : Store) :
  let press := fun s => screen (snd (run PhotoDetails.rotatePhoto s st)) in
  let after := Nat.iter (S n) press d in
  PhotoDetails.rotation after = (PhotoDetails.rotation d + 90 * S n) mod 360 /\
  PhotoDetails.rotation after < 360 /\
  PhotoDetails.hasEdits after = true /\
  PhotoDetails.photo after = PhotoDetails.photo d /\
  PhotoDetails.caption after = PhotoDetails.caption d /\
  PhotoDetails.editUri after = PhotoDetails.editUri d /\
  store (snd (run PhotoDetails.rotatePhoto d st)) = st /\
  (PhotoDetails.rotation d < 360 ->
   PhotoDetails.rotation (Nat.iter 4 press d) = PhotoDetails.rotation d).
Proof.
  intros press after. subst after.
  assert (Hiter : forall k,
            PhotoDetails.rotation (Nat.iter (S k) press d) =
              (PhotoDetails.rotation d + 90 * S k) mod 360 /\
            PhotoDetails.hasEdits (Nat.iter (S k) press d) = true /\
            PhotoDetails.photo (Nat.iter (S k) press d) = PhotoDetails.photo d /\
            PhotoDetails.caption (Nat.iter (S k) press d) =
              PhotoDetails.caption d /\
            PhotoDetails.editUri (Nat.iter (S k) press d) =
              PhotoDetails.editUri d).
  { induction k as [| k [IHr [_ [IHp [IHc IHe]]]]].
    - change (Nat.iter 1 press d) with (press d).
      unfold press. rewrite rotatePhoto_run.
      cbn [snd screen PhotoDetails.rotation PhotoDetails.hasEdits
           PhotoDetails.photo PhotoDetails.caption PhotoDetails.editUri].
      repeat split; try (f_equal; lia).
    - change (Nat.iter (S (S k)) press d)
        with (press (Nat.iter (S k) press d)).
      unfold press at 1 3 5 7 9. rewrite rotatePhoto_run.
      cbn [snd screen PhotoDetails.rotation PhotoDetails.hasEdits
           PhotoDetails.photo PhotoDetails.caption PhotoDetails.editUri].
      rewrite IHr, IHp, IHc, IHe. repeat split.
      rewrite Nat.Div0.add_mod_idemp_l. f_equal. lia. }
  destruct (Hiter n) as [Hr [Hh [Hp [Hc He]]]].
  split; [assumption |]. split.
  { rewrite Hr. apply Nat.mod_upper_bound. discriminate. }
  split; [assumption |]. split; [assumption |]. split; [assumption |].
  split; [assumption |]. split; [reflexivity |].
  intros Hsmall. destruct (Hiter 3) as [H4 _]. rewrite H4.
  replace (PhotoDetails.rotation d + 90 * 4)
    with (PhotoDetails.rotation d + 1 * 360) by lia.
  rewrite Nat.Div0.mod_add. now apply Nat.mod_small.
Qed.

(** X15.  The edits of the details screen stay on the screen until they are
    saved.  [cropPhoto] and [applyBlackAndWhite] let no exception out and
    never touch the store, the photo that the screen holds, its caption or
    its angle, whatever the file system and the image manipulation do; and
    whenever they change the edit uri, the screen has edits to save. *)
Theorem X15_edits_stay_on_screen (cropped processed : option string)
  (info : option bool) (timestamp documentDirectory : string) (copyOk : bool)
  (d : PhotoDetails.State) (st : Store) :
  let crop := run (PhotoDetails.cropPhoto cropped d) d st in
  let bw :=
    run (PhotoDetails.applyBlackAndWhite info processed timestamp
           documentDirectory copyOk d) d st in
  (fst crop = Done tt /\ store (snd crop) = st /\
   wrote (trace (snd crop)) = false /\
   PhotoDetails.photo (screen (snd crop)) = PhotoDetails.photo d /\
   PhotoDetails.caption (screen (snd crop)) = PhotoDetails.caption d /\
   PhotoDetails.rotation (screen (snd crop)) = PhotoDetails.rotation d /\
   (PhotoDetails.editUri (screen (snd crop)) = PhotoDetails.editUri d /\
    PhotoDetails.hasEdits (screen (snd crop)) = PhotoDetails.hasEdits d \/
    PhotoDetails.hasEdits (screen (snd crop)) = true)) /\
  (fst bw = Done tt /\ store (snd bw) = st /\
   wrote (trace (snd bw)) = false /\
   PhotoDetails.photo (screen (snd bw)) = PhotoDetails.photo d /\
   PhotoDetails.caption (screen (snd bw)) = PhotoDetails.caption d /\
   PhotoDetails.rotation (screen (snd bw)) = PhotoDetails.rotation d /\
   (PhotoDetails.editUri (screen (snd bw)) = PhotoDetails.editUri d /\
    PhotoDetails.hasEdits (screen (snd bw)) = PhotoDetails.hasEdits d \/
    PhotoDetails.hasEdits (screen (snd bw)) = true)).
Proof.
  intros crop bw. subst crop bw.
  unfold PhotoDetails.cropPhoto, PhotoDetails.applyBlackAndWhite.
  destruct (JS.truthy (PhotoDetails.editUri d)); cbn [negb].
  - split.
    + destruct cropped; hstep; repeat split; auto.
    + destruct info as [[|] |]; hstep;
        try (destruct processed; hstep);
        try (destruct copyOk; hstep);
        repeat split; auto.
  - split; hstep; repeat split; auto.
Qed.

(** X16.  [deletePhoto] of the details screen, when the file deletion
    succeeds, the collection is readable and the store accepts the write:
    the stored collection is the previous one without the records that have
    the id of the photo held by the screen -- every other record is kept, in
    order -- and the albums are not written.  Deleting again from the same
    screen stores the same collection. *)
Theorem X16_deletePhoto_removes_the_photo (d : PhotoDetails.State)
  (st : Store) (ph : Photo.t) (photos : list Photo.t) :
  PhotoDetails.photo d = Some ph ->
  photosOf st = Some photos ->
  setItemRejects st photosKey = false ->
  let w1 := snd (run (PhotoDetails.deletePhoto true d) d st) in
  let w2 := snd (run (PhotoDetails.deletePhoto true d) d (store w1)) in
  exists kept,
    photosOf (store w1) = Some kept /\
    (forall p, In p kept <-> In p photos /\ Photo.id p <> Photo.id ph) /\
    Subsequence kept photos /\
    albumsItem (store w1) = albumsItem st /\
    store w2 = store w1.
Proof.
  intros Hph Hread Hset w1 w2. subst w2 w1.
  rewrite (deletePhoto_run d st ph photos Hph Hread Hset). cbn [snd store].
  set (kept := PhotoDetails.without (Photo.id ph) photos).
  assert (Hkept : photosOf (mkStore (Json kept) (albumsItem st)
                              (getItemRejects st) (setItemRejects st)) =
                  Some kept) by (now apply (photosOf_written st photos)).
  exists kept. split; [assumption |]. split; [| split; [| split]].
  - intros p. subst kept. unfold PhotoDetails.without.
    rewrite filter_In, negb_true_iff, String.eqb_neq. reflexivity.
  - apply filter_Subsequence.
  - reflexivity.
  - rewrite (deletePhoto_run d _ ph kept Hph Hkept Hset). cbn [snd store].
    subst kept. unfold PhotoDetails.without. now rewrite filter_twice.
Qed.

(** X16 on the scenarios: the photo [a] is deleted from its screen. *)
Lemma X16_witness :
  let d :=
    screen (snd (run (PhotoDetails.onMount "a") PhotoDetails.initial
                   Scenario.store)) in
  let w1 := snd (run (PhotoDetails.deletePhoto true d) d Scenario.store) in
  PhotoDetails.photo d = Some Scenario.photoA /\
  photosOf Scenario.store = Some [Scenario.photoA; Scenario.photoB] /\
  setItemRejects Scenario.store photosKey = false /\
  exists kept,
    photosOf (store w1) = Some kept /\
    (forall p, In p kept <->
               In p [Scenario.photoA; Scenario.photoB] /\
               Photo.id p <> Photo.id Scenario.photoA).
Proof.
  cbv zeta. split; [reflexivity |]. split; [reflexivity |].
  split; [reflexivity |].
  destruct (X16_deletePhoto_removes_the_photo
              (screen (snd (run (PhotoDetails.onMount "a") PhotoDetails.initial
                              Scenario.store)))
              Scenario.store Scenario.photoA
              [Scenario.photoA; Scenario.photoB] eq_refl eq_refl eq_refl)
    as [kept [Hstored [Hkept _]]].
  exists kept. split; [exact Hstored | exact Hkept].
Defined.

(** X17.  [deletePhoto] deletes the image file before it touches the store.
    When the file deletion fails, nothing is removed and nothing is written.
    When the file deletion succeeds and the store then rejects the write,
    the file is gone while the record of the photo stays in the collection.
    In both cases the failure is only logged. *)
Theorem X17_deletePhoto_failures (d : PhotoDetails.State) (st : Store)
  (ph : Photo.t) (photos : list Photo.t) :
  PhotoDetails.photo d = Some ph ->
  photosOf st = Some photos ->
  run (PhotoDetails.deletePhoto false d) d st =
    (Done tt, mkWorld d st [ConsoleError "Failed to delete photo:"]) /\
  (setItemRejects st photosKey = true ->
   run (PhotoDetails.deletePhoto true d) d st =
     (Done tt,
      mkWorld d st
        [FileDelete (Photo.uri ph); ConsoleError "Failed to delete photo:"])).
Proof.
  intros Hph Hread. split.
  - unfold run, PhotoDetails.deletePhoto. rewrite Hph. reflexivity.
  - intros Hset. unfold run, PhotoDetails.deletePhoto. rewrite Hph.
    unfold H.tryCatch, deleteAsync. unfold H.bind at 1. unfold H.emit at 1.
    rewrite readPhotos_ok with (photos := photos) by exact Hread.
    hsimpl. rewrite Hset. reflexivity.
Qed.

(** X17 on the scenarios, with a store that rejects the writes. *)
Lemma X17_witness :
  let st :=
    mkStore (photosItem Scenario.store) (albumsItem Scenario.store)
      Scenario.accepts (fun _ => true) in
  let d :=
    screen (snd (run (PhotoDetails.onMount "a") PhotoDetails.initial st)) in
  PhotoDetails.photo d = Some Scenario.photoA /\
  photosOf st = Some [Scenario.photoA; Scenario.photoB] /\
  setItemRejects st photosKey = true /\
  run (PhotoDetails.deletePhoto true d) d st =
    (Done tt,
     mkWorld d st
       [FileDelete "file:///a.jpg"; ConsoleError "Failed to delete photo:"]).
Proof.
  cbv zeta. split; [reflexivity |]. split; [reflexivity |].
  split; [reflexivity |].
  exact (proj2 (X17_deletePhoto_failures
                  (screen (snd (run (PhotoDetails.onMount "a")
                     PhotoDetails.initial
                     (mkStore (photosItem Scenario.store)
                        (albumsItem Scenario.store) Scenario.accepts
                        (fun _ => true)))))
                  (mkStore (photosItem Scenario.store)
                     (albumsItem Scenario.store) Scenario.accepts
                     (fun _ => true))
                  Scenario.photoA [Scenario.photoA; Scenario.photoB]
                  eq_refl eq_refl) eq_refl).
Defined.

(* ================================================================== *)
(** ** Further properties of the camera and the albums screen *)
(* ================================================================== *)

(** The two outcomes of [savePhoto]: nothing but the console changes, or
    one record is appended and the preview is cleared. *)
Lemma savePhoto_cases (uuid dir now : string) (copyOk : bool)
  (c : Camera.State) (st : Store) :
  (exists tr,
     run (Camera.savePhoto uuid dir now copyOk c) c st =
       (Done tt, mkWorld c st tr)) \/
  (exists photos tr,
     photosOf st = Some photos /\
     run (Camera.savePhoto uuid dir now copyOk c) c st =
       (Done tt,
        mkWorld (Camera.mkState None)
          (mkStore
             (Json (photos ++
                    [Photo.mk (uuid ++ ".jpg") (dir ++ uuid ++ ".jpg") now ""
                       (Some false)]))
             (albumsItem st) (getItemRejects st) (setItemRejects st))
          tr)).
Proof.
  destruct c as [[u |]]; [| left; eexists; reflexivity].
  destruct (String.eqb_spec u "") as [-> | Hu]; [left; eexists; reflexivity |].
  destruct copyOk.
  - destruct (photosOf st) as [photos |] eqn:Hread.
    + destruct (setItemRejects st photosKey) eqn:Hset.
      * left. unfold run, Camera.savePhoto. cbn [Camera.photoUri JS.truthy].
        apply String.eqb_neq in Hu. rewrite Hu. cbn [negb].
        unfold H.tryCatch, copyAsync. unfold H.bind at 1. unfold H.emit at 1.
        rewrite readPhotos_ok with (photos := photos) by exact Hread.
        hsimpl. rewrite Hset. eexists; reflexivity.
      * right. exists photos. eexists. split; [reflexivity |].
        now apply savePhoto_run.
    + left. unfold run, Camera.savePhoto. cbn [Camera.photoUri JS.truthy].
      apply String.eqb_neq in Hu. rewrite Hu. cbn [negb].
      unfold H.tryCatch, copyAsync. unfold H.bind at 1. unfold H.emit at 1.
      match goal with
      | |- context [H.bind H.getItemPhotos
                      (fun stored => H.bind (H.parseOrEmpty stored) ?k) ?w] =>
          destruct (readPhotos_fails k w Hread) as [e He]; rewrite He
      end.
      eexists; reflexivity.
  - left. unfold run, Camera.savePhoto. cbn [Camera.photoUri JS.truthy].
    apply String.eqb_neq in Hu. rewrite Hu. cbn [negb].
    eexists; reflexivity.
Qed.

(** X18.  [savePhoto] never loses a photo.  Whatever the preview, the file
    copy and the store do, it lets no exception out and does not write the
    albums; and either the store is left as it is and the preview is kept,
    or the collection was readable and is stored again with exactly one
    record appended -- id [uuid + ".jpg"], empty caption, not a favorite --
    and the preview is cleared, so that a second [savePhoto] from the
    resulting screen does nothing. *)
Theorem X18_savePhoto_only_appends (uuid dir now : string) (copyOk : bool)
  (c : Camera.State) (st : Store) :
  let r := run (Camera.savePhoto uuid dir now copyOk c) c st in
  fst r = Done tt /\
  albumsItem (store (snd r)) = albumsItem st /\
  ((store (snd r) = st /\ screen (snd r) = c) \/
   (exists photos,
      photosOf st = Some photos /\
      photosItem (store (snd r)) =
        Json (photos ++
              [Photo.mk (uuid ++ ".jpg") (dir ++ uuid ++ ".jpg") now ""
                 (Some false)]) /\
      screen (snd r) = Camera.mkState None /\
      forall uuid' dir' now' copyOk',
        run (Camera.savePhoto uuid' dir' now' copyOk' (screen (snd r)))
          (screen (snd r)) (store (snd r)) =
        (Done tt, mkWorld (screen (snd r)) (store (snd r)) []))).
Proof.
  intros r. subst r.
  destruct (savePhoto_cases uuid dir now copyOk c st)
    as [[tr ->] | [photos [tr [Hread ->]]]]; cbn [fst snd store screen].
  - repeat split. left. split; reflexivity.
  - repeat split. right. exists photos. repeat split. exact Hread.
Qed.

(** X19.  [loadAlbumsAndPhotos] is all or nothing.  It never lets an
    exception out, never writes, always ends with [loading] false and leaves
    the modal fields alone.  When both items can be read and parsed the
    screen shows both collections and nothing is reported; when either of
    them cannot, the screen keeps both of its previous collections -- also
    the one that could have been read -- and the failure is reported. *)
Theorem X19_albums_screen_load_all_or_nothing (s : AlbumsScreen.State)
  (st : Store) :
  let r := run AlbumsScreen.loadAlbumsAndPhotos s st in
  let s' := screen (snd r) in
  fst r = Done tt /\
  store (snd r) = st /\
  AlbumsScreen.loading s' = false /\
  AlbumsScreen.selectedAlbum s' = AlbumsScreen.selectedAlbum s /\
  AlbumsScreen.showCreateModal s' = AlbumsScreen.showCreateModal s /\
  AlbumsScreen.newAlbumName s' = AlbumsScreen.newAlbumName s /\
  AlbumsScreen.selectedPhotoIds s' = AlbumsScreen.selectedPhotoIds s /\
  match albumsOf st, photosOf st with
  | Some albums, Some photos =>
      AlbumsScreen.albums s' = albums /\
      AlbumsScreen.photos s' = photos /\
      reportsFailure (trace (snd r)) = false
  | _, _ =>
      AlbumsScreen.albums s' = AlbumsScreen.albums s /\
      AlbumsScreen.photos s' = AlbumsScreen.photos s /\
      reportsFailure (trace (snd r)) = true
  end.
Proof.
  intros r s'. subst s' r.
  unfold albumsOf, photosOf, collection, AlbumsScreen.loadAlbumsAndPhotos.
  hstep.
  destruct (getItemRejects st albumsKey); hstep; [repeat split |].
  destruct (getItemRejects st photosKey); hstep;
    [destruct (albumsItem st); repeat split |].
  destruct (albumsItem st); destruct (photosItem st); hstep; repeat split.
Qed.

(** The Create button of the albums screen, past its guard. *)
Lemma createOnPress_run {engine : JS.StringMethods}
  (dateNow : string) (s : AlbumsScreen.State)
  (st : Store) :
  JS.trim (AlbumsScreen.newAlbumName s) <> "" ->
  AlbumsScreen.selectedPhotoIds s <> [] ->
  run (AlbumsScreen.createOnPress dateNow s) s st =
    if setItemRejects st albumsKey then (Thrown StorageError, mkWorld s st [])
    else
      let updatedAlbums :=
        AlbumsScreen.albums s ++
        [Album.mk dateNow (JS.trim (AlbumsScreen.newAlbumName s)) None
           (AlbumsScreen.selectedPhotoIds s) None] in
      (Done tt,
       mkWorld
         (AlbumsScreen.mkState updatedAlbums (AlbumsScreen.photos s)
            (AlbumsScreen.selectedAlbum s) (AlbumsScreen.loading s) false
            (AlbumsScreen.newAlbumName s) (AlbumsScreen.selectedPhotoIds s))
         (mkStore (photosItem st) (Json updatedAlbums) (getItemRejects st)
            (setItemRejects st))
         [SetItem albumsKey; Alert "Success"]).
Proof.
  intros Hname Hpicked. unfold AlbumsScreen.createOnPress.
  rewrite (isEmpty_false _ Hname).
  assert (Hlen : (length (AlbumsScreen.selectedPhotoIds s) =? 0)%nat = false)
    by (destruct (AlbumsScreen.selectedPhotoIds s);
        [congruence | reflexivity]).
  rewrite Hlen. cbn [orb]. hstep.
  destruct (setItemRejects st albumsKey); reflexivity.
Qed.

(** X20.  The Create button of the albums screen.  With a blank name or no
    photo ticked it only shows the Missing Info alert.  Otherwise, when the
    store accepts the write, the stored albums and the albums of the screen
    are the albums of the screen with one album appended -- trimmed name,
    the ticked photos, no cover -- the photos item is not touched and the
    modal is closed; when the store rejects the write, the rejection is not
    caught, and the screen, the modal and the store stay as they were. *)
Theorem X20_albums_screen_create {engine : JS.StringMethods} (dateNow : string)
  (s : AlbumsScreen.State) (st : Store) :
  let r := run (AlbumsScreen.createOnPress dateNow s) s st in
  let trimmed := JS.trim (AlbumsScreen.newAlbumName s) in
  let updatedAlbums :=
    AlbumsScreen.albums s ++
    [Album.mk dateNow trimmed None (AlbumsScreen.selectedPhotoIds s) None] in
  (trimmed = "" \/ AlbumsScreen.selectedPhotoIds s = [] ->
   r = (Done tt, mkWorld s st [Alert "Missing Info"])) /\
  (trimmed <> "" -> AlbumsScreen.selectedPhotoIds s <> [] ->
   (setItemRejects st albumsKey = true ->
    r = (Thrown StorageError, mkWorld s st [])) /\
   (setItemRejects st albumsKey = false ->
    fst r = Done tt /\
    albumsItem (store (snd r)) = Json updatedAlbums /\
    photosItem (store (snd r)) = photosItem st /\
    AlbumsScreen.albums (screen (snd r)) = updatedAlbums /\
    AlbumsScreen.photos (screen (snd r)) = AlbumsScreen.photos s /\
    AlbumsScreen.showCreateModal (screen (snd r)) = false)).
Proof.
  intros r trimmed updatedAlbums. subst r trimmed updatedAlbums. split.
  - intros [Hblank | Hnone]; unfold AlbumsScreen.createOnPress.
    + unfold JS.isEmpty. rewrite Hblank. reflexivity.
    + rewrite Hnone. cbn [length Nat.eqb]. rewrite orb_true_r. reflexivity.
  - intros Hname Hpicked. rewrite (createOnPress_run _ _ _ Hname Hpicked).
    split; intros ->; [reflexivity | repeat split].
Qed.

(** X21.  The Create button of the albums screen writes the albums that
    the screen shows, not the stored ones.  When the screen, showing the
    albums and photos of an earlier load, gets the focus again and that
    load fails (either item cannot be read or parsed), it keeps what it
    showed; an album created then is stored after the albums shown, and
    these replace whatever the store held: an album that was stored since
    the earlier load, and that the screen does not show, is lost. *)
Theorem X21_create_after_failed_reload_overwrites
  {engine : JS.StringMethods} (dateNow name : string) (picked : list string)
  (shown : AlbumsScreen.State) (st : Store) :
  albumsOf st = None \/ photosOf st = None ->
  setItemRejects st albumsKey = false ->
  JS.trim name <> "" ->
  picked <> [] ->
  let reloaded :=
    screen (snd (run AlbumsScreen.loadAlbumsAndPhotos shown st)) in
  let s := AlbumsScreen.withInput name picked reloaded in
  let r := run (AlbumsScreen.createOnPress dateNow s) s st in
  let new := Album.mk dateNow (JS.trim name) None picked None in
  AlbumsScreen.photos reloaded = AlbumsScreen.photos shown /\
  fst r = Done tt /\
  albumsItem (store (snd r)) = Json (AlbumsScreen.albums shown ++ [new]) /\
  (forall a,
     ~ In a (AlbumsScreen.albums shown) -> a <> new ->
     forall kept, albumsItem (store (snd r)) = Json kept -> ~ In a kept).
Proof.
  intros Hfails Hset Hname Hpicked reloaded s r new.
  assert (Hkept : AlbumsScreen.albums s = AlbumsScreen.albums shown /\
                  AlbumsScreen.photos reloaded = AlbumsScreen.photos shown).
  { subst s reloaded. cbn [AlbumsScreen.withInput AlbumsScreen.albums].
    unfold albumsOf, photosOf, collection in Hfails.
    unfold AlbumsScreen.loadAlbumsAndPhotos. hstep.
    destruct (getItemRejects st albumsKey); hstep; [split; reflexivity |].
    destruct (getItemRejects st photosKey); hstep; [split; reflexivity |].
    destruct (albumsItem st); destruct (photosItem st); hstep;
      try (split; reflexivity); destruct Hfails; discriminate. }
  destruct Hkept as [Halbums Hphotos].
  assert (Hstored : fst r = Done tt /\
                    albumsItem (store (snd r)) =
                      Json (AlbumsScreen.albums shown ++ [new])).
  { subst r. rewrite createOnPress_run; [| exact Hname | exact Hpicked].
    rewrite Hset. cbn [fst snd store albumsItem]. rewrite Halbums.
    split; reflexivity. }
  destruct Hstored as [Hdone Hstored].
  split; [exact Hphotos |]. split; [exact Hdone |]. split; [exact Hstored |].
  intros a Hshown Hnew kept Hjson. rewrite Hstored in Hjson.
  injection Hjson as <-. intros Hin. apply in_app_or in Hin.
  destruct Hin as [Hin | [Heq | []]]; [now apply Hshown | now apply Hnew].
Qed.

(** X21 on the scenarios.  The screen shows the album [trip] and the photos
    [a], [b] of an earlier load; the store has since got the album "Summer"
    and now rejects the read of the photos.  The album "Sea" is created with
    the photo [a]: the store holds [trip] and "Sea", and "Summer" is gone. *)
Lemma X21_witness :
  let engine := AsciiText.methods in
  let summer := Album.mk "2" "Summer" (Some "t3") ["b"] (Some "b") in
  let shown :=
    screen (snd (run AlbumsScreen.loadAlbumsAndPhotos AlbumsScreen.initial
                   Scenario.store)) in
  let st :=
    mkStore (Json [Scenario.photoA; Scenario.photoB])
      (Json [Scenario.trip; summer])
      (fun k => match k with photosKey => true | albumsKey => false end)
      Scenario.accepts in
  let reloaded :=
    screen (snd (run AlbumsScreen.loadAlbumsAndPhotos shown st)) in
  let s := AlbumsScreen.withInput "Sea" ["a"] reloaded in
  let r := run (AlbumsScreen.createOnPress "7" s) s st in
  AlbumsScreen.photos shown = [Scenario.photoA; Scenario.photoB] /\
  photosOf st = None /\
  setItemRejects st albumsKey = false /\
  albumsItem (store (snd r)) =
    Json [Scenario.trip; Album.mk "7" "Sea" None ["a"] None].
Proof.
  intros engine.
  assert (Hname : JS.trim "Sea" <> "") by discriminate.
  assert (Hpicked : ["a"] <> []) by discriminate.
  cbv zeta. split; [reflexivity |]. split; [reflexivity |].
  split; [reflexivity |].
  exact (proj1 (proj2 (proj2
    (X21_create_after_failed_reload_overwrites "7" "Sea" ["a"]
       (screen (snd (run AlbumsScreen.loadAlbumsAndPhotos AlbumsScreen.initial
                       Scenario.store)))
       (mkStore (Json [Scenario.photoA; Scenario.photoB])
          (Json [Scenario.trip;
                 Album.mk "2" "Summer" (Some "t3") ["b"] (Some "b")])
          (fun k => match k with photosKey => true | albumsKey => false end)
          Scenario.accepts)
       (or_intror eq_refl) eq_refl Hname Hpicked)))).
Defined.

(** One press on a photo of the modal. *)
Lemma tickPhoto_includes (id other : string) (s : AlbumsScreen.State)
  (st : Store) :
  JS.includes
    (AlbumsScreen.selectedPhotoIds
       (screen (snd (run (AlbumsScreen.tickPhoto id s) s st)))) other =
  xorb (JS.includes (AlbumsScreen.selectedPhotoIds s) other) (other =? id).
Proof.
  unfold AlbumsScreen.tickPhoto. hstep.
  set (sel := AlbumsScreen.selectedPhotoIds s).
  destruct (String.eqb_spec other id) as [-> | Hne].
  - destruct (JS.includes sel id) eqn:Hin; cbn [xorb].
    + apply includes_false. rewrite filter_In, String.eqb_refl.
      intros [_ Hfalse]. discriminate.
    + apply includes_In. apply in_or_app. right. now left.
  - rewrite xorb_false_r.
    destruct (JS.includes sel other) eqn:Hother;
      destruct (JS.includes sel id) eqn:Hin.
    + apply includes_In. apply filter_In. split.
      * now apply includes_In.
      * apply negb_true_iff. now apply String.eqb_neq.
    + apply includes_In. apply in_or_app. left. now apply includes_In.
    + apply includes_false. rewrite filter_In. intros [Hin' _].
      apply includes_In in Hin'. congruence.
    + apply includes_false. intros Hin'. apply in_app_or in Hin'.
      destruct Hin' as [Hin' | [Heq | []]].
      * apply includes_In in Hin'. congruence.
      * now apply Hne.
Qed.

Lemma tickPhoto_NoDup (id : string) (s : AlbumsScreen.State) (st : Store) :
  NoDup (AlbumsScreen.selectedPhotoIds s) ->
  NoDup (AlbumsScreen.selectedPhotoIds
           (screen (snd (run (AlbumsScreen.tickPhoto id s) s st)))).
Proof.
  intros Hnodup. unfold AlbumsScreen.tickPhoto. hstep.
  destruct (JS.includes (AlbumsScreen.selectedPhotoIds s) id) eqn:Hsel.
  - now apply NoDup_filter.
  - apply NoDup_push; [assumption |]. now apply includes_false.
Qed.

Lemma tapped_spec (st : Store) (taps : list string) :
  forall s : AlbumsScreen.State,
    NoDup (AlbumsScreen.selectedPhotoIds s) ->
    NoDup (AlbumsScreen.selectedPhotoIds (tapped taps s st)) /\
    forall id,
      JS.includes (AlbumsScreen.selectedPhotoIds (tapped taps s st)) id =
      xorb (JS.includes (AlbumsScreen.selectedPhotoIds s) id)
           (Nat.odd (count_occ string_dec taps id)).
Proof.
  induction taps as [| t rest IH]; intros s Hnodup.
  - split; [assumption |]. intros id. cbn. now rewrite xorb_false_r.
  - unfold tapped. cbn [fold_left]. fold (tapped rest).
    destruct (IH _ (tickPhoto_NoDup t s st Hnodup)) as [Hn Hin].
    split; [exact Hn |]. intros id. unfold tapped in Hin. rewrite Hin.
    rewrite tickPhoto_includes. cbn [count_occ].
    destruct (string_dec t id) as [-> | Hne].
    + rewrite String.eqb_refl, Nat.odd_succ, <- Nat.negb_odd.
      destruct (JS.includes (AlbumsScreen.selectedPhotoIds s) id);
        destruct (Nat.odd (count_occ string_dec rest id)); reflexivity.
    + assert (Hneq : (id =? t) = false)
        by (apply String.eqb_neq; congruence).
      rewrite Hneq, xorb_false_r. reflexivity.
Qed.

(** X22.  The ticks of the new-album modal behave as the JavaScript [Set]
    they are kept in.  After the Create Album button opened the modal and
    the photos [taps] were pressed in turn, no id is held twice, and an id
    is ticked exactly when it was pressed an odd number of times; the
    albums, the photos and the store are as before. *)
Theorem X22_modal_ticks_are_a_set (taps : list string)
  (s : AlbumsScreen.State) (st : Store) :
  let opened := screen (snd (run AlbumsScreen.openCreateModal s st)) in
  let s' := tapped taps opened st in
  AlbumsScreen.showCreateModal opened = true /\
  AlbumsScreen.newAlbumName opened = "" /\
  NoDup (AlbumsScreen.selectedPhotoIds s') /\
  (forall id,
     In id (AlbumsScreen.selectedPhotoIds s') <->
     Nat.odd (count_occ string_dec taps id) = true) /\
  AlbumsScreen.albums s' = AlbumsScreen.albums s /\
  AlbumsScreen.photos s' = AlbumsScreen.photos s.
Proof.
  intros opened s'.
  assert (Hopened : AlbumsScreen.selectedPhotoIds opened = [])
    by reflexivity.
  destruct (tapped_spec st taps opened) as [Hnodup Hin];
    [rewrite Hopened; constructor |].
  split; [reflexivity |]. split; [reflexivity |].
  split; [exact Hnodup |]. split.
  - intros id. rewrite <- includes_In. fold s' in Hin. rewrite Hin, Hopened.
    cbn [JS.includes existsb xorb]. reflexivity.
  - assert (Hframe : forall taps' s0,
              AlbumsScreen.albums (tapped taps' s0 st) =
                AlbumsScreen.albums s0 /\
              AlbumsScreen.photos (tapped taps' s0 st) =
                AlbumsScreen.photos s0).
    { induction taps' as [| t rest IH]; intros s0; [split; reflexivity |].
      unfold tapped. cbn [fold_left]. fold (tapped rest).
      destruct (IH (screen (snd (run (AlbumsScreen.tickPhoto t s0) s0 st))))
        as [Ha Hp].
      unfold tapped in Ha, Hp. rewrite Ha, Hp. split; reflexivity. }
    subst s'. destruct (Hframe taps opened) as [-> ->]. split; reflexivity.
Qed.
